(** * Turn-taking controller of the voice assistant

    A shallow embedding of the React component [VoiceAssistant] together
    with the two hooks it consumes ([useSpeechRecognition] and
    [useSpeechSynthesis]) and the [sendMessage] service call.

    - The state variables ([useState]), the refs ([useRef]) and the state
      of the two hooks are the fields of one record, [State]; handlers and
      effects are functions on it.
    - The browser is part of the record: a clock and the pending timers,
      the utterance queued in [window.speechSynthesis], whether the
      recogniser was ever started, and the calls of [sendMessage] in
      flight together with the log of every message posted.
    - What happens to the component is an [Event]: a click, a recognition
      result or error, the start, end or error of the utterance, the answer
      or failure of a backend call, a timer that fires, time that passes.
      The adapters are taken at their interface: the recogniser reports
      results once it has been started, the synthesiser reports the start
      and the end of the utterance it holds.
    - A [step] runs the handler of the event and then the commits of React:
      an effect runs when one of its dependencies differs from the last
      commit, in declaration order, reading the state variables of its
      render and the refs as they are; updates made by effects lead to
      another commit.
    - A closure keeps the state variables of the render that created it;
      the values a timer or a completion callback captured are stored with
      it.
    - An exception ([window.speechSynthesis.cancel()] where synthesis is
      missing) ends the handler; the updates made before it stay.
    - A string is a sequence of UTF-16 code units, and [trim] removes the
      white space and line terminators of ECMAScript, in and outside
      ASCII. *)

From Stdlib Require Import List NArith ZArith Bool Arith Lia.
From Stdlib.Strings Require Byte.
Import ListNotations.

(** ** JavaScript strings *)

Module JsString.

(** A string is a sequence of UTF-16 code units, as ECMAScript defines it;
    a code unit is a number below 65536 (nothing below depends on the
    bound).  Equality, [length], [+], [split], [startsWith] and [trim] all
    work on code units. *)
Definition char : Set := N.

Inductive string : Set :=
| EmptyString
| String (c : char) (s : string).

(** String literals stand for their ASCII characters; any other code unit
    is written as a number. *)
Fixpoint of_bytes (l : list Byte.byte) : option string :=
  match l with
  | [] => Some EmptyString
  | b :: r =>
      if (Byte.to_N b <? 128)%N
      then option_map (String (Byte.to_N b)) (of_bytes r)
      else None
  end.

Fixpoint to_bytes (s : string) : option (list Byte.byte) :=
  match s with
  | EmptyString => Some []
  | String c r =>
      if (c <? 128)%N
      then match Byte.of_N c, to_bytes r with
           | Some b, Some l => Some (b :: l)
           | _, _ => None
           end
      else None
  end.

Declare Scope js_scope.
Delimit Scope js_scope with js.
Bind Scope js_scope with string.
String Notation string of_bytes to_bytes : js_scope.
Arguments String c%_N s%_js.

(** [a + b]. *)
Fixpoint append (a b : string) : string :=
  match a with
  | EmptyString => b
  | String c r => String c (append r b)
  end.

Infix "++" := append (right associativity, at level 60) : js_scope.

(** [s.length], the number of code units. *)
Fixpoint strlen (s : string) : nat :=
  match s with
  | EmptyString => O
  | String _ r => S (strlen r)
  end.

(** [a === b]. *)
Fixpoint eqb (a b : string) : bool :=
  match a, b with
  | EmptyString, EmptyString => true
  | String c r, String d q => (c =? d)%N && eqb r q
  | _, _ => false
  end.

Infix "=?" := eqb (at level 70) : js_scope.

(** [s.startsWith(p)]. *)
Fixpoint prefix (p s : string) : bool :=
  match p, s with
  | EmptyString, _ => true
  | String c r, String d q => (c =? d)%N && prefix r q
  | String _ _, EmptyString => false
  end.

(** A string is truthy when it is not the empty string. *)
Definition truthy (s : string) : bool := negb (s =? "")%js.

(** The code units [String.prototype.trim] removes: the WhiteSpace of
    ECMAScript (TAB, VT, FF, ZWNBSP and the space separators of Unicode:
    SP, NBSP, U+1680, U+2000 to U+200A, U+202F, U+205F, U+3000) and its
    LineTerminator (LF, CR, LS, PS). *)
Definition is_ws (c : char) : bool :=
  ((0x0009 <=? c) && (c <=? 0x000D)     (* TAB, LF, VT, FF, CR *)
   || (c =? 0x0020)                      (* SP *)
   || (c =? 0x00A0)                      (* NBSP *)
   || (c =? 0x1680)
   || ((0x2000 <=? c) && (c <=? 0x200A))
   || (c =? 0x2028) || (c =? 0x2029)     (* LS, PS *)
   || (c =? 0x202F) || (c =? 0x205F)
   || (c =? 0x3000)
   || (c =? 0xFEFF))%N.                  (* ZWNBSP *)

Fixpoint trimStart (s : string) : string :=
  match s with
  | EmptyString => EmptyString
  | String c r => if is_ws c then trimStart r else s
  end.

Fixpoint trimEnd (s : string) : string :=
  match s with
  | EmptyString => EmptyString
  | String c r =>
      match trimEnd r with
      | EmptyString => if is_ws c then EmptyString else String c EmptyString
      | r' => String c r'
      end
  end.

Definition trim (s : string) : string := trimEnd (trimStart s).

(** The space character, U+0020. *)
Definition space : char := 32%N.

(** [s.split(' ')]: the pieces of [s] between single space characters;
    the empty string has the one piece [""]. *)
Fixpoint split_space (s : string) : list string :=
  match s with
  | EmptyString => [EmptyString]
  | String c r =>
      if (c =? space)%N then EmptyString :: split_space r
      else match split_space r with
           | h :: t => String c h :: t
           | [] => [String c EmptyString]
           end
  end.

(** [ws.join(' ')]. *)
Fixpoint join_space (ws : list string) : string :=
  match ws with
  | [] => EmptyString
  | [w] => w
  | w :: rest => (w ++ " " ++ join_space rest)%js
  end.

Fixpoint has_space (s : string) : bool :=
  match s with
  | EmptyString => false
  | String c r => (c =? space)%N || has_space r
  end.

End JsString.
Import JsString.

Local Open Scope js_scope.

(** ** Data model *)

(** The value of the [status] state variable. *)
Inductive Status : Type := Idle | Listening | Processing | Speaking | Error.

(** The completion callback handed to [speak].  [OnReply c] is the callback
    built in [handleUserMessage]; [c] is the value of [isSpeaking] captured
    by the closure of the render that dispatched the turn. *)
Inductive OnEnd : Type :=
| OnGreeting
| OnReply (isSpeaking_c : bool).

(** The utterance held by [window.speechSynthesis]. *)
Record Utterance : Type := {
  uText : string;
  uOnEnd : OnEnd;
  uStarted : bool
}.

(** The callbacks passed to [setTimeout], with the values their closures
    captured. *)
Inductive TimerAction : Type :=
| TSilence (isListening_c : bool) (interim_c : string)
| TSettle (response : string) (isSpeaking_c : bool)
| TResume (isSpeaking_c : bool)
| TErrorRecover
| TInterruptResume
| TCancelResume.

Record Timer : Type := {
  tid : nat;
  due : Z;
  act : TimerAction
}.

(** The dependency values of the three effects at the last committed
    render. *)
Record Deps : Type := {
  dInterim : string;
  dTranscript : string;
  dIsListening : bool;
  dHasStarted : bool;
  dIsSpeaking : bool
}.

Record State : Type := {
  (* useState of VoiceAssistant *)
  status : Status;
  currentTranscript : string;
  lastResponse : string;
  hasStarted : bool;
  needsPermission : bool;
  (* useRef of VoiceAssistant *)
  silenceTimerRef : option nat;
  processingRef : bool;
  lastTranscriptRef : string;
  (* useSpeechRecognition *)
  isListening : bool;
  transcript : string;
  interimTranscript : string;
  recError : option string;
  recIsSupported : bool;
  recStarted : bool;
  (* useSpeechSynthesis *)
  isSpeaking : bool;
  synthIsSupported : bool;
  utterance : option Utterance;
  (* browser: clock and timers *)
  clock : Z;
  nextTimerId : nat;
  timers : list Timer;
  (* backend: calls of sendMessage in flight, and every message posted *)
  pending : list (nat * bool);
  sent : list string;
  (* React: dependencies of the last commit *)
  deps : Deps
}.

(** Field updates: [setX] of [useState], and assignments to [ref.current]. *)

Definition set_status (v : Status) (s : State) : State :=
  {| status := v; currentTranscript := currentTranscript s;
     lastResponse := lastResponse s; hasStarted := hasStarted s;
     needsPermission := needsPermission s;
     silenceTimerRef := silenceTimerRef s; processingRef := processingRef s;
     lastTranscriptRef := lastTranscriptRef s; isListening := isListening s;
     transcript := transcript s; interimTranscript := interimTranscript s;
     recError := recError s; recIsSupported := recIsSupported s;
     recStarted := recStarted s; isSpeaking := isSpeaking s;
     synthIsSupported := synthIsSupported s; utterance := utterance s;
     clock := clock s; nextTimerId := nextTimerId s; timers := timers s;
     pending := pending s; sent := sent s; deps := deps s |}.

Definition set_currentTranscript (v : string) (s : State) : State :=
  {| status := status s; currentTranscript := v;
     lastResponse := lastResponse s; hasStarted := hasStarted s;
     needsPermission := needsPermission s;
     silenceTimerRef := silenceTimerRef s; processingRef := processingRef s;
     lastTranscriptRef := lastTranscriptRef s; isListening := isListening s;
     transcript := transcript s; interimTranscript := interimTranscript s;
     recError := recError s; recIsSupported := recIsSupported s;
     recStarted := recStarted s; isSpeaking := isSpeaking s;
     synthIsSupported := synthIsSupported s; utterance := utterance s;
     clock := clock s; nextTimerId := nextTimerId s; timers := timers s;
     pending := pending s; sent := sent s; deps := deps s |}.

Definition set_lastResponse (v : string) (s : State) : State :=
  {| status := status s; currentTranscript := currentTranscript s;
     lastResponse := v; hasStarted := hasStarted s;
     needsPermission := needsPermission s;
     silenceTimerRef := silenceTimerRef s; processingRef := processingRef s;
     lastTranscriptRef := lastTranscriptRef s; isListening := isListening s;
     transcript := transcript s; interimTranscript := interimTranscript s;
     recError := recError s; recIsSupported := recIsSupported s;
     recStarted := recStarted s; isSpeaking := isSpeaking s;
     synthIsSupported := synthIsSupported s; utterance := utterance s;
     clock := clock s; nextTimerId := nextTimerId s; timers := timers s;
     pending := pending s; sent := sent s; deps := deps s |}.

Definition set_hasStarted (v : bool) (s : State) : State :=
  {| status := status s; currentTranscript := currentTranscript s;
     lastResponse := lastResponse s; hasStarted := v;
     needsPermission := needsPermission s;
     silenceTimerRef := silenceTimerRef s; processingRef := processingRef s;
     lastTranscriptRef := lastTranscriptRef s; isListening := isListening s;
     transcript := transcript s; interimTranscript := interimTranscript s;
     recError := recError s; recIsSupported := recIsSupported s;
     recStarted := recStarted s; isSpeaking := isSpeaking s;
     synthIsSupported := synthIsSupported s; utterance := utterance s;
     clock := clock s; nextTimerId := nextTimerId s; timers := timers s;
     pending := pending s; sent := sent s; deps := deps s |}.

Definition set_needsPermission (v : bool) (s : State) : State :=
  {| status := status s; currentTranscript := currentTranscript s;
     lastResponse := lastResponse s; hasStarted := hasStarted s;
     needsPermission := v; silenceTimerRef := silenceTimerRef s;
     processingRef := processingRef s;
     lastTranscriptRef := lastTranscriptRef s; isListening := isListening s;
     transcript := transcript s; interimTranscript := interimTranscript s;
     recError := recError s; recIsSupported := recIsSupported s;
     recStarted := recStarted s; isSpeaking := isSpeaking s;
     synthIsSupported := synthIsSupported s; utterance := utterance s;
     clock := clock s; nextTimerId := nextTimerId s; timers := timers s;
     pending := pending s; sent := sent s; deps := deps s |}.

Definition set_silenceTimerRef (v : option nat) (s : State) : State :=
  {| status := status s; currentTranscript := currentTranscript s;
     lastResponse := lastResponse s; hasStarted := hasStarted s;
     needsPermission := needsPermission s; silenceTimerRef := v;
     processingRef := processingRef s;
     lastTranscriptRef := lastTranscriptRef s; isListening := isListening s;
     transcript := transcript s; interimTranscript := interimTranscript s;
     recError := recError s; recIsSupported := recIsSupported s;
     recStarted := recStarted s; isSpeaking := isSpeaking s;
     synthIsSupported := synthIsSupported s; utterance := utterance s;
     clock := clock s; nextTimerId := nextTimerId s; timers := timers s;
     pending := pending s; sent := sent s; deps := deps s |}.

Definition set_processingRef (v : bool) (s : State) : State :=
  {| status := status s; currentTranscript := currentTranscript s;
     lastResponse := lastResponse s; hasStarted := hasStarted s;
     needsPermission := needsPermission s;
     silenceTimerRef := silenceTimerRef s; processingRef := v;
     lastTranscriptRef := lastTranscriptRef s; isListening := isListening s;
     transcript := transcript s; interimTranscript := interimTranscript s;
     recError := recError s; recIsSupported := recIsSupported s;
     recStarted := recStarted s; isSpeaking := isSpeaking s;
     synthIsSupported := synthIsSupported s; utterance := utterance s;
     clock := clock s; nextTimerId := nextTimerId s; timers := timers s;
     pending := pending s; sent := sent s; deps := deps s |}.

Definition set_lastTranscriptRef (v : string) (s : State) : State :=
  {| status := status s; currentTranscript := currentTranscript s;
     lastResponse := lastResponse s; hasStarted := hasStarted s;
     needsPermission := needsPermission s;
     silenceTimerRef := silenceTimerRef s; processingRef := processingRef s;
     lastTranscriptRef := v; isListening := isListening s;
     transcript := transcript s; interimTranscript := interimTranscript s;
     recError := recError s; recIsSupported := recIsSupported s;
     recStarted := recStarted s; isSpeaking := isSpeaking s;
     synthIsSupported := synthIsSupported s; utterance := utterance s;
     clock := clock s; nextTimerId := nextTimerId s; timers := timers s;
     pending := pending s; sent := sent s; deps := deps s |}.

Definition set_isListening (v : bool) (s : State) : State :=
  {| status := status s; currentTranscript := currentTranscript s;
     lastResponse := lastResponse s; hasStarted := hasStarted s;
     needsPermission := needsPermission s;
     silenceTimerRef := silenceTimerRef s; processingRef := processingRef s;
     lastTranscriptRef := lastTranscriptRef s; isListening := v;
     transcript := transcript s; interimTranscript := interimTranscript s;
     recError := recError s; recIsSupported := recIsSupported s;
     recStarted := recStarted s; isSpeaking := isSpeaking s;
     synthIsSupported := synthIsSupported s; utterance := utterance s;
     clock := clock s; nextTimerId := nextTimerId s; timers := timers s;
     pending := pending s; sent := sent s; deps := deps s |}.

Definition set_transcript (v : string) (s : State) : State :=
  {| status := status s; currentTranscript := currentTranscript s;
     lastResponse := lastResponse s; hasStarted := hasStarted s;
     needsPermission := needsPermission s;
     silenceTimerRef := silenceTimerRef s; processingRef := processingRef s;
     lastTranscriptRef := lastTranscriptRef s; isListening := isListening s;
     transcript := v; interimTranscript := interimTranscript s;
     recError := recError s; recIsSupported := recIsSupported s;
     recStarted := recStarted s; isSpeaking := isSpeaking s;
     synthIsSupported := synthIsSupported s; utterance := utterance s;
     clock := clock s; nextTimerId := nextTimerId s; timers := timers s;
     pending := pending s; sent := sent s; deps := deps s |}.

Definition set_interimTranscript (v : string) (s : State) : State :=
  {| status := status s; currentTranscript := currentTranscript s;
     lastResponse := lastResponse s; hasStarted := hasStarted s;
     needsPermission := needsPermission s;
     silenceTimerRef := silenceTimerRef s; processingRef := processingRef s;
     lastTranscriptRef := lastTranscriptRef s; isListening := isListening s;
     transcript := transcript s; interimTranscript := v;
     recError := recError s; recIsSupported := recIsSupported s;
     recStarted := recStarted s; isSpeaking := isSpeaking s;
     synthIsSupported := synthIsSupported s; utterance := utterance s;
     clock := clock s; nextTimerId := nextTimerId s; timers := timers s;
     pending := pending s; sent := sent s; deps := deps s |}.

Definition set_recError (v : option string) (s : State) : State :=
  {| status := status s; currentTranscript := currentTranscript s;
     lastResponse := lastResponse s; hasStarted := hasStarted s;
     needsPermission := needsPermission s;
     silenceTimerRef := silenceTimerRef s; processingRef := processingRef s;
     lastTranscriptRef := lastTranscriptRef s; isListening := isListening s;
     transcript := transcript s; interimTranscript := interimTranscript s;
     recError := v; recIsSupported := recIsSupported s;
     recStarted := recStarted s; isSpeaking := isSpeaking s;
     synthIsSupported := synthIsSupported s; utterance := utterance s;
     clock := clock s; nextTimerId := nextTimerId s; timers := timers s;
     pending := pending s; sent := sent s; deps := deps s |}.

Definition set_recStarted (v : bool) (s : State) : State :=
  {| status := status s; currentTranscript := currentTranscript s;
     lastResponse := lastResponse s; hasStarted := hasStarted s;
     needsPermission := needsPermission s;
     silenceTimerRef := silenceTimerRef s; processingRef := processingRef s;
     lastTranscriptRef := lastTranscriptRef s; isListening := isListening s;
     transcript := transcript s; interimTranscript := interimTranscript s;
     recError := recError s; recIsSupported := recIsSupported s;
     recStarted := v; isSpeaking := isSpeaking s;
     synthIsSupported := synthIsSupported s; utterance := utterance s;
     clock := clock s; nextTimerId := nextTimerId s; timers := timers s;
     pending := pending s; sent := sent s; deps := deps s |}.

Definition set_isSpeaking (v : bool) (s : State) : State :=
  {| status := status s; currentTranscript := currentTranscript s;
     lastResponse := lastResponse s; hasStarted := hasStarted s;
     needsPermission := needsPermission s;
     silenceTimerRef := silenceTimerRef s; processingRef := processingRef s;
     lastTranscriptRef := lastTranscriptRef s; isListening := isListening s;
     transcript := transcript s; interimTranscript := interimTranscript s;
     recError := recError s; recIsSupported := recIsSupported s;
     recStarted := recStarted s; isSpeaking := v;
     synthIsSupported := synthIsSupported s; utterance := utterance s;
     clock := clock s; nextTimerId := nextTimerId s; timers := timers s;
     pending := pending s; sent := sent s; deps := deps s |}.

Definition set_utterance (v : option Utterance) (s : State) : State :=
  {| status := status s; currentTranscript := currentTranscript s;
     lastResponse := lastResponse s; hasStarted := hasStarted s;
     needsPermission := needsPermission s;
     silenceTimerRef := silenceTimerRef s; processingRef := processingRef s;
     lastTranscriptRef := lastTranscriptRef s; isListening := isListening s;
     transcript := transcript s; interimTranscript := interimTranscript s;
     recError := recError s; recIsSupported := recIsSupported s;
     recStarted := recStarted s; isSpeaking := isSpeaking s;
     synthIsSupported := synthIsSupported s; utterance := v;
     clock := clock s; nextTimerId := nextTimerId s; timers := timers s;
     pending := pending s; sent := sent s; deps := deps s |}.

Definition set_clock (v : Z) (s : State) : State :=
  {| status := status s; currentTranscript := currentTranscript s;
     lastResponse := lastResponse s; hasStarted := hasStarted s;
     needsPermission := needsPermission s;
     silenceTimerRef := silenceTimerRef s; processingRef := processingRef s;
     lastTranscriptRef := lastTranscriptRef s; isListening := isListening s;
     transcript := transcript s; interimTranscript := interimTranscript s;
     recError := recError s; recIsSupported := recIsSupported s;
     recStarted := recStarted s; isSpeaking := isSpeaking s;
     synthIsSupported := synthIsSupported s; utterance := utterance s;
     clock := v; nextTimerId := nextTimerId s; timers := timers s;
     pending := pending s; sent := sent s; deps := deps s |}.

Definition set_nextTimerId (v : nat) (s : State) : State :=
  {| status := status s; currentTranscript := currentTranscript s;
     lastResponse := lastResponse s; hasStarted := hasStarted s;
     needsPermission := needsPermission s;
     silenceTimerRef := silenceTimerRef s; processingRef := processingRef s;
     lastTranscriptRef := lastTranscriptRef s; isListening := isListening s;
     transcript := transcript s; interimTranscript := interimTranscript s;
     recError := recError s; recIsSupported := recIsSupported s;
     recStarted := recStarted s; isSpeaking := isSpeaking s;
     synthIsSupported := synthIsSupported s; utterance := utterance s;
     clock := clock s; nextTimerId := v; timers := timers s;
     pending := pending s; sent := sent s; deps := deps s |}.

Definition set_timers (v : list Timer) (s : State) : State :=
  {| status := status s; currentTranscript := currentTranscript s;
     lastResponse := lastResponse s; hasStarted := hasStarted s;
     needsPermission := needsPermission s;
     silenceTimerRef := silenceTimerRef s; processingRef := processingRef s;
     lastTranscriptRef := lastTranscriptRef s; isListening := isListening s;
     transcript := transcript s; interimTranscript := interimTranscript s;
     recError := recError s; recIsSupported := recIsSupported s;
     recStarted := recStarted s; isSpeaking := isSpeaking s;
     synthIsSupported := synthIsSupported s; utterance := utterance s;
     clock := clock s; nextTimerId := nextTimerId s; timers := v;
     pending := pending s; sent := sent s; deps := deps s |}.

Definition set_pending (v : list (nat * bool)) (s : State) : State :=
  {| status := status s; currentTranscript := currentTranscript s;
     lastResponse := lastResponse s; hasStarted := hasStarted s;
     needsPermission := needsPermission s;
     silenceTimerRef := silenceTimerRef s; processingRef := processingRef s;
     lastTranscriptRef := lastTranscriptRef s; isListening := isListening s;
     transcript := transcript s; interimTranscript := interimTranscript s;
     recError := recError s; recIsSupported := recIsSupported s;
     recStarted := recStarted s; isSpeaking := isSpeaking s;
     synthIsSupported := synthIsSupported s; utterance := utterance s;
     clock := clock s; nextTimerId := nextTimerId s; timers := timers s;
     pending := v; sent := sent s; deps := deps s |}.

Definition set_sent (v : list string) (s : State) : State :=
  {| status := status s; currentTranscript := currentTranscript s;
     lastResponse := lastResponse s; hasStarted := hasStarted s;
     needsPermission := needsPermission s;
     silenceTimerRef := silenceTimerRef s; processingRef := processingRef s;
     lastTranscriptRef := lastTranscriptRef s; isListening := isListening s;
     transcript := transcript s; interimTranscript := interimTranscript s;
     recError := recError s; recIsSupported := recIsSupported s;
     recStarted := recStarted s; isSpeaking := isSpeaking s;
     synthIsSupported := synthIsSupported s; utterance := utterance s;
     clock := clock s; nextTimerId := nextTimerId s; timers := timers s;
     pending := pending s; sent := v; deps := deps s |}.

Definition set_deps (v : Deps) (s : State) : State :=
  {| status := status s; currentTranscript := currentTranscript s;
     lastResponse := lastResponse s; hasStarted := hasStarted s;
     needsPermission := needsPermission s;
     silenceTimerRef := silenceTimerRef s; processingRef := processingRef s;
     lastTranscriptRef := lastTranscriptRef s; isListening := isListening s;
     transcript := transcript s; interimTranscript := interimTranscript s;
     recError := recError s; recIsSupported := recIsSupported s;
     recStarted := recStarted s; isSpeaking := isSpeaking s;
     synthIsSupported := synthIsSupported s; utterance := utterance s;
     clock := clock s; nextTimerId := nextTimerId s; timers := timers s;
     pending := pending s; sent := sent s; deps := v |}.


(** ** Browser services *)

Local Open Scope Z_scope.

(** [setTimeout(cb, delay)]: the new timer gets the next identifier. *)
Definition setTimeout (a : TimerAction) (delay : Z) (s : State) : State :=
  set_nextTimerId (S (nextTimerId s))
    (set_timers
       (timers s ++ [{| tid := nextTimerId s; due := clock s + delay; act := a |}])
       s).

Definition clearTimeout (id : nat) (s : State) : State :=
  set_timers (filter (fun t => negb (tid t =? id)%nat) (timers s)) s.

Definition find_timer (id : nat) (s : State) : option Timer :=
  find (fun t => (tid t =? id)%nat) (timers s).

Definition find_pending (i : nat) (s : State) : option (nat * bool) :=
  find (fun p => (fst p =? i)%nat) (pending s).

Definition remove_pending (i : nat) (s : State) : State :=
  set_pending (filter (fun p => negb (fst p =? i)%nat) (pending s)) s.

(** ** useSpeechRecognition *)

Definition startListening (s : State) : State :=
  if negb (recIsSupported s) then s
  else
    let s := set_recError None s in
    let s := set_transcript "" s in
    let s := set_interimTranscript "" s in
    let s := set_isListening true s in
    set_recStarted true s.

Definition stopListening (s : State) : State := set_isListening false s.

Definition resetTranscript (s : State) : State :=
  set_interimTranscript "" (set_transcript "" s).

(** The loop of [recognition.onresult] over the results from
    [event.resultIndex] on; a result is its transcript and its [isFinal]. *)
Fixpoint collect (results : list (string * bool)) (interimText finalText : string)
  : string * string :=
  match results with
  | [] => (interimText, finalText)
  | (t, isFinal) :: rest =>
      if isFinal then collect rest interimText (finalText ++ t ++ " ")
      else collect rest (interimText ++ t) finalText
  end.

Definition interimOf (results : list (string * bool)) : string :=
  fst (collect results "" "").

Definition finalOf (results : list (string * bool)) : string :=
  snd (collect results "" "").

Definition onresult (results : list (string * bool)) (s : State) : State :=
  let s := set_interimTranscript (interimOf results) s in
  if truthy (finalOf results)
  then set_interimTranscript "" (set_transcript (trim (finalOf results)) s)
  else s.

Definition onerror (code : string) (s : State) : State :=
  if (code =? "not-allowed")%js then
    set_isListening false
      (set_recError
         (Some "Microphone access denied. Please allow microphone access.") s)
  else if (code =? "no-speech")%js then s
  else
    set_isListening false
      (set_recError (Some ("Speech recognition error: " ++ code)) s).

(** ** useSpeechSynthesis *)

(** [speak]: nothing when synthesis is unsupported; otherwise the queue is
    cancelled and holds the new utterance. *)
Definition speak (text : string) (onEnd : OnEnd) (s : State) : State :=
  if negb (synthIsSupported s) then s
  else set_utterance
         (Some {| uText := text; uOnEnd := onEnd; uStarted := false |}) s.

(** [stop]: [window.speechSynthesis.cancel()] and [setIsSpeaking(false)].
    Synthesis is unsupported exactly when [window.speechSynthesis] is
    missing, and there the call throws a TypeError: [None]. *)
Definition stopSpeaking (s : State) : option State :=
  if synthIsSupported s
  then Some (set_isSpeaking false (set_utterance None s))
  else None.

(** ** services/api *)

(** [sendMessage] posts the message; the call stays in flight, with the
    [isSpeaking] its caller's closure holds, until the backend answers. *)
Definition sendMessage (isSpeaking_c : bool) (message : string) (s : State)
  : State :=
  set_pending (pending s ++ [(length (sent s), isSpeaking_c)])
    (set_sent (sent s ++ [message]) s).

(** ** VoiceAssistant: handlers *)

(** [handleUserMessage] up to its first [await]; [r] is the render whose
    closure the function belongs to. *)
Definition handleUserMessage (r : State) (message : string) (s : State)
  : State :=
  if negb (truthy (trim message)) || processingRef s then s
  else
    let s := set_processingRef true s in
    let s := stopListening s in
    let s := set_status Processing s in
    let s := set_currentTranscript message s in
    sendMessage (isSpeaking r) message s.

(** The backend answered: [setLastResponse], then the 200 ms wait. *)
Definition onReply (isSpeaking_c : bool) (response : string) (s : State)
  : State :=
  setTimeout (TSettle response isSpeaking_c) 200 (set_lastResponse response s).

(** The [catch] block. *)
Definition onFailure (s : State) : State :=
  let s := set_processingRef false s in
  let s := set_status Error s in
  let s := set_currentTranscript "Sorry, something went wrong" s in
  setTimeout TErrorRecover 2000 s.

(** The callback given to [speak] for a reply. *)
Definition onSpeechComplete (isSpeaking_c : bool) (s : State) : State :=
  let s := set_processingRef false s in
  let s := set_status Idle s in
  let s := set_currentTranscript "" s in
  let s := set_lastResponse "" s in
  setTimeout (TResume isSpeaking_c) 800 s.

Definition handleInterrupt (s : State) : State :=
  if isSpeaking s then
    match stopSpeaking s with
    | None => s
    | Some s =>
        let s := set_processingRef false s in
        let s := set_status Listening s in
        let s := set_currentTranscript "" s in
        let s := set_lastResponse "" s in
        setTimeout TInterruptResume 300 s
    end
  else s.

Definition handleCancel (s : State) : State :=
  let s := stopListening s in
  match stopSpeaking s with
  | None => s
  | Some s =>
      let s := set_processingRef false s in
      let s := set_status Idle s in
      let s := set_currentTranscript "" s in
      let s := set_lastResponse "" s in
      setTimeout TCancelResume 500 s
  end.

Definition greeting : string := "Hello! How can I help you?".

Definition handleStart (s : State) : State :=
  let s := set_needsPermission false s in
  let s := set_status Listening s in
  let s := set_hasStarted true s in
  speak greeting OnGreeting s.

Definition runOnEnd (cb : OnEnd) (s : State) : State :=
  match cb with
  | OnGreeting => startListening s
  | OnReply c => onSpeechComplete c s
  end.

Definition runTimer (a : TimerAction) (s : State) : State :=
  match a with
  | TSilence isListening_c interim_c =>
      if isListening_c && truthy interim_c && negb (processingRef s)
      then stopListening s else s
  | TSettle response c =>
      speak response (OnReply c) (set_status Speaking s)
  | TResume c =>
      if negb c then startListening (set_status Listening s) else s
  | TErrorRecover =>
      startListening (set_currentTranscript "" (set_status Listening s))
  | TInterruptResume => startListening s
  | TCancelResume => startListening (set_status Listening s)
  end.

Definition getStatusText (s : State) : string :=
  if needsPermission s then "Ready to start"
  else match status s with
       | Error => "Oops! Something went wrong"
       | Listening =>
           if truthy (currentTranscript s) then currentTranscript s
           else "I'm listening..."
       | Processing => "Thinking..."
       | Speaking => lastResponse s
       | Idle => "Say something..."
       end.

(** ** VoiceAssistant: effects *)

Definition wordCount (text : string) : nat := length (split_space text).

Definition silenceDelay (text : string) : Z :=
  if (5 <? wordCount text)%nat then 1200 else 1500.

(** In an effect the state variables are those of the render [r]; the refs
    and everything the effect writes are read from the running state [s]. *)
Definition silenceEffect (r s : State) : State :=
  if truthy (interimTranscript r) && isListening r && negb (processingRef s)
  then
    let s := set_currentTranscript (interimTranscript r) s in
    let s := match silenceTimerRef s with
             | Some (S _ as id) => clearTimeout id s
             | _ => s
             end in
    let id := nextTimerId s in
    let s := setTimeout (TSilence (isListening r) (interimTranscript r))
               (silenceDelay (interimTranscript r)) s in
    set_silenceTimerRef (Some id) s
  else s.

Definition finalEffect (r s : State) : State :=
  if truthy (transcript r) && negb (isListening r) && hasStarted r
     && negb (processingRef s)
  then
    if negb (transcript r =? lastTranscriptRef s)%js
       && (0 <? strlen (trim (transcript r)))%nat
    then
      let s := set_lastTranscriptRef (transcript r) s in
      let s := handleUserMessage r (transcript r) s in
      resetTranscript s
    else s
  else s.

Definition statusEffect (r s : State) : State :=
  if processingRef s then s
  else if isSpeaking r then
    let s := set_status Speaking s in
    if isListening r then stopListening s else s
  else if isListening r then set_status Listening s
  else s.

(** ** React: commits *)

Definition depsOf (s : State) : Deps :=
  {| dInterim := interimTranscript s; dTranscript := transcript s;
     dIsListening := isListening s; dHasStarted := hasStarted s;
     dIsSpeaking := isSpeaking s |}.

Definition silenceDepsSame (s : State) : bool :=
  (dInterim (deps s) =? interimTranscript s)%js.

Definition finalDepsSame (s : State) : bool :=
  (dTranscript (deps s) =? transcript s)%js
  && Bool.eqb (dIsListening (deps s)) (isListening s)
  && Bool.eqb (dHasStarted (deps s)) (hasStarted s).

Definition statusDepsSame (s : State) : bool :=
  Bool.eqb (dIsListening (deps s)) (isListening s)
  && Bool.eqb (dIsSpeaking (deps s)) (isSpeaking s).

(** One commit: the effects whose dependencies changed run in the order
    they are declared, all on the state variables of this render [x]. *)
Definition afterSilence (x : State) : State :=
  if silenceDepsSame x then x else silenceEffect x x.

Definition afterFinal (x : State) : State :=
  if finalDepsSame x then afterSilence x else finalEffect x (afterSilence x).

Definition afterStatus (x : State) : State :=
  if statusDepsSame x then afterFinal x else statusEffect x (afterFinal x).

Definition render (x : State) : State := set_deps (depsOf x) (afterStatus x).

Definition dirty (s : State) : bool :=
  negb (silenceDepsSame s && finalDepsSame s && statusDepsSame s).

(** A state is settled when no effect is waiting to run. *)
Definition settled (s : State) : Prop := dirty s = false.

Fixpoint flush (fuel : nat) (s : State) : State :=
  match fuel with
  | O => s
  | S n => if dirty s then flush n (render s) else s
  end.

(** ** Events *)

Inductive Event : Type :=
| EvClickStart                               (* the start button *)
| EvClickCancel                              (* the cancel button *)
| EvClickContainer                           (* a tap anywhere else *)
| EvResult (results : list (string * bool))  (* recognition.onresult *)
| EvRecError (code : string)                 (* recognition.onerror *)
| EvUttStart                                 (* utterance.onstart *)
| EvUttEnd                                   (* utterance.onend *)
| EvUttError                                 (* utterance.onerror *)
| EvReply (call : nat) (response : string)   (* sendMessage resolves *)
| EvFail (call : nat)                        (* sendMessage rejects *)
| EvTimer (id : nat)                         (* a timer fires *)
| EvAdvance (dt : Z).                        (* time passes *)

(** What the event's handler does.  The buttons exist only when the JSX
    renders them; the recogniser reports only once it has been started;
    a timer fires only when it is due. *)
Definition handle (e : Event) (s : State) : State :=
  match e with
  | EvClickStart => if needsPermission s then handleStart s else s
  | EvClickCancel =>
      if negb (needsPermission s) && negb (isSpeaking s)
      then handleCancel s else s
  | EvClickContainer => handleInterrupt s
  | EvResult results => if recStarted s then onresult results s else s
  | EvRecError code => if recStarted s then onerror code s else s
  | EvUttStart =>
      match utterance s with
      | Some u =>
          if uStarted u then s
          else set_isSpeaking true
                 (set_utterance
                    (Some {| uText := uText u; uOnEnd := uOnEnd u;
                             uStarted := true |}) s)
      | None => s
      end
  | EvUttEnd =>
      match utterance s with
      | Some u =>
          if uStarted u
          then runOnEnd (uOnEnd u) (set_isSpeaking false (set_utterance None s))
          else s
      | None => s
      end
  | EvUttError =>
      match utterance s with
      | Some _ => set_isSpeaking false (set_utterance None s)
      | None => s
      end
  | EvReply i response =>
      match find_pending i s with
      | Some (_, c) => onReply c response (remove_pending i s)
      | None => s
      end
  | EvFail i =>
      match find_pending i s with
      | Some _ => onFailure (remove_pending i s)
      | None => s
      end
  | EvTimer id =>
      match find_timer id s with
      | Some t =>
          if due t <=? clock s then runTimer (act t) (clearTimeout id s) else s
      | None => s
      end
  | EvAdvance dt => if 0 <=? dt then set_clock (clock s + dt) s else s
  end.

(** Three commits settle every state (see [flush_settled]). *)
Definition commits : nat := 3.

Definition step (s : State) (e : Event) : State := flush commits (handle e s).

Definition run (s : State) (es : list Event) : State := fold_left step es s.

(** The component after mounting, in a browser where recognition and
    synthesis are supported or not. *)
Definition init (recSupported synthSupported : bool) : State :=
  {| status := Idle; currentTranscript := ""; lastResponse := "";
     hasStarted := false; needsPermission := true;
     silenceTimerRef := None; processingRef := false;
     lastTranscriptRef := "";
     isListening := false; transcript := ""; interimTranscript := "";
     recError :=
       if recSupported then None
       else Some "Speech recognition is not supported in this browser. Please use Chrome or Edge.";
     recIsSupported := recSupported; recStarted := false;
     isSpeaking := false; synthIsSupported := synthSupported;
     utterance := None;
     clock := 0; nextTimerId := 1; timers := [];
     pending := []; sent := [];
     deps := {| dInterim := ""; dTranscript := ""; dIsListening := false;
                dHasStarted := false; dIsSpeaking := false |} |}.

Definition reachable (s : State) : Prop :=
  exists rs ss es, s = run (init rs ss) es.

(** * Vocabulary of the properties *)

(** ** Commits *)

(** The guards of the final-transcript effect. *)
Definition finalGuard (r s : State) : bool :=
  (truthy (transcript r) && negb (isListening r) && hasStarted r
   && negb (processingRef s))
  && (negb (transcript r =? lastTranscriptRef s)%js
      && (0 <? strlen (trim (transcript r)))%nat).

(** The final-transcript effect runs and passes its guards. *)
Definition willDispatch (x : State) : bool :=
  negb (finalDepsSame x)
  && (truthy (transcript x) && negb (isListening x) && hasStarted x
      && negb (processingRef x))
  && (negb (transcript x =? lastTranscriptRef x)%js
      && (0 <? strlen (trim (transcript x)))%nat).

(** The silence effect runs and arms a pause timer. *)
Definition willArm (x : State) : bool :=
  negb (silenceDepsSame x)
  && (truthy (interimTranscript x) && isListening x && negb (processingRef x)).

(** The two states agree on what no effect writes. *)
Definition sameBrowser (a b : State) : Prop :=
  isSpeaking a = isSpeaking b /\ hasStarted a = hasStarted b /\
  needsPermission a = needsPermission b /\ utterance a = utterance b /\
  clock a = clock b /\ recIsSupported a = recIsSupported b /\
  recStarted a = recStarted b /\ synthIsSupported a = synthIsSupported b /\
  lastResponse a = lastResponse b /\ recError a = recError b.

(** ** Invariants *)

(** No two neighbours of the list are equal. *)
Fixpoint distinctAdjacent (l : list string) : bool :=
  match l with
  | a :: (b :: _) as t => negb (a =? b)%js && distinctAdjacent t
  | _ => true
  end.

(** The invariant behind the duplicate guard: the last-dispatched record is
    the last message posted, no message follows an equal one, and no posted
    message is empty. *)
Definition dedupInv (s : State) : Prop :=
  lastTranscriptRef s = last (sent s) ""%js /\
  distinctAdjacent (sent s) = true /\
  Forall (fun m => m <> ""%js) (sent s).

(** The held transcript cannot pass the duplicate guard. *)
Definition blocked (x : State) : Prop :=
  transcript x = lastTranscriptRef x \/ transcript x = ""%js.

(** The pause timers are those set by the silence effect. *)
Definition isSilence (a : TimerAction) : bool :=
  match a with TSilence _ _ => true | _ => false end.

(** The timers [l], the next identifier [n] and the timer ref [r] agree:
    identifiers are positive and below [n], and a pending timer is a pause
    timer exactly when the ref names it. *)
Definition timersOk (l : list Timer) (n : nat) (r : option nat) : Prop :=
  (1 <= n)%nat /\
  (forall id, r = Some id -> (id < n)%nat) /\
  Forall (fun t => (1 <= tid t < n)%nat /\
                   (isSilence (act t) = true <-> r = Some (tid t))) l.

Definition timerInv (s : State) : Prop :=
  timersOk (timers s) (nextTimerId s) (silenceTimerRef s).

(** The recogniser listens only after it has been started, and the
    synthesiser speaks or holds an utterance only where it is supported. *)
Definition adapterInv (s : State) : Prop :=
  (isListening s = true -> recStarted s = true) /\
  (isSpeaking s = true -> synthIsSupported s = true) /\
  (utterance s <> None -> synthIsSupported s = true).

(** Where synthesis is unsupported nothing is ever queued, timed, posted or
    heard. *)
Definition muteInv (s : State) : Prop :=
  synthIsSupported s = false /\ isListening s = false /\
  utterance s = None /\ isSpeaking s = false /\ recStarted s = false /\
  timers s = [] /\ pending s = [] /\ transcript s = ""%js.

(** The events whose handlers write [false] to the flag: the end of an
    utterance (the reply's completion callback), a backend failure, the
    interrupt and the cancel. *)
Definition clearsFlag (e : Event) : bool :=
  match e with
  | EvUttEnd | EvFail _ | EvClickContainer | EvClickCancel => true
  | _ => false
  end.

(** What the status effect establishes: with the output adapter active the
    state is Speaking and the input adapter is stopped; with only the input
    adapter active the state is Listening. *)
Definition channelOk (y : State) : Prop :=
  (isSpeaking y = true -> status y = Speaking /\ isListening y = false) /\
  (isSpeaking y = false -> isListening y = true -> status y = Listening).


(** ** Scenarios *)

(** The session is started, the greeting is spoken to its end and the
    recogniser listens. *)
Definition toListening : list Event :=
  [EvClickStart; EvAdvance 50; EvUttStart; EvAdvance 1500; EvUttEnd].

(** The user says "what time is it": an interim result arms the pause
    timer, the recogniser then finalises the text while still listening. *)
Definition heardFinal : list Event :=
  (toListening ++
   [EvAdvance 1000; EvResult [("what time is it"%js, false)];
    EvAdvance 600; EvResult [("what time is it"%js, true)]])%list.

(** The pause timer fires, listening stops and the turn is dispatched. *)
Definition dispatched : list Event :=
  (heardFinal ++ [EvAdvance 900; EvTimer 1])%list.

(** The backend answers, and after the settle delay the reply is handed to
    the synthesiser. *)
Definition replyQueued : list Event :=
  (dispatched ++
   [EvAdvance 400; EvReply 0 "it's three o'clock"; EvAdvance 200;
    EvTimer 2])%list.

(** The synthesiser is voicing the reply. *)
Definition replySpeaking : list Event :=
  (replyQueued ++ [EvAdvance 30; EvUttStart])%list.

(** The user cancels the first turn while the backend is working, then
    says "never mind", which is dispatched as a second turn. *)
Definition overlapped : list Event :=
  (dispatched ++
   [EvAdvance 300; EvClickCancel; EvAdvance 500; EvTimer 2;
    EvAdvance 800; EvResult [("never mind"%js, false)];
    EvAdvance 400; EvResult [("never mind"%js, true)];
    EvAdvance 1100; EvTimer 3; EvAdvance 100])%list.

(** * The rest of the interface *)

(** ** VoiceAssistant: the hint line *)

Definition getHintText (s : State) : string :=
  if needsPermission s then "Click below to begin"
  else if isSpeaking s then "Tap anywhere to interrupt"
  else if isListening s && truthy (currentTranscript s)
       then "Keep talking or pause..."
  else "Speak naturally".

(** ** useSpeechSynthesis: the voices *)

Record Voice : Type := {
  voiceName : string;
  voiceLang : string
}.

(** [loadVoices]: the voices offered by the browser and the one selected,
    the first whose language starts with "en-", else the first of all
    ([availableVoices[0]], undefined for an empty list). *)
Definition loadVoices (availableVoices : list Voice)
  : list Voice * option Voice :=
  let englishVoice :=
    find (fun voice => prefix "en-" (voiceLang voice)) availableVoices in
  (availableVoices,
   match englishVoice with
   | Some v => Some v
   | None => hd_error availableVoices
   end).

(** ** StatusIndicator and CircularWaveform: the colours *)

Record StatusInfo : Type := {
  infoText : string;
  infoColor : string;
  infoIcon : string
}.

(** The icons of [getStatusInfo], by their code units: the microphone
    U+1F3A4, the ear U+1F442, the thinking face U+1F914, the loudspeaker
    U+1F50A (each a surrogate pair) and the warning sign U+26A0 followed by
    the variation selector U+FE0F. *)
Definition iconMicrophone : string := String 0xD83C (String 0xDFA4 "").
Definition iconEar : string := String 0xD83D (String 0xDC42 "").
Definition iconThinking : string := String 0xD83E (String 0xDD14 "").
Definition iconSpeaker : string := String 0xD83D (String 0xDD0A "").
Definition iconWarning : string := String 0x26A0 (String 0xFE0F "").

(** [getStatusInfo], a [switch] on the status string with a default. *)
Definition getStatusInfo (status : string) : StatusInfo :=
  if (status =? "idle")%js then
    {| infoText := "Ready to listen"; infoColor := "#6b7280";
       infoIcon := iconMicrophone |}
  else if (status =? "listening")%js then
    {| infoText := "Listening..."; infoColor := "#3b82f6";
       infoIcon := iconEar |}
  else if (status =? "processing")%js then
    {| infoText := "Thinking..."; infoColor := "#8b5cf6";
       infoIcon := iconThinking |}
  else if (status =? "speaking")%js then
    {| infoText := "Speaking..."; infoColor := "#10b981";
       infoIcon := iconSpeaker |}
  else if (status =? "error")%js then
    {| infoText := "Error occurred"; infoColor := "#ef4444";
       infoIcon := iconWarning |}
  else
    {| infoText := "Ready"; infoColor := "#6b7280"; infoIcon := iconMicrophone |}.

(** The [color] of [CircularWaveform.animate]. *)
Definition waveformColor (status : string) : string :=
  if (status =? "listening")%js then "59, 130, 246"
  else if (status =? "processing")%js then "139, 92, 246"
  else if (status =? "speaking")%js then "16, 185, 129"
  else if (status =? "error")%js then "239, 68, 68"
  else "107, 114, 128".

(** The string a [Status] stands for. *)
Definition statusName (st : Status) : string :=
  match st with
  | Idle => "idle"
  | Listening => "listening"
  | Processing => "processing"
  | Speaking => "speaking"
  | Error => "error"
  end.

(** Reading a colour: ["#rrggbb"] and ["r, g, b"] as three numbers. *)
Definition hexDigit (c : char) : option nat :=
  let n := N.to_nat c in
  if ((48 <=? n) && (n <=? 57))%nat then Some (n - 48)%nat
  else if ((97 <=? n) && (n <=? 102))%nat then Some (n - 87)%nat
  else if ((65 <=? n) && (n <=? 70))%nat then Some (n - 55)%nat
  else None.

Definition hexByte (a b : char) : option nat :=
  match hexDigit a, hexDigit b with
  | Some x, Some y => Some (16 * x + y)%nat
  | _, _ => None
  end.

Definition parseHexColor (s : string) : option (nat * nat * nat) :=
  match s with
  | String 35 (String r1 (String r2 (String g1 (String g2
      (String b1 (String b2 EmptyString)))))) =>
      match hexByte r1 r2, hexByte g1 g2, hexByte b1 b2 with
      | Some r, Some g, Some b => Some (r, g, b)
      | _, _, _ => None
      end
  | _ => None
  end.

(** The decimal numbers of a string, in order. *)
Fixpoint numbersOf (s : string) (cur : option nat) : list nat :=
  match s with
  | EmptyString => match cur with Some n => [n] | None => [] end
  | String c r =>
      let d := N.to_nat c in
      if ((48 <=? d) && (d <=? 57))%nat then
        numbersOf r (Some (10 * match cur with Some n => n | None => 0 end
                           + (d - 48)))%nat
      else match cur with
           | Some n => n :: numbersOf r None
           | None => numbersOf r None
           end
  end.

Definition parseRgbList (s : string) : option (nat * nat * nat) :=
  match numbersOf s None with
  | [r; g; b] => Some (r, g, b)
  | _ => None
  end.

(** ** Vocabulary of the further properties *)

(** Appending all the strings of a list. *)
Definition joinAll (l : list string) : string :=
  fold_right append EmptyString l.

(** The number of space characters of a string. *)
Fixpoint spaces (s : string) : nat :=
  match s with
  | EmptyString => 0
  | String c r => if (c =? space)%N then S (spaces r) else spaces r
  end.

(** The held transcript and every posted message are trimmed, and the
    posted messages are not empty. *)
Definition trimInv (s : State) : Prop :=
  trim (transcript s) = transcript s /\
  Forall (fun m => trim m = m /\ m <> ""%js) (sent s).

(** Before the session is started nothing has happened. *)
Definition startInv (s : State) : Prop :=
  needsPermission s = negb (hasStarted s) /\
  (needsPermission s = true ->
   status s = Idle /\ isListening s = false /\ isSpeaking s = false /\
   processingRef s = false /\ utterance s = None /\ timers s = [] /\
   pending s = [] /\ sent s = [] /\ recStarted s = false /\
   transcript s = ""%js /\ interimTranscript s = ""%js /\
   currentTranscript s = ""%js /\ lastResponse s = ""%js).

(** Where recognition is unsupported nothing is ever heard or posted and
    the error of the hook stays. *)
Definition deafInv (s : State) : Prop :=
  recIsSupported s = false /\ isListening s = false /\
  recStarted s = false /\ transcript s = ""%js /\
  interimTranscript s = ""%js /\ pending s = [] /\ sent s = [] /\
  recError s =
  Some "Speech recognition is not supported in this browser. Please use Chrome or Edge."%js.

(** The first, and the last, character of a string is white space. *)
Definition headWs (s : string) : bool :=
  match s with
  | EmptyString => false
  | String c _ => is_ws c
  end.

Fixpoint lastWs (s : string) : bool :=
  match s with
  | EmptyString => false
  | String c EmptyString => is_ws c
  | String _ r => lastWs r
  end.

(** The identifiers of the timers [l] are pairwise distinct and below the
    next identifier [n]. *)
Definition timerIdsOk (l : list Timer) (n : nat) : Prop :=
  NoDup (map tid l) /\ Forall (fun t => (tid t < n)%nat) l.

(** A pause timer was armed while listening, on a non-empty text. *)
Definition armedWhileListening (t : Timer) : Prop :=
  match act t with
  | TSilence b text => b = true /\ text <> ""%js
  | _ => True
  end.

Definition pauseInv (s : State) : Prop :=
  timerIdsOk (timers s) (nextTimerId s) /\
  Forall armedWhileListening (timers s).

(** The events that can end a turn in flight. *)
Definition nonClearing (es : list Event) : Prop :=
  Forall (fun e => clearsFlag e = false) es.

(** The final texts the recogniser reported in a sequence of events, as
    [onresult] stores them. *)
Definition heard (es : list Event) : list string :=
  flat_map (fun e => match e with
                     | EvResult results =>
                         if truthy (finalOf results)
                         then [trim (finalOf results)] else []
                     | _ => []
                     end) es.

(** One when a final transcript is held, else zero. *)
Definition heldCount (s : State) : nat :=
  if truthy (transcript s) then 1%nat else 0%nat.

(** The held transcript and every posted message are among the texts
    [hs], and there are no more of them than texts. *)
Definition sourceInv (hs : list string) (s : State) : Prop :=
  (transcript s = ""%js \/ In (transcript s) hs) /\
  incl (sent s) hs /\
  (length (sent s) + heldCount s <= length hs)%nat.

(** * Proof automation *)

Ltac break_if :=
  match goal with
  | |- context [if ?c then _ else _] => destruct c eqn:?
  end.

Ltac break_ref :=
  match goal with
  | |- context [match ?c with Some _ => _ | None => _ end] =>
      destruct c as [[|?]|] eqn:?
  end.

Ltac effect_cases :=
  unfold silenceEffect, finalEffect, statusEffect, handleUserMessage,
    sendMessage, resetTranscript, stopListening, setTimeout, clearTimeout;
  repeat (first [break_if | break_ref]); cbn.

Ltac handler_cases :=
  unfold handle, handleStart, handleCancel, handleInterrupt, onresult,
    onerror, runOnEnd, runTimer, onReply, onFailure, onSpeechComplete,
    speak, stopSpeaking, startListening, stopListening, setTimeout,
    clearTimeout, remove_pending;
  repeat match goal with
         | |- context [if ?c then _ else _] => destruct c eqn:?
         | |- context [match ?c with _ => _ end] => destruct c eqn:?
         end;
  cbn.


(** * Properties *)

(** ** Strings *)

Section StringFacts.

Lemma string_eqb_refl (a : string) : (a =? a)%js = true.
Proof.
  induction a as [|c r IH]; [reflexivity|].
  cbn [eqb]. now rewrite N.eqb_refl, IH.
Qed.

Lemma string_eqb_eq (a b : string) : (a =? b)%js = true <-> a = b.
Proof.
  split; [|intros ->; apply string_eqb_refl].
  revert b. induction a as [|c r IH]; intros [|d q]; cbn [eqb];
    try discriminate; [reflexivity|].
  intros H. apply andb_prop in H as [Hc Hr].
  apply N.eqb_eq in Hc. apply IH in Hr. congruence.
Qed.

Lemma string_eqb_neq (a b : string) : (a =? b)%js = false <-> a <> b.
Proof.
  rewrite <- string_eqb_eq. destruct (a =? b)%js; split; congruence.
Qed.

Lemma truthy_true (s : string) : truthy s = true <-> s <> ""%js.
Proof.
  unfold truthy. rewrite negb_true_iff. split.
  - intros H E. apply string_eqb_eq in E. congruence.
  - intros H. apply string_eqb_neq. exact H.
Qed.

Lemma truthy_false (s : string) : truthy s = false <-> s = ""%js.
Proof.
  unfold truthy. rewrite negb_false_iff. apply string_eqb_eq.
Qed.

Lemma length_pos_truthy (s : string) :
  (0 <? strlen s)%nat = truthy s.
Proof. destruct s; reflexivity. Qed.

Lemma trimStart_shape (s : string) :
  trimStart s = ""%js \/
  exists c r, trimStart s = String c r /\ is_ws c = false.
Proof.
  induction s as [|c r IH]; simpl.
  - now left.
  - destruct (is_ws c) eqn:E; [exact IH|].
    right. exists c, r. split; [reflexivity | exact E].
Qed.

Lemma trimEnd_keep (c : char) (r : string) :
  is_ws c = false -> trimEnd (String c r) = String c (trimEnd r).
Proof.
  intros E. simpl. rewrite E. now destruct (trimEnd r).
Qed.

Lemma trimEnd_idem (s : string) : trimEnd (trimEnd s) = trimEnd s.
Proof.
  induction s as [|c r IH]; [reflexivity|].
  cbn [trimEnd]. destruct (trimEnd r) as [|c' r'] eqn:E.
  - destruct (is_ws c) eqn:W; [reflexivity|].
    simpl. now rewrite W.
  - change (trimEnd (String c (String c' r'))) with
      (match trimEnd (String c' r') with
       | EmptyString => if is_ws c then EmptyString else String c EmptyString
       | String a b => String c (String a b)
       end).
    now rewrite IH.
Qed.

(** [trim] removes white space outside ASCII as well: no-break spaces
    (U+00A0) around a word, a line separator (U+2028) and a byte order mark
    (U+FEFF), but not the zero width space (U+200B), which is no white
    space of ECMAScript. *)
Lemma trim_unicode :
  trim (String 0xA0 ("hello" ++ String 0xA0 "")) = "hello"%js /\
  trim (String 0x2028 (String 0xFEFF (" a b" ++ String 0x3000 ""))) = "a b"%js /\
  trim (String 0xA0 " ") = ""%js /\
  trim (String 0x200B "a") = String 0x200B "a".
Proof. vm_compute. repeat split. Qed.

(** [trim] is idempotent: a trimmed transcript trims to itself. *)
Lemma trim_idem (s : string) : trim (trim s) = trim s.
Proof.
  unfold trim. destruct (trimStart_shape s) as [E | (c & r & E & W)];
    rewrite E.
  - reflexivity.
  - rewrite (trimEnd_keep c r W). cbn [trimStart]. rewrite W.
    rewrite (trimEnd_keep c _ W). now rewrite trimEnd_idem.
Qed.

Lemma split_space_nonempty (s : string) : split_space s <> [].
Proof.
  induction s as [|c r IH]; simpl; [discriminate|].
  destruct (c =? space)%N; [discriminate|].
  destruct (split_space r); discriminate.
Qed.

Lemma wordCount_cons (c : char) (r : string) :
  wordCount (String c r) =
  if (c =? space)%N then S (wordCount r) else wordCount r.
Proof.
  unfold wordCount. simpl. destruct (c =? space)%N; [reflexivity|].
  destruct (split_space r) eqn:E; [|reflexivity].
  now destruct (split_space_nonempty r).
Qed.

Lemma wordCount_word (w : string) : has_space w = false -> wordCount w = 1%nat.
Proof.
  induction w as [|c r IH]; [reflexivity|].
  simpl. intros H. apply orb_false_iff in H as [Hc Hr].
  rewrite wordCount_cons, Hc. now apply IH.
Qed.

Lemma wordCount_word_space (w rest : string) :
  has_space w = false ->
  wordCount (w ++ " " ++ rest) = S (wordCount rest).
Proof.
  induction w as [|c r IH]; simpl.
  - intros _. now rewrite wordCount_cons.
  - intros H. apply orb_false_iff in H as [Hc Hr].
    rewrite wordCount_cons, Hc. now apply IH.
Qed.

(** Words without spaces joined by single spaces are counted exactly. *)
Lemma wordCount_join (ws : list string) :
  ws <> [] ->
  Forall (fun w => has_space w = false) ws ->
  wordCount (join_space ws) = length ws.
Proof.
  induction ws as [|w rest IH]; [congruence|].
  intros _ H. inversion H as [|? ? Hw Hrest]; subst.
  destruct rest as [|w' rest'].
  - simpl. now apply wordCount_word.
  - change (join_space (w :: w' :: rest'))
      with (w ++ " " ++ join_space (w' :: rest'))%js.
    rewrite (wordCount_word_space _ _ Hw).
    rewrite IH; [reflexivity | discriminate | exact Hrest].
Qed.

End StringFacts.

(** ** Effects and commits *)

Section Effects.

Variables r s : State.

(** The silence effect writes the shown transcript, the timers and the
    timer ref, nothing else. *)
Lemma silenceEffect_frame :
  let s' := silenceEffect r s in
  status s' = status s /\ isListening s' = isListening s /\
  transcript s' = transcript s /\
  interimTranscript s' = interimTranscript s /\
  processingRef s' = processingRef s /\
  lastTranscriptRef s' = lastTranscriptRef s /\
  pending s' = pending s /\ sent s' = sent s /\ deps s' = deps s.
Proof. effect_cases; repeat split; congruence. Qed.

(** The status effect writes [status] and [isListening], nothing else. *)
Lemma statusEffect_frame :
  let s' := statusEffect r s in
  currentTranscript s' = currentTranscript s /\
  transcript s' = transcript s /\
  interimTranscript s' = interimTranscript s /\
  processingRef s' = processingRef s /\
  lastTranscriptRef s' = lastTranscriptRef s /\
  silenceTimerRef s' = silenceTimerRef s /\
  nextTimerId s' = nextTimerId s /\ timers s' = timers s /\
  pending s' = pending s /\ sent s' = sent s /\ deps s' = deps s.
Proof. effect_cases; repeat split; congruence. Qed.

(** The final-transcript effect leaves the timers alone. *)
Lemma finalEffect_frame :
  let s' := finalEffect r s in
  silenceTimerRef s' = silenceTimerRef s /\
  nextTimerId s' = nextTimerId s /\ timers s' = timers s /\
  deps s' = deps s.
Proof. effect_cases; repeat split; congruence. Qed.

Lemma silenceEffect_browser : sameBrowser (silenceEffect r s) s.
Proof. unfold sameBrowser. effect_cases; repeat split; congruence. Qed.

Lemma finalEffect_browser : sameBrowser (finalEffect r s) s.
Proof. unfold sameBrowser. effect_cases; repeat split; congruence. Qed.

Lemma statusEffect_browser : sameBrowser (statusEffect r s) s.
Proof. unfold sameBrowser. effect_cases; repeat split; congruence. Qed.

(** With the flag set no effect does anything. *)
Lemma effects_flag_set :
  processingRef s = true ->
  silenceEffect r s = s /\ finalEffect r s = s /\ statusEffect r s = s.
Proof.
  intros H. unfold silenceEffect, finalEffect, statusEffect.
  rewrite H. cbn. rewrite !andb_false_r. repeat split.
Qed.

End Effects.

Lemma sameBrowser_trans (a b c : State) :
  sameBrowser a b -> sameBrowser b c -> sameBrowser a c.
Proof. unfold sameBrowser. intuition congruence. Qed.

Lemma sameBrowser_refl (a : State) : sameBrowser a a.
Proof. unfold sameBrowser. intuition congruence. Qed.

Section Commit.

Variable x : State.

Lemma render_deps : deps (render x) = depsOf x.
Proof. reflexivity. Qed.

Lemma render_browser : sameBrowser (render x) x.
Proof.
  assert (H1 : sameBrowser (afterSilence x) x)
    by (unfold afterSilence; destruct (silenceDepsSame x);
        [apply sameBrowser_refl | apply silenceEffect_browser]).
  assert (H2 : sameBrowser (afterFinal x) (afterSilence x))
    by (unfold afterFinal; destruct (finalDepsSame x);
        [apply sameBrowser_refl | apply finalEffect_browser]).
  assert (H3 : sameBrowser (afterStatus x) (afterFinal x))
    by (unfold afterStatus; destruct (statusDepsSame x);
        [apply sameBrowser_refl | apply statusEffect_browser]).
  apply sameBrowser_trans with (afterStatus x);
    [unfold sameBrowser; cbn; repeat split |].
  eauto using sameBrowser_trans.
Qed.

(** With the flag set a commit only records the dependencies. *)
Lemma render_flag_set :
  processingRef x = true -> render x = set_deps (depsOf x) x.
Proof.
  intros H. unfold render, afterStatus, afterFinal, afterSilence.
  destruct (effects_flag_set x x H) as (E1 & E2 & E3).
  destruct (silenceDepsSame x); rewrite ?E1;
    destruct (finalDepsSame x); rewrite ?E2;
    destruct (statusDepsSame x); rewrite ?E3; reflexivity.
Qed.

End Commit.

Lemma finalEffect_skip (r s : State) :
  finalGuard r s = false -> finalEffect r s = s.
Proof.
  unfold finalGuard, finalEffect. intros H.
  apply andb_false_iff in H as [-> | ->]; [reflexivity|].
  now destruct (_ && _ && _ && _).
Qed.

Lemma finalEffect_dispatch (r s : State) :
  finalGuard r s = true ->
  let s' := finalEffect r s in
  sent s' = (sent s ++ [transcript r])%list /\
  pending s' = (pending s ++ [(length (sent s), isSpeaking r)])%list /\
  lastTranscriptRef s' = transcript r /\
  processingRef s' = true /\
  status s' = Processing /\
  isListening s' = false /\
  transcript s' = ""%js /\
  interimTranscript s' = ""%js /\
  currentTranscript s' = transcript r.
Proof.
  unfold finalGuard, finalEffect. intros H.
  apply andb_prop in H as [H1 H2]. rewrite H1, H2.
  apply andb_prop in H1 as [_ Hp]. apply negb_true_iff in Hp.
  apply andb_prop in H2 as [_ Hl]. rewrite length_pos_truthy in Hl.
  unfold handleUserMessage. cbn. rewrite Hl, Hp. cbn. repeat split.
Qed.

Section CommitCases.

Variable x : State.

Lemma afterSilence_frame :
  status (afterSilence x) = status x /\
  isListening (afterSilence x) = isListening x /\
  transcript (afterSilence x) = transcript x /\
  interimTranscript (afterSilence x) = interimTranscript x /\
  processingRef (afterSilence x) = processingRef x /\
  lastTranscriptRef (afterSilence x) = lastTranscriptRef x /\
  pending (afterSilence x) = pending x /\
  sent (afterSilence x) = sent x /\
  deps (afterSilence x) = deps x.
Proof.
  unfold afterSilence. destruct (silenceDepsSame x);
    [repeat split | apply silenceEffect_frame].
Qed.

Lemma afterStatus_frame :
  transcript (afterStatus x) = transcript (afterFinal x) /\
  interimTranscript (afterStatus x) = interimTranscript (afterFinal x) /\
  processingRef (afterStatus x) = processingRef (afterFinal x) /\
  lastTranscriptRef (afterStatus x) = lastTranscriptRef (afterFinal x) /\
  pending (afterStatus x) = pending (afterFinal x) /\
  sent (afterStatus x) = sent (afterFinal x).
Proof.
  unfold afterStatus. destruct (statusDepsSame x); [repeat split|].
  pose proof (statusEffect_frame x (afterFinal x)) as G. cbn zeta in G.
  intuition congruence.
Qed.

(** Only the silence effect touches the timers. *)
Lemma afterStatus_timers :
  silenceTimerRef (afterStatus x) = silenceTimerRef (afterSilence x) /\
  nextTimerId (afterStatus x) = nextTimerId (afterSilence x) /\
  timers (afterStatus x) = timers (afterSilence x).
Proof.
  assert (F2 : silenceTimerRef (afterFinal x) = silenceTimerRef (afterSilence x)
               /\ nextTimerId (afterFinal x) = nextTimerId (afterSilence x)
               /\ timers (afterFinal x) = timers (afterSilence x)).
  { unfold afterFinal. destruct (finalDepsSame x); [repeat split|].
    pose proof (finalEffect_frame x (afterSilence x)) as G. cbn zeta in G.
    intuition congruence. }
  assert (F3 : silenceTimerRef (afterStatus x) = silenceTimerRef (afterFinal x)
               /\ nextTimerId (afterStatus x) = nextTimerId (afterFinal x)
               /\ timers (afterStatus x) = timers (afterFinal x)).
  { unfold afterStatus. destruct (statusDepsSame x); [repeat split|].
    pose proof (statusEffect_frame x (afterFinal x)) as G. cbn zeta in G.
    intuition congruence. }
  intuition congruence.
Qed.

Lemma willDispatch_guard :
  willDispatch x = negb (finalDepsSame x) && finalGuard x (afterSilence x).
Proof.
  destruct afterSilence_frame as (_ & _ & _ & _ & Hp & Hl & _).
  unfold willDispatch, finalGuard. rewrite Hp, Hl.
  now destruct (finalDepsSame x).
Qed.

Lemma afterFinal_skip :
  willDispatch x = false -> afterFinal x = afterSilence x.
Proof.
  rewrite willDispatch_guard. intros H.
  unfold afterFinal. destruct (finalDepsSame x); [reflexivity|].
  apply finalEffect_skip. exact H.
Qed.

(** A commit that dispatches the held final transcript. *)
Lemma render_dispatch :
  willDispatch x = true ->
  sent (render x) = (sent x ++ [transcript x])%list /\
  pending (render x) = (pending x ++ [(length (sent x), isSpeaking x)])%list /\
  lastTranscriptRef (render x) = transcript x /\
  processingRef (render x) = true /\
  status (render x) = Processing /\
  isListening (render x) = false /\
  transcript (render x) = ""%js /\
  interimTranscript (render x) = ""%js /\
  currentTranscript (render x) = transcript x.
Proof.
  rewrite willDispatch_guard. intros H.
  apply andb_prop in H as [Hd Hg]. apply negb_true_iff in Hd.
  destruct afterSilence_frame as (_ & _ & _ & _ & _ & _ & Hpe & Hs & _).
  pose proof (finalEffect_dispatch x (afterSilence x) Hg) as F.
  cbn zeta in F. rewrite Hpe, Hs in F.
  assert (E2 : afterFinal x = finalEffect x (afterSilence x))
    by (unfold afterFinal; now rewrite Hd).
  assert (E3 : render x = set_deps (depsOf x) (afterFinal x)).
  { unfold render. f_equal.
    unfold afterStatus. destruct (statusDepsSame x); [reflexivity|].
    apply effects_flag_set. rewrite E2. apply F. }
  rewrite E3, E2. cbn. exact F.
Qed.

(** A commit that does not dispatch. *)
Lemma render_no_dispatch :
  willDispatch x = false ->
  sent (render x) = sent x /\
  pending (render x) = pending x /\
  lastTranscriptRef (render x) = lastTranscriptRef x /\
  processingRef (render x) = processingRef x /\
  transcript (render x) = transcript x /\
  interimTranscript (render x) = interimTranscript x.
Proof.
  intros H. pose proof (afterFinal_skip H) as E2.
  destruct afterSilence_frame as (_ & _ & Ht & Hi & Hp & Hl & Hpe & Hs & _).
  pose proof afterStatus_frame as F. rewrite E2 in F.
  unfold render. cbn. intuition congruence.
Qed.

(** The status effect in a commit that does not dispatch. *)
Lemma render_status :
  willDispatch x = false ->
  (status (render x), isListening (render x)) =
  if statusDepsSame x || processingRef x then (status x, isListening x)
  else if isSpeaking x then (Speaking, false)
  else if isListening x then (Listening, true)
  else (status x, isListening x).
Proof.
  intros H. pose proof (afterFinal_skip H) as E2.
  destruct afterSilence_frame as (Hst & Hil & _ & _ & Hp & _).
  unfold render. cbn.
  unfold afterStatus. rewrite E2.
  destruct (statusDepsSame x); cbn; [congruence|].
  unfold statusEffect. rewrite Hp.
  destruct (processingRef x); cbn; [congruence|].
  destruct (isSpeaking x), (isListening x) eqn:E; cbn;
    f_equal; congruence.
Qed.

(** The timers in a commit that does not arm the pause timer. *)
Lemma render_no_arm :
  willArm x = false ->
  timers (render x) = timers x /\
  silenceTimerRef (render x) = silenceTimerRef x /\
  nextTimerId (render x) = nextTimerId x.
Proof.
  intros H.
  assert (E1 : afterSilence x = x).
  { unfold afterSilence. unfold willArm in H.
    destruct (silenceDepsSame x); [reflexivity|].
    unfold silenceEffect. cbn in H. now rewrite H. }
  pose proof afterStatus_timers as F. rewrite E1 in F.
  unfold render. cbn. intuition congruence.
Qed.

(** The timers in a commit that arms the pause timer: the timer the ref
    names is cleared and a new one is set. *)
Lemma render_arm :
  willArm x = true ->
  timers (render x) =
    (match silenceTimerRef x with
     | Some (S _ as id) => filter (fun t => negb (tid t =? id)%nat) (timers x)
     | _ => timers x
     end
     ++ [{| tid := nextTimerId x;
            due := clock x + silenceDelay (interimTranscript x);
            act := TSilence true (interimTranscript x) |}])%list /\
  silenceTimerRef (render x) = Some (nextTimerId x) /\
  nextTimerId (render x) = S (nextTimerId x).
Proof.
  intros H. unfold willArm in H.
  apply andb_prop in H as [Hd Hg]. apply negb_true_iff in Hd.
  assert (E1 : afterSilence x = silenceEffect x x)
    by (unfold afterSilence; now rewrite Hd).
  destruct afterStatus_timers as (a & b & c).
  unfold render. cbn. rewrite c, a, b, E1. clear a b c E1.
  unfold silenceEffect. rewrite Hg.
  assert (Hl : isListening x = true).
  { apply andb_prop in Hg as [Hg _]. now apply andb_prop in Hg. }
  rewrite Hl.
  cbn. destruct (silenceTimerRef x) as [[|n]|]; cbn; repeat split.
Qed.

End CommitCases.

(** ** Commits settle *)

Arguments render : simpl never.
Arguments step : simpl never.

Lemma flush_S (n : nat) (x : State) :
  flush (S n) x = if dirty x then flush n (render x) else x.
Proof. reflexivity. Qed.

Lemma deps_eq (a b : Deps) :
  dInterim a = dInterim b -> dTranscript a = dTranscript b ->
  dIsListening a = dIsListening b -> dHasStarted a = dHasStarted b ->
  dIsSpeaking a = dIsSpeaking b -> a = b.
Proof. destruct a, b; cbn; congruence. Qed.

Lemma settled_iff (x : State) : settled x <-> deps x = depsOf x.
Proof.
  unfold settled, dirty, silenceDepsSame, finalDepsSame, statusDepsSame.
  rewrite negb_false_iff, !andb_true_iff, !string_eqb_eq, !Bool.eqb_true_iff.
  split.
  - intros H. apply deps_eq; cbn; tauto.
  - intros ->. cbn. tauto.
Qed.

Lemma settled_depsSame (x : State) :
  settled x ->
  silenceDepsSame x = true /\ finalDepsSame x = true /\
  statusDepsSame x = true.
Proof.
  unfold settled, dirty. rewrite negb_false_iff, !andb_true_iff. tauto.
Qed.

Lemma flush_settled_id (n : nat) (x : State) : settled x -> flush n x = x.
Proof. unfold settled. intros H. destruct n; cbn; [|rewrite H]; reflexivity. Qed.

Lemma flush_settled_id_settled (n : nat) (x : State) :
  settled x -> settled (flush n x).
Proof. intros H. now rewrite flush_settled_id. Qed.

Lemma render_settled_if (x : State) :
  depsOf (render x) = depsOf x -> settled (render x).
Proof. intros H. apply settled_iff. now rewrite render_deps. Qed.

Lemma render_flag_settled (x : State) :
  processingRef x = true -> settled (render x).
Proof.
  intros H. apply render_settled_if. now rewrite (render_flag_set x H).
Qed.

Lemma render_keeps_listening_settled (x : State) :
  willDispatch x = false ->
  isListening (render x) = isListening x -> settled (render x).
Proof.
  intros Hd Hl. apply render_settled_if.
  destruct (render_no_dispatch x Hd) as (_ & _ & _ & _ & Ht & Hi).
  destruct (render_browser x) as (Hs & Hh & _).
  unfold depsOf. congruence.
Qed.

Lemma render_not_listening (x : State) :
  willDispatch x = false -> isListening x = false ->
  isListening (render x) = false.
Proof.
  intros Hd Hl. pose proof (render_status x Hd) as H. rewrite Hl in H.
  destruct (statusDepsSame x || processingRef x), (isSpeaking x);
    now inversion H.
Qed.

Lemma render_stops_or_keeps (x : State) :
  willDispatch x = false ->
  isListening (render x) = isListening x \/ isListening (render x) = false.
Proof.
  intros Hd. pose proof (render_status x Hd) as H.
  destruct (statusDepsSame x || processingRef x), (isSpeaking x),
    (isListening x); inversion H; auto.
Qed.

Lemma flush_flag_settled (n : nat) (x : State) :
  processingRef x = true -> settled (flush (S n) x).
Proof.
  intros H. rewrite flush_S. destruct (dirty x) eqn:D; [|exact D].
  rewrite flush_settled_id; apply render_flag_settled; exact H.
Qed.

(** Every state is settled after three commits. *)
Lemma flush_settled (x : State) : settled (flush commits x).
Proof.
  unfold commits. rewrite flush_S.
  destruct (dirty x) eqn:D0; [|exact D0].
  destruct (willDispatch x) eqn:W0.
  - apply (flush_flag_settled 1). now apply render_dispatch.
  - destruct (render_stops_or_keeps x W0) as [K | K].
    + apply flush_settled_id_settled.
      exact (render_keeps_listening_settled x W0 K).
    + rewrite flush_S.
      destruct (dirty (render x)) eqn:D1; [|exact D1].
      destruct (willDispatch (render x)) eqn:W1.
      * apply (flush_flag_settled 0). now apply render_dispatch.
      * apply flush_settled_id_settled.
        apply (render_keeps_listening_settled (render x) W1).
        now rewrite (render_not_listening _ W1 K).
Qed.

Lemma step_settled (s : State) (e : Event) : settled (step s e).
Proof. apply flush_settled. Qed.

Lemma init_settled (rs ss : bool) : settled (init rs ss).
Proof. reflexivity. Qed.

(** ** Induction principles *)

Lemma flush_preserves (P : State -> Prop) :
  (forall x, P x -> P (render x)) ->
  forall n x, P x -> P (flush n x).
Proof.
  intros HP n. induction n as [|n IH]; intros x Hx; cbn; [exact Hx|].
  destruct (dirty x); [apply IH, HP, Hx | exact Hx].
Qed.

Lemma step_preserves (P : State -> Prop) :
  (forall x, P x -> P (render x)) ->
  (forall x e, settled x -> P x -> P (handle e x)) ->
  forall s e, settled s -> P s -> P (step s e).
Proof.
  intros HR HH s e Hs Hp. unfold step. apply flush_preserves; auto.
Qed.

Lemma run_app (s : State) (es fs : list Event) :
  run s (es ++ fs) = run (run s es) fs.
Proof. apply fold_left_app. Qed.

Lemma run_snoc (s : State) (es : list Event) (e : Event) :
  run s (es ++ [e]) = step (run s es) e.
Proof. now rewrite run_app. Qed.

Lemma run_cons (s : State) (e : Event) (es : list Event) :
  run s (e :: es) = run (step s e) es.
Proof. reflexivity. Qed.

Lemma run_settled (s : State) (es : list Event) :
  settled s -> settled (run s es).
Proof.
  revert s. induction es as [|e es IH]; intros s Hs; [exact Hs|].
  rewrite run_cons. apply IH, step_settled.
Qed.

Lemma run_preserves (P : State -> Prop) :
  (forall x, P x -> P (render x)) ->
  (forall x e, settled x -> P x -> P (handle e x)) ->
  forall es s, settled s -> P s -> P (run s es).
Proof.
  intros HR HH es. induction es as [|e es IH]; intros s Hs Hp; [exact Hp|].
  rewrite run_cons.
  apply IH; [apply step_settled | now apply step_preserves].
Qed.

Lemma reachable_settled (s : State) : reachable s -> settled s.
Proof.
  intros (rs & ss & es & ->). apply run_settled, init_settled.
Qed.

Lemma reachable_step (s : State) (e : Event) :
  reachable s -> reachable (step s e).
Proof.
  intros (rs & ss & es & ->). exists rs, ss, (es ++ [e])%list.
  symmetry. apply run_snoc.
Qed.

Lemma reachable_preserves (P : State -> Prop) :
  (forall rs ss, P (init rs ss)) ->
  (forall x, P x -> P (render x)) ->
  (forall x e, settled x -> P x -> P (handle e x)) ->
  forall s, reachable s -> P s.
Proof.
  intros HI HR HH s (rs & ss & es & ->).
  apply run_preserves; auto using init_settled.
Qed.

(** ** Handlers *)

(** No handler posts a message or touches the last-dispatched record: only
    the final-transcript effect does. *)
Lemma handle_sent (e : Event) (s : State) : sent (handle e s) = sent s.
Proof. destruct e; handler_cases; reflexivity. Qed.

Lemma handle_lastTranscriptRef (e : Event) (s : State) :
  lastTranscriptRef (handle e s) = lastTranscriptRef s.
Proof. destruct e; handler_cases; reflexivity. Qed.

(** ** The log of posted messages *)

Lemma distinctAdjacent_snoc (l : list string) (m : string) :
  distinctAdjacent l = true -> last l ""%js <> m ->
  distinctAdjacent (l ++ [m]) = true.
Proof.
  induction l as [|a [|b t] IH]; intros H Hm; [reflexivity | |].
  - cbn in *. rewrite andb_true_r. apply negb_true_iff.
    now apply string_eqb_neq.
  - change (distinctAdjacent ((a :: b :: t) ++ [m]))
      with (negb (a =? b)%js && distinctAdjacent ((b :: t) ++ [m])).
    cbn [distinctAdjacent] in H. apply andb_prop in H as [Hab Ht].
    rewrite Hab. apply IH; assumption.
Qed.

Lemma distinctAdjacent_app_head (l : list string) (m : string)
  (rest : list string) :
  distinctAdjacent (l ++ m :: rest) = true -> l = [] \/ last l ""%js <> m.
Proof.
  induction l as [|a [|b t] IH]; intros H; [now left | |]; right.
  - cbn in H. apply andb_prop in H as [H _]. apply negb_true_iff in H.
    now apply string_eqb_neq.
  - change (distinctAdjacent ((a :: b :: t) ++ m :: rest))
      with (negb (a =? b)%js && distinctAdjacent ((b :: t) ++ m :: rest))
      in H.
    apply andb_prop in H as [_ H].
    destruct (IH H) as [E | N]; [discriminate | exact N].
Qed.

Lemma willDispatch_facts (x : State) :
  willDispatch x = true ->
  transcript x <> ""%js /\ transcript x <> lastTranscriptRef x /\
  isListening x = false /\ hasStarted x = true /\ processingRef x = false.
Proof.
  unfold willDispatch. rewrite !andb_true_iff, !negb_true_iff.
  intros ((_ & (((Ht & Hl) & Hh) & Hp)) & Hn & _).
  apply truthy_true in Ht. apply string_eqb_neq in Hn. tauto.
Qed.

Lemma dedupInv_render (x : State) : dedupInv x -> dedupInv (render x).
Proof.
  intros (Hl & Hd & Hf). unfold dedupInv.
  destruct (willDispatch x) eqn:W.
  - destruct (render_dispatch x W) as (-> & _ & -> & _).
    destruct (willDispatch_facts x W) as (Hne & Hneq & _).
    rewrite last_last. split; [reflexivity|]. split.
    + apply distinctAdjacent_snoc; congruence.
    + apply Forall_app. split; [exact Hf | now constructor].
  - destruct (render_no_dispatch x W) as (-> & _ & -> & _). tauto.
Qed.

Lemma dedupInv_handle (x : State) (e : Event) :
  dedupInv x -> dedupInv (handle e x).
Proof.
  unfold dedupInv. now rewrite handle_sent, handle_lastTranscriptRef.
Qed.

Lemma dedupInv_reachable (s : State) : reachable s -> dedupInv s.
Proof.
  apply reachable_preserves.
  - intros rs ss. repeat split. constructor.
  - apply dedupInv_render.
  - intros x e _. apply dedupInv_handle.
Qed.

Lemma blocked_no_dispatch (x : State) : blocked x -> willDispatch x = false.
Proof.
  intros B. destruct (willDispatch x) eqn:W; [|reflexivity].
  destruct (willDispatch_facts x W) as (H1 & H2 & _).
  destruct B; congruence.
Qed.

Lemma blocked_flush (n : nat) (x : State) :
  blocked x -> sent (flush n x) = sent x.
Proof.
  intros B.
  enough (H : blocked (flush n x) /\ sent (flush n x) = sent x) by apply H.
  apply (flush_preserves (fun y => blocked y /\ sent y = sent x));
    [|split; [exact B | reflexivity]].
  intros y (By & Sy).
  destruct (render_no_dispatch y (blocked_no_dispatch y By))
    as (Hs & _ & Hl & _ & Ht & _).
  unfold blocked. rewrite Hs, Hl, Ht. tauto.
Qed.

Lemma redelivery_dropped (s : State) (results : list (string * bool)) :
  settled s ->
  truthy (finalOf results) = true ->
  trim (finalOf results) = lastTranscriptRef s ->
  sent (step s (EvResult results)) = sent s.
Proof.
  intros Hs Hf Ht. unfold step. cbn [handle].
  destruct (recStarted s).
  - rewrite blocked_flush.
    + unfold onresult. rewrite Hf. reflexivity.
    + left. unfold onresult. rewrite Hf. cbn. exact Ht.
  - now rewrite flush_settled_id.
Qed.

(** Whatever happens, the log only grows, and what is appended first
    differs from the last dispatched utterance. *)
Lemma render_sent_extends (x : State) :
  exists ext, sent (render x) = (sent x ++ ext)%list.
Proof.
  destruct (willDispatch x) eqn:W.
  - destruct (render_dispatch x W) as (-> & _). now eexists.
  - destruct (render_no_dispatch x W) as (-> & _). exists [].
    now rewrite app_nil_r.
Qed.

Lemma step_sent_extends (s : State) (e : Event) :
  exists ext, sent (step s e) = (sent s ++ ext)%list.
Proof.
  unfold step. rewrite <- (handle_sent e s).
  apply (flush_preserves
           (fun y => exists ext, sent y = (sent (handle e s) ++ ext)%list)).
  - intros y (ext & E). destruct (render_sent_extends y) as (ext' & E').
    exists (ext ++ ext')%list. now rewrite E', E, app_assoc.
  - exists []. now rewrite app_nil_r.
Qed.

Lemma run_sent_extends (es : list Event) (s : State) :
  exists ext, sent (run s es) = (sent s ++ ext)%list.
Proof.
  revert s. induction es as [|e es IH]; intros s.
  - exists []. now rewrite app_nil_r.
  - rewrite run_cons. destruct (IH (step s e)) as (ext & E).
    destruct (step_sent_extends s e) as (ext' & E').
    exists (ext' ++ ext)%list. now rewrite E, E', app_assoc.
Qed.

Lemma next_dispatch_distinct (s : State) (es : list Event) :
  reachable s ->
  sent (run s es) = sent s \/
  exists m rest, sent (run s es) = (sent s ++ m :: rest)%list /\
                 m <> lastTranscriptRef s.
Proof.
  intros R. destruct (run_sent_extends es s) as ([|m rest] & E).
  - left. now rewrite E, app_nil_r.
  - right. exists m, rest. split; [exact E|].
    assert (R' : reachable (run s es)).
    { destruct R as (rs & ss & es0 & ->). exists rs, ss, (es0 ++ es)%list.
      symmetry. apply run_app. }
    destruct (dedupInv_reachable _ R') as (_ & D & F).
    destruct (dedupInv_reachable _ R) as (L & _ & _).
    rewrite E in D, F. rewrite L.
    destruct (distinctAdjacent_app_head _ _ _ D) as [N | N].
    + rewrite N. cbn. apply Forall_app in F as [_ F].
      inversion F; subst. congruence.
    + congruence.
Qed.

(** ** Turn-taking properties *)

Lemma handle_fail_settled (s : State) (i : nat) :
  settled s -> settled (handle (EvFail i) s).
Proof.
  intros H. cbn [handle]. destruct (find_pending i s); exact H.
Qed.

Lemma step_fail (s : State) (i : nat) (p : nat * bool) :
  settled s -> find_pending i s = Some p ->
  step s (EvFail i) = onFailure (remove_pending i s).
Proof.
  intros H F. unfold step.
  rewrite flush_settled_id by now apply handle_fail_settled.
  cbn [handle]. now rewrite F.
Qed.

Lemma In_find_pending (s : State) (i : nat) (c : bool) :
  In (i, c) (pending s) -> exists p, find_pending i s = Some p.
Proof.
  intros H. unfold find_pending.
  destruct (find _ (pending s)) eqn:F; [now eexists|].
  apply (find_none _ _ F) in H. cbn in H.
  now rewrite Nat.eqb_refl in H.
Qed.

Lemma last_nth_pred (l : list string) (i : nat) :
  S i = length l -> last l ""%js = nth i l ""%js.
Proof.
  revert i. induction l as [|a [|b t] IH]; intros i H; cbn in H.
  - discriminate.
  - now inversion H.
  - destruct i as [|j]; [discriminate|].
    change (last (a :: b :: t) ""%js) with (last (b :: t) ""%js).
    change (nth (S j) (a :: b :: t) ""%js) with (nth j (b :: t) ""%js).
    apply IH. cbn. now inversion H.
Qed.

(** C2. At-most-once dispatch.  After any sequence of events the log of
    messages posted to the backend has no two equal neighbours: an utterance
    is not sent again until a different one has been sent.  The guard
    compares the final text with the last dispatched utterance, which is
    always the last entry of the log, so a final transcript that is delivered
    again with the same text posts nothing. *)
Theorem at_most_once_dispatch (rs ss : bool) (es : list Event) :
  let s := run (init rs ss) es in
  distinctAdjacent (sent s) = true /\
  lastTranscriptRef s = last (sent s) ""%js /\
  (forall results,
      truthy (finalOf results) = true ->
      trim (finalOf results) = lastTranscriptRef s ->
      sent (step s (EvResult results)) = sent s).
Proof.
  intros s.
  assert (R : reachable s) by (now exists rs, ss, es).
  destruct (dedupInv_reachable s R) as (L & D & _).
  repeat split; try assumption.
  intros results. apply redelivery_dropped, reachable_settled, R.
Qed.

Lemma at_most_once_dispatch_witness :
  sent (run (init true true) dispatched) = ["what time is it"%js] /\
  sent (step (run (init true true) dispatched)
          (EvResult [("what time is it"%js, true)]))
  = ["what time is it"%js].
Proof.
  split; [reflexivity|].
  destruct (at_most_once_dispatch true true dispatched) as (_ & _ & H).
  rewrite H; reflexivity.
Defined.

(** C10, as stated, fails.  The first turn, "what time is it", is
    cancelled while its call is in flight, and "never mind" is dispatched
    as a second turn; then the first call fails.  The last-dispatched
    record holds "never mind", not the failed utterance, and a final
    transcript with the text of the failed utterance passes the duplicate
    guard: "what time is it" is posted again. *)
Lemma failed_utterance_redispatched_after_later_turn :
  let s := run (init true true) overlapped in
  let s' := step s (EvFail 0) in
  let s'' := step s' (EvResult [("what time is it"%js, true)]) in
  (sent s = ["what time is it"%js; "never mind"%js] /\
   pending s = [(0%nat, false); (1%nat, false)]) /\
  (lastTranscriptRef s' = "never mind"%js /\ isListening s' = false /\
   processingRef s' = false /\ sent s' = sent s) /\
  (sent s'' = ["what time is it"%js; "never mind"%js; "what time is it"%js] /\
   processingRef s'' = true /\ status s'' = Processing).
Proof. vm_compute. repeat split. Qed.

(** C10, amended.  A backend failure leaves the last-dispatched record
    and the log as they are.  The record holds the latest utterance
    dispatched; so when the failed call is the latest one, it holds the
    failed utterance: a final transcript with that text is then dropped by
    the duplicate guard, and whatever is dispatched next, after any events,
    is a different text. *)
Theorem failed_utterance_not_redispatched
  (s : State) (i : nat) (c : bool) :
  reachable s -> In (i, c) (pending s) ->
  let s' := step s (EvFail i) in
  let failed := nth i (sent s) ""%js in
  lastTranscriptRef s' = lastTranscriptRef s /\
  sent s' = sent s /\
  lastTranscriptRef s' = last (sent s) ""%js /\
  (S i = length (sent s) ->
   lastTranscriptRef s' = failed /\
   (forall results,
       truthy (finalOf results) = true ->
       trim (finalOf results) = failed ->
       sent (step s' (EvResult results)) = sent s') /\
   (forall es,
       sent (run s' es) = sent s' \/
       exists m rest, sent (run s' es) = (sent s' ++ m :: rest)%list /\
                      m <> failed)).
Proof.
  intros R P s' failed.
  assert (R' : reachable s') by now apply reachable_step.
  destruct (In_find_pending s i c P) as (p & F).
  assert (E : s' = onFailure (remove_pending i s))
    by (apply (step_fail s i p); [apply reachable_settled, R | exact F]).
  assert (EL : lastTranscriptRef s' = lastTranscriptRef s) by now rewrite E.
  assert (ES : sent s' = sent s) by now rewrite E.
  destruct (dedupInv_reachable s' R') as (L & _).
  split; [exact EL|]. split; [exact ES|]. split; [now rewrite L, ES|].
  intros Hi.
  assert (EF : lastTranscriptRef s' = failed).
  { rewrite L, ES. now apply last_nth_pred. }
  split; [exact EF|]. split.
  - intros results Ht Hf. rewrite <- EF in Hf.
    revert Ht Hf. apply redelivery_dropped, reachable_settled, R'.
  - intros es. rewrite <- EF. now apply next_dispatch_distinct.
Qed.

Lemma failed_utterance_not_redispatched_witness :
  let s' := step (run (init true true) dispatched) (EvFail 0) in
  lastTranscriptRef s' = "what time is it"%js /\
  sent (step s' (EvResult [("what time is it"%js, true)]))
  = ["what time is it"%js].
Proof.
  assert (R : reachable (run (init true true) dispatched))
    by (now exists true, true, dispatched).
  assert (P : In (0%nat, false) (pending (run (init true true) dispatched)))
    by (vm_compute; now left).
  destruct (failed_utterance_not_redispatched _ 0%nat false R P)
    as (_ & _ & _ & H).
  destruct (H eq_refl) as (A & B & _).
  split; [exact A|].
  rewrite B; reflexivity.
Defined.

(** ** Timers *)

Lemma timersOk_add (l : list Timer) (n : nat) (r : option nat)
  (d : Z) (a : TimerAction) :
  timersOk l n r -> isSilence a = false ->
  timersOk (l ++ [{| tid := n; due := d; act := a |}]) (S n) r.
Proof.
  intros (Hn & Hr & Hl) Ha. repeat split.
  - lia.
  - intros id E. specialize (Hr id E). lia.
  - apply Forall_app. split.
    + eapply Forall_impl; [|exact Hl]. cbn. intros t (Ht & Hs).
      split; [lia | exact Hs].
    + constructor; [|constructor]. cbn. split; [lia|]. rewrite Ha.
      split; [discriminate|]. intros E. specialize (Hr n E). lia.
Qed.

Lemma timersOk_filter (l : list Timer) (n : nat) (r : option nat)
  (f : Timer -> bool) :
  timersOk l n r -> timersOk (filter f l) n r.
Proof.
  intros (Hn & Hr & Hl). repeat split; try assumption.
  apply Forall_forall. intros t Ht. apply filter_In in Ht as [Ht _].
  now apply (proj1 (Forall_forall _ _) Hl).
Qed.

Lemma timerInv_handle (x : State) (e : Event) :
  timerInv x -> timerInv (handle e x).
Proof.
  unfold timerInv. intros H.
  destruct e; handler_cases;
    repeat first [ assumption | apply timersOk_add | apply timersOk_filter
                 | reflexivity ].
Qed.

Lemma timersOk_no_silence_left (l : list Timer) (n : nat) (r : option nat) :
  timersOk l n r ->
  Forall (fun t => isSilence (act t) = false)
    match r with
    | Some (S _ as id) => filter (fun t => negb (tid t =? id)%nat) l
    | _ => l
    end.
Proof.
  intros (Hn & Hr & Hl). apply Forall_forall. intros t Ht.
  destruct (isSilence (act t)) eqn:E; [exfalso | reflexivity].
  assert (Hin : In t l).
  { destruct r as [[|k]|]; [exact Ht | | exact Ht].
    now apply filter_In in Ht. }
  destruct (proj1 (Forall_forall _ _) Hl t Hin) as (Hid & Hs).
  apply Hs in E. subst r. destruct (tid t) as [|k] eqn:K; [lia|].
  apply filter_In in Ht as [_ Ht]. rewrite K, Nat.eqb_refl in Ht.
  discriminate.
Qed.

Lemma timersOk_others_kept (l : list Timer) (n : nat) (r : option nat) :
  timersOk l n r ->
  filter (fun t => negb (isSilence (act t)))
    match r with
    | Some (S _ as id) => filter (fun t => negb (tid t =? id)%nat) l
    | _ => l
    end
  = filter (fun t => negb (isSilence (act t))) l.
Proof.
  intros (Hn & Hr & Hl). destruct r as [[|k]|]; try reflexivity.
  clear Hr. induction l as [|t l IH]; [reflexivity|].
  inversion Hl as [|? ? (Hid & Hs) Hl']; subst. cbn [filter].
  destruct (tid t =? S k)%nat eqn:E; cbn [negb].
  - apply Nat.eqb_eq in E.
    assert (S1 : isSilence (act t) = true) by (apply Hs; now rewrite E).
    rewrite S1. cbn. apply IH, Hl'.
  - cbn [filter]. destruct (isSilence (act t)); cbn; [|f_equal];
      apply IH, Hl'.
Qed.

Lemma timerInv_render (x : State) : timerInv x -> timerInv (render x).
Proof.
  unfold timerInv. intros H. destruct (willArm x) eqn:W.
  - destruct (render_arm x W) as (-> & -> & ->).
    pose proof (timersOk_no_silence_left _ _ _ H) as NS.
    destruct H as (Hn & Hr & Hl). repeat split.
    + lia.
    + intros id E. inversion E. lia.
    + apply Forall_app. split.
      * apply Forall_forall. intros t Ht.
        pose proof (proj1 (Forall_forall _ _) NS t Ht) as Hs.
        assert (Hin : In t (timers x)).
        { destruct (silenceTimerRef x) as [[|k]|]; [exact Ht | | exact Ht].
          now apply filter_In in Ht. }
        destruct (proj1 (Forall_forall _ _) Hl t Hin) as (Hid & _).
        split; [lia|]. rewrite Hs. split; [discriminate|].
        intros E. inversion E. lia.
      * constructor; [|constructor]. cbn. split; [lia|]. tauto.
  - now destruct (render_no_arm x W) as (-> & -> & ->).
Qed.

Lemma timerInv_reachable (s : State) : reachable s -> timerInv s.
Proof.
  apply reachable_preserves.
  - intros rs ss. repeat split; cbn; try lia; try discriminate. constructor.
  - apply timerInv_render.
  - intros x e _. apply timerInv_handle.
Qed.

(** ** The adapters *)

Lemma render_listening_mono (x : State) :
  isListening (render x) = true -> isListening x = true.
Proof.
  destruct (willDispatch x) eqn:W.
  - destruct (render_dispatch x W) as (_ & _ & _ & _ & _ & -> & _).
    discriminate.
  - destruct (render_stops_or_keeps x W) as [-> | ->];
      [trivial | discriminate].
Qed.

Lemma adapterInv_render (x : State) : adapterInv x -> adapterInv (render x).
Proof.
  intros (H1 & H2 & H3). unfold adapterInv.
  destruct (render_browser x) as (-> & _ & _ & -> & _ & _ & -> & -> & _).
  repeat split; try assumption.
  intros H. apply H1. now apply render_listening_mono.
Qed.

Lemma adapterInv_handle (x : State) (e : Event) :
  adapterInv x -> adapterInv (handle e x).
Proof.
  unfold adapterInv. intros (H1 & H2 & H3).
  assert (H3' : forall u, utterance x = Some u -> synthIsSupported x = true)
    by (intros u E; apply H3; congruence).
  destruct e; handler_cases; repeat split; intros;
    try discriminate; try congruence; auto;
    try (eapply H3'; eassumption);
    try match goal with
        | H : negb ?b = false |- ?b = true => now apply negb_false_iff in H
        end;
    try solve [intuition congruence].
Qed.

Lemma adapterInv_reachable (s : State) : reachable s -> adapterInv s.
Proof.
  apply reachable_preserves.
  - intros rs ss. repeat split; cbn; congruence.
  - apply adapterInv_render.
  - intros x e _. apply adapterInv_handle.
Qed.

Lemma flush_one (h : State) :
  dirty h = true -> settled (render h) -> flush commits h = render h.
Proof.
  unfold settled, commits. intros D S1. rewrite flush_S, D, flush_S.
  now rewrite S1.
Qed.

Lemma filter_none (A : Type) (f : A -> bool) (l : list A) :
  Forall (fun a => f a = false) l -> filter f l = [].
Proof.
  induction 1 as [|a l Ha _ IH]; cbn; [reflexivity|]. now rewrite Ha.
Qed.

Lemma step_interim (s : State) (results : list (string * bool)) :
  settled s -> recStarted s = true ->
  isListening s = true -> processingRef s = false ->
  finalOf results = ""%js ->
  interimOf results <> ""%js ->
  interimOf results <> interimTranscript s ->
  let h := set_interimTranscript (interimOf results) s in
  step s (EvResult results) = render h /\ willArm h = true.
Proof.
  intros Hs Hr Hl Hp Hf Hne Hch h.
  assert (Eh : handle (EvResult results) s = h).
  { cbn [handle]. rewrite Hr. unfold onresult. now rewrite Hf. }
  destruct (settled_depsSame s Hs) as (D1 & D2 & D3).
  assert (S1 : silenceDepsSame h = false).
  { unfold silenceDepsSame in *. cbn. apply string_eqb_eq in D1.
    rewrite D1. apply string_eqb_neq. congruence. }
  assert (WA : willArm h = true).
  { unfold willArm. rewrite S1. cbn. rewrite Hl, Hp.
    now rewrite (proj2 (truthy_true _) Hne). }
  assert (WD : willDispatch h = false).
  { unfold willDispatch. cbn. rewrite Hl. cbn.
    now rewrite !andb_false_r. }
  split; [|exact WA]. unfold step. rewrite Eh. apply flush_one.
  - unfold dirty. now rewrite S1.
  - apply render_keeps_listening_settled; [exact WD|].
    pose proof (render_status h WD) as St.
    replace (statusDepsSame h) with true in St by (now rewrite <- D3).
    cbn [orb] in St. now apply pair_equal_spec in St.
Qed.

Lemma set_interimTranscript_eta (s : State) :
  set_interimTranscript (interimTranscript s) s = s.
Proof. now destruct s. Qed.

(** An interim result that repeats the interim text is no update of the
    state: no commit follows. *)
Lemma step_interim_repeated (s : State) (results : list (string * bool)) :
  settled s -> recStarted s = true ->
  finalOf results = ""%js -> interimOf results = interimTranscript s ->
  step s (EvResult results) = s.
Proof.
  intros Hs Hr Hf He.
  assert (Eh : handle (EvResult results) s = s).
  { cbn [handle]. rewrite Hr. unfold onresult. rewrite Hf, He. cbn.
    apply set_interimTranscript_eta. }
  unfold step. rewrite Eh. apply flush_settled_id. exact Hs.
Qed.

(** Commits while listening with an empty interim text arm no timer and
    cancel none. *)
Lemma flush_listening_no_interim (h : State) :
  isListening h = true -> interimTranscript h = ""%js ->
  statusDepsSame h = true ->
  timers (flush commits h) = timers h /\
  silenceTimerRef (flush commits h) = silenceTimerRef h.
Proof.
  intros Hl Hi D3.
  assert (WA : willArm h = false).
  { unfold willArm. rewrite Hi. cbn. now rewrite andb_false_r. }
  assert (WD : willDispatch h = false).
  { unfold willDispatch. rewrite Hl. cbn. now rewrite !andb_false_r. }
  destruct (dirty h) eqn:D.
  - rewrite flush_one; [| exact D |].
    + destruct (render_no_arm h WA) as (-> & -> & _). split; reflexivity.
    + apply render_keeps_listening_settled; [exact WD|].
      pose proof (render_status h WD) as St.
      rewrite D3 in St. cbn [orb] in St. now apply pair_equal_spec in St.
  - rewrite flush_settled_id by exact D. split; reflexivity.
Qed.

(** A result that leaves the interim text empty, because its interim text
    is empty or because it has a final part, arms nothing and cancels
    nothing. *)
Lemma step_result_no_interim (s : State) (results : list (string * bool)) :
  settled s -> recStarted s = true -> isListening s = true ->
  finalOf results <> ""%js \/ interimOf results = ""%js ->
  let s' := step s (EvResult results) in
  timers s' = timers s /\ silenceTimerRef s' = silenceTimerRef s.
Proof.
  intros Hs Hr Hl Hc s'.
  destruct (settled_depsSame s Hs) as (_ & _ & D3).
  subst s'. unfold step. cbn [handle]. rewrite Hr. unfold onresult.
  destruct (truthy (finalOf results)) eqn:T.
  - match goal with
    | |- context [flush commits ?h] =>
        destruct (flush_listening_no_interim h) as (-> & ->)
    end; [exact Hl | reflexivity | exact D3 | split; reflexivity].
  - destruct Hc as [Hc | Hc];
      [apply truthy_false in T; contradiction|].
    match goal with
    | |- context [flush commits ?h] =>
        destruct (flush_listening_no_interim h) as (-> & ->)
    end; [exact Hl | exact Hc | exact D3 | split; reflexivity].
Qed.

(** C4, as stated, fails.  The recogniser reports the interim text
    "what time" and the pause timer is armed, due at 4050.  A second
    interim result with the same text, 1000 units later, is an
    interim-transcript update received while listening and not processing,
    but the timer is neither cancelled nor armed again: [interimTranscript]
    has not changed, so the effect does not run, and the pause signal is
    still due at 4050.  And the three words of " a  b  c ", written with
    six spaces, are seven pieces for [split(' ')]: the pause signal is
    scheduled after 1200 units, not 1500. *)
Lemma interim_update_outside_policy :
  let s := run (init true true)
             (toListening ++
              [EvAdvance 1000; EvResult [("what time"%js, false)];
               EvAdvance 1000])%list in
  let again := step s (EvResult [("what time"%js, false)]) in
  let spaced := step s (EvResult [(" a  b  c "%js, false)]) in
  (isListening s = true /\ processingRef s = false /\ clock s = 3550 /\
   timers s = [{| tid := 1; due := 4050;
                  act := TSilence true "what time" |}]) /\
  timers again = [{| tid := 1; due := 4050;
                     act := TSilence true "what time" |}] /\
  timers spaced = [{| tid := 2; due := 3550 + 1200;
                      act := TSilence true " a  b  c " |}].
Proof. vm_compute. repeat split. Qed.

(** C4, amended.  Adaptive silence delay.  In a reachable state where the
    recogniser is listening and no turn is being processed, take a
    recognition result.  If it has no final part and its interim text is
    not empty and differs from the interim text held, exactly one pause
    timer is pending afterwards: the one armed now, due after 1200 units
    when the text has more than five pieces between single spaces and
    after 1500 otherwise; the timer the ref named before is gone and the
    other timers are kept.  If it has no final part and its text is the
    interim text held, the state does not change at all, so a pending
    pause timer keeps its due time.  If its interim text is empty or it
    has a final part, no timer is armed and none is cancelled.  The pieces
    between single spaces are the words when the words are joined by
    single spaces; then six words give 1200 and three give 1500. *)
Theorem adaptive_silence_delay (s : State) (results : list (string * bool)) :
  reachable s ->
  isListening s = true -> processingRef s = false ->
  let text := interimOf results in
  let delay := if (5 <? wordCount text)%nat then 1200 else 1500 in
  let s' := step s (EvResult results) in
  (finalOf results = ""%js -> text <> ""%js -> text <> interimTranscript s ->
   filter (fun t => isSilence (act t)) (timers s')
   = [{| tid := nextTimerId s; due := clock s + delay;
         act := TSilence true text |}] /\
   silenceTimerRef s' = Some (nextTimerId s) /\
   filter (fun t => negb (isSilence (act t))) (timers s')
   = filter (fun t => negb (isSilence (act t))) (timers s)) /\
  (finalOf results = ""%js -> text = interimTranscript s -> s' = s) /\
  (finalOf results <> ""%js \/ text = ""%js ->
   timers s' = timers s /\ silenceTimerRef s' = silenceTimerRef s) /\
  (forall ws, ws <> [] -> Forall (fun w => has_space w = false) ws ->
              silenceDelay (join_space ws)
              = if (5 <? length ws)%nat then 1200 else 1500) /\
  silenceDelay "what is the weather like today" = 1200 /\
  silenceDelay "what time is" = 1500.
Proof.
  intros R Hl Hp text delay s'.
  pose proof (reachable_settled s R) as Hs.
  pose proof (timerInv_reachable s R) as TI.
  destruct (adapterInv_reachable s R) as (Hrec & _).
  split; [|split; [|split; [|split; [|split; reflexivity]]]].
  - intros Hf Hne Hch.
    destruct (step_interim s results Hs (Hrec Hl) Hl Hp Hf Hne Hch)
      as (E & WA).
    destruct (render_arm _ WA) as (Ht & Href & _).
    cbn in Ht, Href. subst s'. rewrite E, Ht, Href.
    unfold timerInv in TI.
    split; [|split; [reflexivity|]].
    + rewrite filter_app.
      rewrite (filter_none _ _ _ (timersOk_no_silence_left _ _ _ TI)).
      reflexivity.
    + rewrite filter_app. cbn. rewrite app_nil_r.
      apply (timersOk_others_kept _ _ _ TI).
  - intros Hf He. apply step_interim_repeated; auto.
  - intros Hc. apply step_result_no_interim; auto.
  - intros ws Hws Hsp. unfold silenceDelay.
    now rewrite (wordCount_join ws Hws Hsp).
Qed.

Lemma adaptive_silence_delay_witness :
  let s := run (init true true) toListening in
  let s' := step s (EvResult [("what is the weather like today"%js, false)]) in
  filter (fun t => isSilence (act t)) (timers s')
  = [{| tid := 1; due := 1550 + 1200;
        act := TSilence true "what is the weather like today" |}].
Proof.
  assert (R : reachable (run (init true true) toListening))
    by (now exists true, true, toListening).
  refine (proj1 (proj1 (adaptive_silence_delay _
            [("what is the weather like today"%js, false)] R _ _) _ _ _));
    vm_compute; congruence.
Defined.

(** ** Commits after a dispatch *)

Lemma set_deps_eta (y : State) : set_deps (deps y) y = y.
Proof. now destruct y. Qed.

(** With the flag set, commits change nothing but the recorded
    dependencies. *)
Lemma flush_flag_set (n : nat) (y : State) :
  processingRef y = true -> exists d, flush n y = set_deps d y.
Proof.
  revert y. induction n as [|n IH]; intros y H.
  - exists (deps y). cbn. now rewrite set_deps_eta.
  - rewrite flush_S. destruct (dirty y).
    + rewrite (render_flag_set y H).
      destruct (IH (set_deps (depsOf y) y) H) as (d & E).
      exists d. now rewrite E.
    + exists (deps y). now rewrite set_deps_eta.
Qed.

(** A step whose first commit dispatches. *)
Lemma flush_dispatch (h : State) :
  willDispatch h = true ->
  exists d, flush commits h = set_deps d (render h).
Proof.
  intros W. unfold commits. rewrite flush_S.
  assert (D : dirty h = true).
  { unfold dirty, willDispatch in *. destruct (finalDepsSame h);
      [discriminate | now rewrite andb_false_r]. }
  rewrite D. apply flush_flag_set. now apply render_dispatch.
Qed.

(** Commits while the recogniser listens and the adapters' activity is the
    one last rendered: nothing is dispatched and the status stays. *)
Lemma flush_listening (n : nat) (h : State) :
  isListening h = true -> statusDepsSame h = true ->
  let h' := flush n h in
  sent h' = sent h /\ status h' = status h /\
  processingRef h' = processingRef h /\ transcript h' = transcript h /\
  isListening h' = true /\ pending h' = pending h /\
  lastTranscriptRef h' = lastTranscriptRef h.
Proof.
  intros Hl Hd. cbn zeta.
  enough (H : sent (flush n h) = sent h /\ status (flush n h) = status h /\
              processingRef (flush n h) = processingRef h /\
              transcript (flush n h) = transcript h /\
              isListening (flush n h) = true /\
              pending (flush n h) = pending h /\
              lastTranscriptRef (flush n h) = lastTranscriptRef h /\
              statusDepsSame (flush n h) = true) by tauto.
  apply (flush_preserves
           (fun y => sent y = sent h /\ status y = status h /\
                     processingRef y = processingRef h /\
                     transcript y = transcript h /\
                     isListening y = true /\ pending y = pending h /\
                     lastTranscriptRef y = lastTranscriptRef h /\
                     statusDepsSame y = true));
    [|repeat split; assumption].
  intros y (H1 & H2 & H3 & H4 & H5 & H6 & H7 & H8).
  assert (W : willDispatch y = false).
  { unfold willDispatch. rewrite H5. cbn. now rewrite !andb_false_r. }
  destruct (render_no_dispatch y W) as (-> & -> & -> & -> & -> & _).
  pose proof (render_status y W) as St. rewrite H8 in St.
  cbn [orb] in St.
  apply pair_equal_spec in St as [St1 St2]. rewrite St1, St2.
  repeat split; try assumption.
  unfold statusDepsSame. rewrite render_deps. cbn.
  destruct (render_browser y) as (-> & _). rewrite St2.
  now rewrite !Bool.eqb_reflx.
Qed.

Lemma willDispatch_intro (x : State) :
  finalDepsSame x = false ->
  transcript x <> ""%js -> isListening x = false ->
  hasStarted x = true -> processingRef x = false ->
  transcript x <> lastTranscriptRef x ->
  trim (transcript x) <> ""%js ->
  willDispatch x = true.
Proof.
  intros Hd Ht Hl Hh Hp Hn Htr. unfold willDispatch.
  rewrite Hd, Hl, Hh, Hp, length_pos_truthy.
  rewrite (proj2 (truthy_true _) Ht), (proj2 (truthy_true _) Htr).
  now rewrite (proj2 (string_eqb_neq _ _) Hn).
Qed.

(** C5, as stated, fails: the recogniser finalises "what time is it" while
    it is still listening (state Listening, flag clear, nothing dispatched
    before), and the controller only stores the text: nothing is posted, the
    flag stays clear and the state stays Listening. *)
Lemma final_while_listening_is_held :
  let s := run (init true true)
             (toListening ++
              [EvAdvance 1000; EvResult [("what time is it"%js, false)];
               EvAdvance 600])%list in
  let s' := step s (EvResult [("what time is it"%js, true)]) in
  status s = Listening /\ isListening s = true /\ hasStarted s = true /\
  processingRef s = false /\ lastTranscriptRef s = ""%js /\
  transcript s' = "what time is it"%js /\
  sent s' = [] /\ pending s' = [] /\ processingRef s' = false /\
  status s' = Listening.
Proof. vm_compute. repeat split. Qed.

(** A final transcript of white space only, here a no-break space, is
    stored as the empty string and nothing is dispatched, although the
    input adapter is stopped and the flag is clear. *)
Lemma blank_final_not_dispatched :
  let s := run (init true true)
             (toListening ++
              [EvAdvance 1000; EvResult [("what time is it"%js, false)];
               EvAdvance 1500; EvTimer 1])%list in
  let s' := step s (EvResult [(String 0xA0 "", true)]) in
  (isListening s = false /\ processingRef s = false /\ hasStarted s = true) /\
  truthy (finalOf [(String 0xA0 "", true)]) = true /\
  transcript s' = ""%js /\ sent s' = [] /\ processingRef s' = false.
Proof. vm_compute. repeat split. Qed.

(** C5, amended.  A final transcript is dispatched when it arrives while the
    input adapter is not active: if the session has started, the flag is
    clear, and the trimmed text is non-empty, differs from the last
    dispatched utterance and from the transcript already held, the
    controller records it as last dispatched, sets the flag, posts it to the
    backend and enters Processing.  While the input adapter is active the
    final transcript is only stored. *)
Theorem final_transcript_dispatch (s : State) (results : list (string * bool)) :
  settled s -> recStarted s = true -> hasStarted s = true ->
  processingRef s = false ->
  truthy (finalOf results) = true ->
  let t := trim (finalOf results) in
  t <> ""%js -> t <> lastTranscriptRef s ->
  let s' := step s (EvResult results) in
  (isListening s = false -> t <> transcript s ->
   sent s' = (sent s ++ [t])%list /\
   pending s' = (pending s ++ [(length (sent s), isSpeaking s)])%list /\
   processingRef s' = true /\ status s' = Processing /\
   lastTranscriptRef s' = t /\ isListening s' = false) /\
  (isListening s = true ->
   sent s' = sent s /\ pending s' = pending s /\ processingRef s' = false /\
   status s' = status s /\ transcript s' = t /\ isListening s' = true).
Proof.
  intros Hs Hr Hh Hp Hf t Hne Hnl s'.
  set (h := set_interimTranscript ""%js
              (set_transcript t (set_interimTranscript (interimOf results) s))).
  assert (Eh : handle (EvResult results) s = h).
  { cbn [handle]. rewrite Hr. unfold onresult. now rewrite Hf. }
  destruct (settled_depsSame s Hs) as (D1 & D2 & D3).
  split.
  - intros Hl Hnt.
    assert (W : willDispatch h = true).
    { apply willDispatch_intro; try assumption.
      - unfold finalDepsSame in *. cbn.
        apply andb_prop in D2 as [D2 _]. apply andb_prop in D2 as [D2 _].
        apply string_eqb_eq in D2. rewrite D2.
        now rewrite (proj2 (string_eqb_neq _ _) (not_eq_sym Hnt)).
      - change (transcript h) with t. subst t. now rewrite trim_idem. }
    destruct (flush_dispatch h W) as (d & E).
    destruct (render_dispatch h W) as (F1 & F2 & F3 & F4 & F5 & F6 & _).
    subst s'. unfold step. rewrite Eh, E. cbn.
    rewrite F1, F2, F3, F4, F5, F6. repeat split.
  - intros Hl.
    destruct (flush_listening commits h Hl D3) as (G1 & G2 & G3 & G4 & G5 & G6 & _).
    subst s'. unfold step. rewrite Eh, G1, G2, G3, G4, G5, G6.
    cbn. repeat split. exact Hp.
Qed.

Lemma final_transcript_dispatch_witness :
  let s := run (init true true)
             (toListening ++
              [EvAdvance 1000; EvResult [("what time is it"%js, false)];
               EvAdvance 1500; EvTimer 1])%list in
  let s' := step s (EvResult [("what time is it"%js, true)]) in
  sent s' = ["what time is it"%js] /\
  pending s' = [(0%nat, false)] /\
  processingRef s' = true /\ status s' = Processing /\
  lastTranscriptRef s' = "what time is it"%js /\ isListening s' = false.
Proof.
  refine (proj1 (final_transcript_dispatch _
                   [("what time is it"%js, true)] _ _ _ _ _ _ _) _ _);
    vm_compute; congruence.
Defined.

(** ** Steps that need no commit, and resuming *)

Lemma step_no_commit (s : State) (e : Event) :
  settled (handle e s) -> step s e = handle e s.
Proof. intros H. unfold step. now apply flush_settled_id. Qed.

Lemma step_advance (s : State) (dt : Z) :
  settled s -> 0 <= dt -> step s (EvAdvance dt) = set_clock (clock s + dt) s.
Proof.
  intros Hs Hdt.
  assert (E : handle (EvAdvance dt) s = set_clock (clock s + dt) s).
  { cbn [handle]. now rewrite (proj2 (Z.leb_le 0 dt) Hdt). }
  rewrite step_no_commit; rewrite E; [reflexivity | exact Hs].
Qed.

Lemma find_fresh (l : list Timer) (n : nat) (t : Timer) :
  Forall (fun u => (tid u < n)%nat) l -> tid t = n ->
  find (fun u => (tid u =? n)%nat) (l ++ [t]) = Some t.
Proof.
  intros H Ht. induction H as [|u l Hu _ IH]; cbn.
  - now rewrite Ht, Nat.eqb_refl.
  - replace (tid u =? n)%nat with false; [exact IH|].
    symmetry. apply Nat.eqb_neq. lia.
Qed.

Lemma timerInv_fresh (s : State) :
  timerInv s -> Forall (fun u => (tid u < nextTimerId s)%nat) (timers s).
Proof.
  intros (_ & _ & H). eapply Forall_impl; [|exact H]. cbn. intros u Hu. lia.
Qed.

(** Firing the timer that was set last. *)
Lemma fire_fresh (l : list Timer) (n : nat) (d : Z) (a : TimerAction)
  (x : State) :
  Forall (fun u => (tid u < n)%nat) l ->
  timers x = (l ++ [{| tid := n; due := d; act := a |}])%list ->
  handle (EvTimer n) x =
  if d <=? clock x then runTimer a (clearTimeout n x) else x.
Proof.
  intros Hl Ht. cbn [handle]. unfold find_timer. rewrite Ht.
  now rewrite (find_fresh l n {| tid := n; due := d; act := a |} Hl eq_refl).
Qed.

Lemma render_quiet_text (x : State) :
  willArm x = false -> willDispatch x = false ->
  currentTranscript (render x) = currentTranscript x.
Proof.
  intros WA WD. unfold render, afterStatus, afterFinal.
  assert (E1 : afterSilence x = x).
  { unfold afterSilence. unfold willArm in WA.
    destruct (silenceDepsSame x); [reflexivity|].
    unfold silenceEffect. cbn in WA. now rewrite WA. }
  rewrite E1.
  assert (E2 : (if finalDepsSame x then x else finalEffect x x) = x).
  { unfold willDispatch in WD. destruct (finalDepsSame x); [reflexivity|].
    apply finalEffect_skip. exact WD. }
  rewrite E2. cbn.
  destruct (statusDepsSame x); [reflexivity|].
  now destruct (statusEffect_frame x x) as (-> & _).
Qed.

(** Commits once the recogniser has been (re)started with nothing held:
    the state is Listening and stays so, and nothing is dispatched. *)
Lemma flush_resume (n : nat) (h : State) :
  isListening h = true -> isSpeaking h = false ->
  processingRef h = false -> status h = Listening ->
  interimTranscript h = ""%js ->
  status (flush n h) = Listening /\ isListening (flush n h) = true /\
  sent (flush n h) = sent h /\ processingRef (flush n h) = false /\
  currentTranscript (flush n h) = currentTranscript h /\
  timers (flush n h) = timers h /\ pending (flush n h) = pending h.
Proof.
  intros Hl Hs Hp Hst Hi.
  enough (H : (status (flush n h) = Listening /\
               isListening (flush n h) = true /\
               sent (flush n h) = sent h /\
               processingRef (flush n h) = false /\
               currentTranscript (flush n h) = currentTranscript h /\
               timers (flush n h) = timers h /\
               pending (flush n h) = pending h) /\
              isSpeaking (flush n h) = false /\
              interimTranscript (flush n h) = ""%js) by tauto.
  apply (flush_preserves
           (fun y => (status y = Listening /\ isListening y = true /\
                      sent y = sent h /\ processingRef y = false /\
                      currentTranscript y = currentTranscript h /\
                      timers y = timers h /\ pending y = pending h) /\
                     isSpeaking y = false /\
                     interimTranscript y = ""%js));
    [|repeat split; assumption].
  intros y ((H1 & H2 & H3 & H4 & H5 & H6 & H7) & H8 & H9).
  assert (WD : willDispatch y = false).
  { unfold willDispatch. rewrite H2. cbn. now rewrite !andb_false_r. }
  assert (WA : willArm y = false).
  { unfold willArm. rewrite H9. cbn. now rewrite andb_false_r. }
  destruct (render_no_dispatch y WD) as (-> & -> & _ & -> & _ & ->).
  destruct (render_no_arm y WA) as (-> & _).
  rewrite (render_quiet_text y WA WD).
  destruct (render_browser y) as (-> & _).
  pose proof (render_status y WD) as St. rewrite H4, H8, H2, H1 in St.
  rewrite orb_false_r in St.
  assert (St' : (status (render y), isListening (render y)) = (Listening, true))
    by (now destruct (statusDepsSame y)).
  apply pair_equal_spec in St' as [-> ->]. repeat split; assumption.
Qed.

(** C6, as stated, fails: when the backend call of the dispatched turn
    fails, the flag is clear at once, with the recovery timer still 2000
    units away, not only after that delay. *)
Lemma failure_clears_flag_before_delay :
  let s := run (init true true) (dispatched ++ [EvAdvance 400])%list in
  let s' := step s (EvFail 0) in
  processingRef s = true /\ pending s = [(0%nat, false)] /\
  status s' = Error /\ processingRef s' = false /\
  timers s' = [{| tid := 2; due := clock s' + 2000; act := TErrorRecover |}].
Proof. vm_compute. repeat split. Qed.

(** Listening can come back before the recovery timer is due, through
    another timer: the turn was started by a cancel (see C8), whose resume
    timer is still pending when the call fails; it fires 400 units after
    the failure and starts the recogniser. *)
Lemma listening_returns_early_by_pending_resume :
  let s := run (init true true)
             (heardFinal ++ [EvClickCancel; EvAdvance 100; EvFail 0])%list in
  let s' := run s [EvAdvance 400; EvTimer 2] in
  (status s = Error /\ isListening s = false /\
   In {| tid := 3; due := clock s + 2000; act := TErrorRecover |} (timers s)) /\
  (status s' = Listening /\ isListening s' = true /\
   In {| tid := 3; due := clock s' + 1600; act := TErrorRecover |} (timers s')).
Proof. vm_compute. intuition. Qed.

(** C6, amended.  When the backend call of a dispatched turn fails, the
    controller clears the flag at once, enters Error and shows an error
    text, and sets a timer 2000 units ahead; nothing is posted.  The timer
    cannot fire earlier, and while only time passes nothing but the clock
    changes: the state stays Error.  When the timer fires after 2000 units
    (recognition supported, synthesiser silent) the state is Listening
    with the input adapter active and the text cleared, and still nothing
    has been posted: the failed utterance is not retried. *)
Theorem backend_failure_recovery (s : State) (i : nat) (c : bool) :
  reachable s -> In (i, c) (pending s) ->
  let s1 := step s (EvFail i) in
  let id := nextTimerId s in
  (status s1 = Error /\
   currentTranscript s1 = "Sorry, something went wrong"%js /\
   (needsPermission s = false ->
    getStatusText s1 = "Oops! Something went wrong"%js) /\
   processingRef s1 = false /\ sent s1 = sent s /\
   pending s1 = filter (fun p => negb (fst p =? i)%nat) (pending s) /\
   timers s1 = (timers s ++ [{| tid := id; due := clock s + 2000;
                                act := TErrorRecover |}])%list) /\
  (forall dt, 0 <= dt < 2000 ->
     step s1 (EvAdvance dt) = set_clock (clock s1 + dt) s1 /\
     status (step s1 (EvAdvance dt)) = Error /\
     isListening (step s1 (EvAdvance dt)) = isListening s /\
     processingRef (step s1 (EvAdvance dt)) = false /\
     step (step s1 (EvAdvance dt)) (EvTimer id) = step s1 (EvAdvance dt)) /\
  (recIsSupported s = true -> isSpeaking s = false ->
   let s2 := step (step s1 (EvAdvance 2000)) (EvTimer id) in
   status s2 = Listening /\ isListening s2 = true /\
   currentTranscript s2 = ""%js /\ processingRef s2 = false /\
   sent s2 = sent s /\ pending s2 = pending s1).
Proof.
  intros R P s1 id.
  pose proof (reachable_settled s R) as Hs.
  pose proof (timerInv_fresh s (timerInv_reachable s R)) as Fr.
  destruct (In_find_pending s i c P) as (p & F).
  assert (E : s1 = onFailure (remove_pending i s))
    by (apply (step_fail s i p); assumption).
  assert (S1 : settled s1) by apply step_settled.
  assert (T1 : timers s1 = (timers s ++ [{| tid := id; due := clock s + 2000;
                                           act := TErrorRecover |}])%list)
    by now rewrite E.
  split; [|split].
  - rewrite E. cbn. repeat split.
    intros Hn. unfold getStatusText. cbn. now rewrite Hn.
  - intros dt Hdt.
    assert (Ex : step s1 (EvAdvance dt) = set_clock (clock s1 + dt) s1)
      by (apply step_advance; [exact S1 | lia]).
    rewrite Ex.
    assert (Hh : handle (EvTimer id) (set_clock (clock s1 + dt) s1)
                 = set_clock (clock s1 + dt) s1).
    { rewrite (fire_fresh (timers s) id (clock s + 2000) TErrorRecover);
        [|exact Fr | exact T1].
      replace (clock s + 2000 <=? clock (set_clock (clock s1 + dt) s1))
        with false; [reflexivity|].
      symmetry. apply Z.leb_gt. cbn. rewrite E. cbn. lia. }
    split; [reflexivity|].
    split; [cbn; now rewrite E|].
    split; [cbn; now rewrite E|].
    split; [cbn; now rewrite E|].
    rewrite step_no_commit; rewrite Hh; [reflexivity | exact S1].
  - intros Hrec Hsp s2.
    assert (Ex : step s1 (EvAdvance 2000) = set_clock (clock s1 + 2000) s1)
      by (apply step_advance; [exact S1 | lia]).
    subst s2. rewrite Ex. unfold step.
    rewrite (fire_fresh (timers s) id (clock s + 2000) TErrorRecover);
      [|exact Fr | exact T1].
    replace (clock s + 2000 <=? clock (set_clock (clock s1 + 2000) s1))
      with true by (symmetry; apply Z.leb_le; cbn; rewrite E; cbn; lia).
    set (h := runTimer TErrorRecover _).
    assert (Hh : isListening h = true /\ isSpeaking h = false /\
                 processingRef h = false /\ status h = Listening /\
                 interimTranscript h = ""%js /\
                 currentTranscript h = ""%js /\ sent h = sent s /\
                 pending h = pending s1).
    { subst h. unfold runTimer, startListening. cbn.
      replace (recIsSupported s1) with true by (now rewrite E).
      cbn. rewrite E. cbn. repeat split. exact Hsp. }
    destruct Hh as (h1 & h2 & h3 & h4 & h5 & h6 & h7 & h8).
    destruct (flush_resume commits h h1 h2 h3 h4 h5)
      as (-> & -> & -> & -> & -> & _ & ->).
    repeat split; assumption.
Qed.

Lemma backend_failure_recovery_witness :
  let s := run (init true true) (dispatched ++ [EvAdvance 400])%list in
  let s2 := step (step (step s (EvFail 0)) (EvAdvance 2000)) (EvTimer 2) in
  status s2 = Listening /\ isListening s2 = true /\
  currentTranscript s2 = ""%js /\ processingRef s2 = false /\
  sent s2 = ["what time is it"%js] /\ pending s2 = [].
Proof.
  assert (R : reachable (run (init true true) (dispatched ++ [EvAdvance 400])))
    by (now eexists true, true, _).
  assert (P : In (0%nat, false)
                (pending (run (init true true) (dispatched ++ [EvAdvance 400]))))
    by (vm_compute; now left).
  exact (proj2 (proj2 (backend_failure_recovery _ 0%nat false R P))
           eq_refl eq_refl).
Defined.

(** A commit in which only the status effect can run. *)
Lemma render_status_only (h : State) :
  silenceDepsSame h = true -> finalDepsSame h = true ->
  willArm h = false /\ willDispatch h = false.
Proof.
  intros D1 D2. unfold willArm, willDispatch. now rewrite D1, D2.
Qed.

(** C7, as stated, fails: the state is Speaking as soon as the reply is
    handed to the synthesiser, before the utterance has started; an
    interrupt in that state changes nothing, and the reply stays queued
    with the flag set. *)
Lemma interrupt_ignored_before_utterance_starts :
  let s := run (init true true) replyQueued in
  status s = Speaking /\ isSpeaking s = false /\ processingRef s = true /\
  utterance s = Some {| uText := "it's three o'clock";
                        uOnEnd := OnReply false; uStarted := false |} /\
  step s EvClickContainer = s.
Proof. vm_compute. repeat split. Qed.

(** C7, amended.  The interrupt acts exactly when the output adapter
    reports that it is speaking ([isSpeaking]), whatever the state shows.
    Then it stops the output adapter at once, clears the flag, the
    transcript and the response, shows Listening and sets a timer 300 units
    ahead; when that timer fires (recognition supported) the input adapter
    is started.  When the output adapter is not speaking the interrupt
    changes nothing. *)
Theorem interrupt_protocol (s : State) :
  reachable s ->
  (isSpeaking s = false -> step s EvClickContainer = s) /\
  (isSpeaking s = true ->
   let s1 := step s EvClickContainer in
   let id := nextTimerId s in
   (isSpeaking s1 = false /\ utterance s1 = None /\
    processingRef s1 = false /\ status s1 = Listening /\
    currentTranscript s1 = ""%js /\ lastResponse s1 = ""%js /\
    sent s1 = sent s /\
    timers s1 = (timers s ++ [{| tid := id; due := clock s + 300;
                                 act := TInterruptResume |}])%list) /\
   (recIsSupported s = true ->
    let s2 := step (step s1 (EvAdvance 300)) (EvTimer id) in
    isListening s2 = true /\ status s2 = Listening /\
    isSpeaking s2 = false /\ processingRef s2 = false /\
    sent s2 = sent s)).
Proof.
  intros R.
  pose proof (reachable_settled s R) as Hs.
  pose proof (timerInv_fresh s (timerInv_reachable s R)) as Fr.
  destruct (adapterInv_reachable s R) as (_ & Hsup & _).
  split.
  - intros Hsp. rewrite step_no_commit; cbn [handle]; unfold handleInterrupt;
      rewrite Hsp; [reflexivity | exact Hs].
  - intros Hsp s1 id.
    set (h := handle EvClickContainer s).
    assert (Hh : isSpeaking h = false /\ utterance h = None /\
                 processingRef h = false /\ status h = Listening /\
                 currentTranscript h = ""%js /\
                 lastResponse h = ""%js /\ sent h = sent s /\
                 timers h = (timers s ++ [{| tid := id; due := clock s + 300;
                                             act := TInterruptResume |}])%list /\
                 isListening h = isListening s /\ clock h = clock s /\
                 recIsSupported h = recIsSupported s /\
                 silenceDepsSame h = silenceDepsSame s /\
                 finalDepsSame h = finalDepsSame s /\
                 statusDepsSame h = false).
    { subst h. cbn [handle]. unfold handleInterrupt, stopSpeaking.
      rewrite Hsp, (Hsup Hsp). cbn. repeat split.
      destruct (settled_depsSame s Hs) as (_ & _ & D3).
      unfold statusDepsSame in *. cbn. rewrite Hsp in D3.
      apply andb_prop in D3 as [_ D3]. apply Bool.eqb_prop in D3.
      rewrite D3. now rewrite andb_false_r. }
    destruct Hh as (h1 & h2 & h3 & h4 & h5 & h6 & h7 & h8 & h9 & h10 & h11
                    & d1 & d2 & d3).
    destruct (settled_depsSame s Hs) as (D1 & D2 & _).
    rewrite D1 in d1. rewrite D2 in d2.
    destruct (render_status_only h d1 d2) as (WA & WD).
    assert (Est : status (render h) = Listening /\
                  isListening (render h) = isListening h).
    { pose proof (render_status h WD) as St.
      rewrite d3, h3, h1, h4 in St. cbn [orb] in St.
      destruct (isListening h); apply pair_equal_spec in St; tauto. }
    destruct Est as (Est & Eli).
    assert (E1 : s1 = render h).
    { subst s1. unfold step. fold h. apply flush_one.
      - unfold dirty. now rewrite d3, !andb_false_r.
      - apply (render_keeps_listening_settled h WD Eli). }
    assert (F : isSpeaking s1 = false /\ utterance s1 = None /\
                processingRef s1 = false /\ status s1 = Listening /\
                currentTranscript s1 = ""%js /\
                lastResponse s1 = ""%js /\ sent s1 = sent s /\
                timers s1 = (timers s ++ [{| tid := id; due := clock s + 300;
                                             act := TInterruptResume |}])%list /\
                clock s1 = clock s /\ recIsSupported s1 = recIsSupported s).
    { rewrite E1.
      destruct (render_browser h)
        as (-> & _ & _ & -> & -> & -> & _ & _ & -> & _).
      destruct (render_no_dispatch h WD) as (-> & _ & _ & -> & _).
      destruct (render_no_arm h WA) as (-> & _).
      rewrite (render_quiet_text h WA WD), Est.
      repeat split; assumption. }
    destruct F as (f1 & f2 & f3 & f4 & f5 & f6 & f7 & f8 & f9 & f10).
    split; [repeat split; assumption|].
    intros Hrec s2.
    assert (S1 : settled s1) by apply step_settled.
    assert (Ex : step s1 (EvAdvance 300) = set_clock (clock s1 + 300) s1)
      by (apply step_advance; [exact S1 | lia]).
    subst s2. rewrite Ex. unfold step.
    rewrite (fire_fresh (timers s) id (clock s + 300) TInterruptResume);
      [|exact Fr | exact f8].
    replace (clock s + 300 <=? clock (set_clock (clock s1 + 300) s1))
      with true by (symmetry; apply Z.leb_le; cbn; lia).
    set (h' := runTimer TInterruptResume _).
    assert (Hh : isListening h' = true /\ isSpeaking h' = false /\
                 processingRef h' = false /\ status h' = Listening /\
                 interimTranscript h' = ""%js /\ sent h' = sent s).
    { subst h'. unfold runTimer, startListening. cbn.
      rewrite f10, Hrec. cbn. repeat split; assumption. }
    destruct Hh as (g1 & g2 & g3 & g4 & g5 & g6).
    destruct (flush_resume commits h' g1 g2 g3 g4 g5)
      as (-> & -> & -> & -> & _).
    repeat split; try assumption.
    pose proof (flush_preserves (fun y => isSpeaking y = false)) as FP.
    apply FP; [|exact g2].
    intros y Hy. now destruct (render_browser y) as (-> & _).
Qed.

Lemma interrupt_protocol_witness :
  let s := run (init true true) replySpeaking in
  let s1 := step s EvClickContainer in
  let s2 := step (step s1 (EvAdvance 300)) (EvTimer 3) in
  (isSpeaking s1 = false /\ utterance s1 = None /\
   processingRef s1 = false /\ status s1 = Listening) /\
  isListening s2 = true /\ status s2 = Listening /\
  sent s2 = ["what time is it"%js].
Proof.
  assert (R : reachable (run (init true true) replySpeaking))
    by (now eexists true, true, _).
  destruct (proj2 (interrupt_protocol _ R) eq_refl)
    as ((a1 & a2 & a3 & a4 & _) & H).
  destruct (H eq_refl) as (b1 & b2 & _ & _ & b3).
  exact (conj (conj a1 (conj a2 (conj a3 a4))) (conj b1 (conj b2 b3))).
Defined.

(** ** The flag *)

Lemma handle_flag_kept (e : Event) (s : State) :
  clearsFlag e = false -> processingRef (handle e s) = processingRef s.
Proof. destruct e; cbn; try discriminate; intros _; handler_cases; reflexivity. Qed.

Lemma flush_flag_stays (n : nat) (y : State) :
  processingRef y = true -> processingRef (flush n y) = true.
Proof.
  intros H. destruct (flush_flag_set n y H) as (d & ->). exact H.
Qed.

(** Commits that dispatch end in Processing with the input adapter
    stopped and the flag set. *)
Lemma flush_dispatched (n : nat) (h : State) :
  sent (flush n h) <> sent h ->
  processingRef (flush n h) = true /\ isListening (flush n h) = false /\
  status (flush n h) = Processing.
Proof.
  intros H.
  assert (P : sent (flush n h) = sent h \/
              (processingRef (flush n h) = true /\
               isListening (flush n h) = false /\
               status (flush n h) = Processing)).
  { apply (flush_preserves
             (fun y => sent y = sent h \/
                       (processingRef y = true /\ isListening y = false /\
                        status y = Processing))); [|now left].
    intros y [E | (F & G & I)].
    - destruct (willDispatch y) eqn:W.
      + right. destruct (render_dispatch y W)
          as (_ & _ & _ & -> & -> & -> & _). repeat split.
      + left. destruct (render_no_dispatch y W) as (-> & _). exact E.
    - right. rewrite (render_flag_set y F). cbn. repeat split; assumption. }
  destruct P as [E | P]; [contradiction | exact P].
Qed.

(** C3, as stated, fails: the flag set by the second turn is cleared by the
    failure of the first, cancelled, turn while the second is still in
    flight. *)
Lemma stale_failure_clears_flag :
  let s := run (init true true) overlapped in
  let s' := step s (EvFail 0) in
  sent s = ["what time is it"%js; "never mind"%js] /\
  pending s = [(0%nat, false); (1%nat, false)] /\
  processingRef s = true /\
  processingRef s' = false /\ pending s' = [(1%nat, false)].
Proof. vm_compute. repeat split. Qed.

(** C3, amended.  The flag is set in the very step that posts a turn.  Once
    set it is cleared only by the end of an utterance, a backend failure,
    the interrupt or the cancel, of whichever turn: the controller keeps no
    record of which turn the event belongs to.  While the flag is set, a
    recognition result (interim or final) posts nothing, arms no pause
    timer and leaves the adapter and the state as they are, and a pause
    timer that fires does not stop listening. *)
Theorem processing_flag_discipline (s : State) (e : Event) :
  settled s ->
  (sent (step s e) <> sent s -> processingRef (step s e) = true) /\
  (processingRef s = true -> processingRef (step s e) = false ->
   clearsFlag e = true) /\
  (processingRef s = true ->
   forall results,
     let s' := step s (EvResult results) in
     sent s' = sent s /\ pending s' = pending s /\ timers s' = timers s /\
     isListening s' = isListening s /\ status s' = status s /\
     processingRef s' = true) /\
  (processingRef s = true ->
   forall id t b text,
     find_timer id s = Some t -> act t = TSilence b text ->
     let s' := step s (EvTimer id) in
     isListening s' = isListening s /\ sent s' = sent s /\
     status s' = status s /\ processingRef s' = true).
Proof.
  intros Hs. split; [|split; [|split]].
  - intros H. unfold step in *. rewrite <- (handle_sent e s) in H.
    now apply flush_dispatched.
  - intros Hp Hc. destruct (clearsFlag e) eqn:C; [reflexivity|].
    unfold step in Hc. rewrite flush_flag_stays in Hc; [discriminate|].
    now rewrite handle_flag_kept.
  - intros Hp results s'. subst s'. unfold step.
    assert (Hf : processingRef (handle (EvResult results) s) = true)
      by now rewrite handle_flag_kept.
    destruct (flush_flag_set commits _ Hf) as (d & ->).
    cbn [handle]. destruct (recStarted s); [|cbn; repeat split; exact Hp].
    unfold onresult. destruct (truthy (finalOf results)); cbn;
      repeat split; exact Hp.
  - intros Hp id t b text Ft Ha s'. subst s'. unfold step.
    assert (Hf : processingRef (handle (EvTimer id) s) = true)
      by now rewrite handle_flag_kept.
    destruct (flush_flag_set commits _ Hf) as (d & ->).
    cbn [handle]. rewrite Ft. destruct (due t <=? clock s);
      [|cbn; repeat split; exact Hp].
    rewrite Ha. unfold runTimer. cbn. rewrite Hp, andb_false_r. cbn.
    repeat split; exact Hp.
Qed.

Lemma processing_flag_discipline_witness :
  let s := run (init true true) dispatched in
  let s' := step s (EvResult [("hello there"%js, true)]) in
  processingRef s = true /\ sent s' = sent s /\ timers s' = timers s /\
  processingRef s' = true.
Proof.
  assert (S : settled (run (init true true) dispatched))
    by (apply run_settled, init_settled).
  destruct (processing_flag_discipline _ (EvResult []) S) as (_ & _ & H & _).
  destruct (H eq_refl [("hello there"%js, true)])
    as (a & _ & b & _ & _ & c).
  exact (conj eq_refl (conj a (conj b c))).
Defined.

(** ** The audio channel *)

Lemma render_channel (y : State) :
  processingRef (render y) = false -> statusDepsSame y = false ->
  channelOk (render y).
Proof.
  intros Hp Hd.
  assert (W : willDispatch y = false).
  { destruct (willDispatch y) eqn:W; [|reflexivity].
    destruct (render_dispatch y W) as (_ & _ & _ & G & _). congruence. }
  destruct (render_no_dispatch y W) as (_ & _ & _ & Hp' & _).
  rewrite Hp in Hp'. pose proof (render_status y W) as St.
  rewrite Hd, <- Hp' in St. cbn [orb] in St.
  destruct (render_browser y) as (Hs & _). unfold channelOk. rewrite Hs.
  destruct (isSpeaking y), (isListening y);
    apply pair_equal_spec in St as [-> ->]; split; intros; try discriminate;
    auto.
Qed.

Lemma render_activity_kept (y : State) :
  processingRef (render y) = false -> statusDepsSame y = true ->
  status (render y) = status y /\ isListening (render y) = isListening y /\
  isSpeaking (render y) = isSpeaking y.
Proof.
  intros Hp Hd.
  assert (W : willDispatch y = false).
  { destruct (willDispatch y) eqn:W; [|reflexivity].
    destruct (render_dispatch y W) as (_ & _ & _ & G & _). congruence. }
  pose proof (render_status y W) as St. rewrite Hd in St. cbn [orb] in St.
  apply pair_equal_spec in St as [-> ->].
  now destruct (render_browser y) as (-> & _).
Qed.

(** The state is ahead of the adapters by design: right after the session
    is started the state is Listening while the input adapter is not
    active (the greeting is still to be spoken). *)
Lemma listening_state_without_input :
  let s := run (init true true) [EvClickStart] in
  status s = Listening /\ isListening s = false /\ isSpeaking s = false.
Proof. vm_compute. repeat split. Qed.

(** What the status effect does enforce.  Every step that ends with the
    flag clear and has changed whether an adapter is active ends with the
    channel in order: if the output adapter is active the state is Speaking
    and the input adapter is stopped, and if only the input adapter is
    active the state is Listening.  Every step that posts a turn ends with
    the input adapter stopped, the flag set and the state Processing.
    Nothing is enforced while the flag is set. *)
Theorem status_effect_mutual_exclusion (s : State) (e : Event) :
  settled s ->
  let s' := step s e in
  (processingRef s' = false ->
   isListening s' <> isListening s \/ isSpeaking s' <> isSpeaking s ->
   (isSpeaking s' = true -> status s' = Speaking /\ isListening s' = false) /\
   (isSpeaking s' = false -> isListening s' = true -> status s' = Listening))
  /\
  (sent s' <> sent s ->
   isListening s' = false /\ processingRef s' = true /\
   status s' = Processing).
Proof.
  intros Hs s'. split.
  - intros Hp Hch.
    pose (I := fun y : State =>
                 statusDepsSame y = true ->
                 (isListening y = isListening s /\ isSpeaking y = isSpeaking s)
                 \/ channelOk y).
    assert (P : processingRef s' = true \/ I s').
    { apply (flush_preserves (fun y => processingRef y = true \/ I y)).
      - intros y [F | Iy]; [left; now rewrite (render_flag_set y F)|].
        destruct (processingRef (render y)) eqn:F; [now left | right].
        intros D. destruct (statusDepsSame y) eqn:Dy.
        + destruct (render_activity_kept y F Dy) as (E1 & E2 & E3).
          destruct (Iy Dy) as [(A & B) | (C1 & C2)].
          * left. split; congruence.
          * right. unfold channelOk. rewrite E1, E2, E3. now split.
        + right. now apply render_channel.
      - right. intros D. left.
        assert (Ed : deps (handle e s) = deps s)
          by (destruct e; handler_cases; reflexivity).
        apply settled_iff in Hs.
        unfold statusDepsSame in D. rewrite Ed, Hs in D. cbn in D.
        apply andb_prop in D as [D1 D2].
        apply Bool.eqb_prop in D1, D2. split; congruence. }
    destruct P as [F | Is']; [congruence|].
    destruct (settled_depsSame s' (step_settled s e)) as (_ & _ & D).
    destruct (Is' D) as [(A & B) | C]; [|exact C].
    destruct Hch; contradiction.
  - intros H. subst s'. unfold step in *.
    rewrite <- (handle_sent e s) in H.
    destruct (flush_dispatched commits _ H) as (A & B & C).
    repeat split; assumption.
Qed.

Lemma status_effect_mutual_exclusion_witness :
  let s := run (init true true) [EvClickStart] in
  let s' := step s EvUttStart in
  status s' = Speaking /\ isListening s' = false.
Proof.
  assert (S : settled (run (init true true) [EvClickStart]))
    by (apply run_settled, init_settled).
  refine (proj1 (proj1 (status_effect_mutual_exclusion _ EvUttStart S)
                   eq_refl _) eq_refl).
  right. vm_compute. discriminate.
Defined.

(** C1: the code at the failing input.  A turn is dispatched and its call
    fails: the flag is cleared and the recovery timer is set 2000 units
    ahead.  Before it is due the recogniser, already stopped, delivers one
    more final transcript, which is dispatched as the next turn; the reply
    arrives and the synthesiser starts to speak it.  Then the recovery
    timer of the failed turn fires and starts the recogniser.  The flag is
    set, so the status effect, whose comment reads "Ensure listening is
    stopped while speaking", returns at once: both adapters are active,
    and the state is Listening while the reply is being spoken. *)
Lemma both_adapters_active_during_reply :
  let s := run (init true true)
             (dispatched ++
              [EvAdvance 400; EvFail 0; EvAdvance 100;
               EvResult [("tell me a joke"%js, true)];
               EvAdvance 500; EvReply 1 "knock knock"; EvAdvance 200;
               EvTimer 3; EvAdvance 30; EvUttStart])%list in
  let s' := run s [EvAdvance 1170; EvTimer 2] in
  (status s = Speaking /\ isSpeaking s = true /\ isListening s = false /\
   processingRef s = true /\
   timers s = [{| tid := 2; due := clock s + 1170; act := TErrorRecover |}]) /\
  (isListening s' = true /\ isSpeaking s' = true /\ status s' = Listening /\
   processingRef s' = true /\
   utterance s' = Some {| uText := "knock knock"; uOnEnd := OnReply false;
                          uStarted := true |}).
Proof. vm_compute. repeat split. Qed.

(** ** Cancel *)

(** C8: the code at the failing input.  The recogniser has finalised
    "what time is it" and is still listening when the user cancels.  The
    first cancel stops listening, which makes the final-transcript effect
    run with the flag just cleared: the held utterance is posted, the flag
    is set and the state is Processing.  A second cancel clears the flag
    and shows Idle, so cancelling twice is not cancelling once, and neither
    leaves the text cleared with nothing posted. *)
Lemma cancel_dispatches_held_final :
  let s := run (init true true) heardFinal in
  let once := step s EvClickCancel in
  let twice := step once EvClickCancel in
  (isListening s = true /\ transcript s = "what time is it"%js /\
   processingRef s = false /\ sent s = []) /\
  (sent once = ["what time is it"%js] /\ processingRef once = true /\
   status once = Processing /\
   currentTranscript once = "what time is it"%js) /\
  (sent twice = ["what time is it"%js] /\ processingRef twice = false /\
   status twice = Idle /\ currentTranscript twice = ""%js).
Proof. vm_compute. repeat split. Qed.

(** The same race continued: the resume timer of the cancel starts the
    recogniser while the turn is in flight (the old pause timer fires in
    between and, the flag being set, does nothing), the reply is spoken
    with the flag set, so that the status effect returns early, and both
    adapters are active at once. *)
Lemma cancel_race_both_adapters_active :
  let s := run (init true true)
             (heardFinal ++
              [EvClickCancel; EvAdvance 500; EvTimer 2;
               EvAdvance 300; EvReply 0 "it's three o'clock";
               EvAdvance 100; EvTimer 1; EvAdvance 100; EvTimer 3;
               EvAdvance 30; EvUttStart])%list in
  isListening s = true /\ isSpeaking s = true /\ processingRef s = true /\
  status s = Speaking.
Proof. vm_compute. repeat split. Qed.

Lemma handleCancel_supported (s : State) :
  synthIsSupported s = true ->
  handleCancel s =
  setTimeout TCancelResume 500
    (set_lastResponse ""
       (set_currentTranscript ""
          (set_status Idle
             (set_processingRef false
                (set_isSpeaking false
                   (set_utterance None (stopListening s))))))).
Proof. intros H. unfold handleCancel, stopSpeaking. cbn. now rewrite H. Qed.

(** With no final transcript held, a cancel needs no effect: the step is
    the handler followed by a commit that only records the dependencies. *)
Lemma step_cancel (s : State) :
  settled s -> synthIsSupported s = true ->
  needsPermission s = false -> isSpeaking s = false ->
  transcript s = ""%js ->
  step s EvClickCancel = set_deps (depsOf (handleCancel s)) (handleCancel s).
Proof.
  intros Hs Hsup Hn Hsp Ht. set (h := handleCancel s).
  assert (Eh : handle EvClickCancel s = h)
    by (cbn [handle]; now rewrite Hn, Hsp).
  assert (F : isListening h = false /\ processingRef h = false /\
              isSpeaking h = false /\ transcript h = ""%js).
  { subst h. unfold handleCancel, stopSpeaking. cbn. rewrite Hsup. cbn.
    repeat split. exact Ht. }
  destruct F as (Hl & Hp & Hsp' & Ht').
  assert (A1 : afterSilence h = h).
  { unfold afterSilence, silenceEffect. rewrite Hl, andb_false_r.
    now destruct (silenceDepsSame h). }
  assert (A2 : afterFinal h = h).
  { unfold afterFinal. rewrite A1. unfold finalEffect. rewrite Ht'.
    now destruct (finalDepsSame h). }
  assert (A3 : afterStatus h = h).
  { unfold afterStatus. rewrite A2. unfold statusEffect.
    rewrite Hp, Hsp', Hl. now destruct (statusDepsSame h). }
  assert (Er : render h = set_deps (depsOf h) h)
    by (unfold render; now rewrite A3).
  unfold step. rewrite Eh. destruct (dirty h) eqn:D.
  - rewrite flush_one; [exact Er | exact D |].
    apply render_settled_if. now rewrite Er.
  - rewrite flush_settled_id by exact D.
    apply settled_iff in D. rewrite <- D. symmetry. apply set_deps_eta.
Qed.


(** ** Synthesis unsupported *)

Lemma muteInv_handle (x : State) (e : Event) : muteInv x -> muteInv (handle e x).
Proof.
  unfold muteInv. destruct x. cbn. intros (-> & -> & -> & -> & -> & -> & -> & ->).
  destruct e; cbn; unfold find_timer, find_pending; cbn;
    repeat match goal with
           | |- context [if ?c then _ else _] => destruct c
           end; cbn; repeat split.
Qed.

Lemma muteInv_render (x : State) : muteInv x -> muteInv (render x).
Proof.
  intros (H1 & H2 & H3 & H4 & H5 & H6 & H7 & H8). unfold muteInv.
  assert (WD : willDispatch x = false).
  { unfold willDispatch. rewrite H8. cbn. now rewrite andb_false_r. }
  assert (WA : willArm x = false).
  { unfold willArm. rewrite H2. cbn. now rewrite !andb_false_r. }
  destruct (render_browser x) as (-> & _ & _ & -> & _ & _ & -> & -> & _).
  destruct (render_no_dispatch x WD) as (_ & -> & _ & _ & -> & _).
  destruct (render_no_arm x WA) as (-> & _).
  rewrite (render_not_listening x WD H2). repeat split; assumption.
Qed.

(** C9. Where speech synthesis is unsupported, [speak] returns the state
    unchanged: nothing is queued, so no completion callback can ever be
    invoked.  Consequently, after any sequence of events, the greeting has
    not been spoken, the recogniser has never been started and the input
    adapter is not listening. *)
Theorem unsupported_synthesis_never_listens :
  (forall s text onEnd, synthIsSupported s = false -> speak text onEnd s = s) /\
  (forall rs es,
      let s := run (init rs false) es in
      utterance s = None /\ isSpeaking s = false /\
      recStarted s = false /\ isListening s = false).
Proof.
  split.
  - intros s text onEnd H. unfold speak. now rewrite H.
  - intros rs es s.
    assert (M : muteInv s).
    { apply (run_preserves muteInv muteInv_render
               (fun x e _ => muteInv_handle x e)).
      - apply init_settled.
      - repeat split. }
    destruct M as (_ & H2 & H3 & H4 & H5 & _). repeat split; assumption.
Qed.

Lemma unsupported_synthesis_never_listens_witness :
  speak greeting OnGreeting (init true false) = init true false /\
  isListening
    (run (init true false)
       [EvClickStart; EvAdvance 2000; EvClickContainer; EvClickCancel;
        EvAdvance 500; EvUttEnd]) = false.
Proof.
  destruct unsupported_synthesis_never_listens as (A & B). split.
  - apply A. reflexivity.
  - apply (B true).
Defined.

(** * Further properties *)

(** ** Recognition results *)

Lemma append_assoc (a b c : string) : ((a ++ b) ++ c = a ++ (b ++ c))%js.
Proof. induction a as [|x a IH]; cbn; [reflexivity | now rewrite IH]. Qed.

Lemma append_empty_r (a : string) : (a ++ "" = a)%js.
Proof. induction a as [|x a IH]; cbn; [reflexivity | now rewrite IH]. Qed.

Lemma append_space_nonempty (a b : string) : ((a ++ " ") ++ b <> "")%js.
Proof. destruct a; discriminate. Qed.

Lemma collect_joins (results : list (string * bool)) (i f : string) :
  collect results i f =
  ((i ++ joinAll (map fst (filter (fun r => negb (snd r)) results)))%js,
   (f ++ joinAll (map (fun r => fst r ++ " ")%js (filter snd results)))%js).
Proof.
  revert i f. induction results as [|[t [|]] rest IH]; intros i f; cbn.
  - now rewrite !append_empty_r.
  - rewrite IH. f_equal. now rewrite !append_assoc.
  - rewrite IH. f_equal. now rewrite append_assoc.
Qed.

Lemma finalOf_truthy (results : list (string * bool)) :
  truthy (finalOf results) = existsb snd results.
Proof.
  unfold finalOf. rewrite collect_joins. cbn.
  induction results as [|[t [|]] rest IH]; cbn; [reflexivity | | exact IH].
  apply truthy_true. apply append_space_nonempty.
Qed.

(** X1. [recognition.onresult]: the interim text of an event is its
    non-final transcripts appended, the final text its final transcripts,
    each followed by a space.  When the event has a final result the
    transcript becomes the trimmed final text and the interim text is
    emptied, also when the event carries interim results; otherwise the
    transcript is kept and the interim text replaced. *)
Theorem onresult_final_discards_interim
  (results : list (string * bool)) (s : State) :
  interimOf results
  = joinAll (map fst (filter (fun r => negb (snd r)) results)) /\
  finalOf results
  = joinAll (map (fun r => fst r ++ " ")%js (filter snd results)) /\
  (existsb snd results = true ->
   interimTranscript (onresult results s) = ""%js /\
   transcript (onresult results s) = trim (finalOf results)) /\
  (existsb snd results = false ->
   interimTranscript (onresult results s) = interimOf results /\
   transcript (onresult results s) = transcript s).
Proof.
  split; [|split; [|split]].
  - unfold interimOf. now rewrite collect_joins.
  - unfold finalOf. now rewrite collect_joins.
  - intros H. unfold onresult. rewrite finalOf_truthy, H. now split.
  - intros H. unfold onresult. rewrite finalOf_truthy, H. now split.
Qed.

Lemma onresult_final_discards_interim_witness :
  let s := onresult [("what time"%js, true); (" is it"%js, false)]
             (init true true) in
  interimTranscript s = ""%js /\ transcript s = "what time"%js.
Proof.
  exact (proj1 (proj2 (proj2 (onresult_final_discards_interim
           [("what time"%js, true); (" is it"%js, false)]
           (init true true)))) eq_refl).
Defined.

(** ** The silence delay *)

Lemma wordCount_spaces (text : string) : wordCount text = S (spaces text).
Proof.
  induction text as [|c r IH]; [reflexivity|].
  rewrite wordCount_cons. cbn. destruct (c =? space)%N; now rewrite IH.
Qed.

Lemma spaces_append (a b : string) :
  spaces (a ++ b) = (spaces a + spaces b)%nat.
Proof.
  induction a as [|c r IH]; [reflexivity|].
  cbn. destruct (c =? space)%N; now rewrite IH.
Qed.

(** X2. The silence delay depends on the number of space characters only:
    it is 1200 when the text has at least five of them (leading, trailing
    and doubled spaces count) and 1500 otherwise.  Hence text appended to
    the interim transcript never lengthens the delay. *)
Theorem silenceDelay_by_spaces (text more : string) :
  silenceDelay text = (if (5 <=? spaces text)%nat then 1200 else 1500) /\
  silenceDelay (text ++ more) <= silenceDelay text.
Proof.
  assert (E : forall t, silenceDelay t
                        = if (5 <=? spaces t)%nat then 1200 else 1500).
  { intros t. unfold silenceDelay. rewrite wordCount_spaces.
    destruct (spaces t) as [|[|[|[|[|n]]]]]; reflexivity. }
  split; [apply E|]. rewrite !E, spaces_append.
  destruct (5 <=? spaces text)%nat eqn:A.
  - apply Nat.leb_le in A.
    replace (5 <=? spaces text + spaces more)%nat with true; [lia|].
    symmetry. apply Nat.leb_le. lia.
  - destruct (5 <=? spaces text + spaces more)%nat; lia.
Qed.

(** ** The voices *)

(** X3. [loadVoices] keeps the list of voices and selects a member of it:
    none exactly when the list is empty, an English voice (language
    starting with "en-") whenever there is one, namely the first, and the
    first voice of the list otherwise. *)
Theorem loadVoices_selection (availableVoices : list Voice) :
  let english := fun v => prefix "en-" (voiceLang v) in
  let sel := snd (loadVoices availableVoices) in
  fst (loadVoices availableVoices) = availableVoices /\
  (sel = None <-> availableVoices = []) /\
  (forall v, sel = Some v -> In v availableVoices) /\
  (existsb english availableVoices = true ->
   exists v, sel = Some v /\ english v = true /\
             sel = find english availableVoices) /\
  (existsb english availableVoices = false ->
   sel = hd_error availableVoices).
Proof.
  intros english sel. subst sel. unfold loadVoices. cbn [fst snd].
  fold english.
  split; [reflexivity|]. split; [|split; [|split]].
  - destruct (find english availableVoices) as [v|] eqn:F.
    + split; [discriminate|]. intros ->. discriminate.
    + destruct availableVoices; cbn; split; congruence.
  - intros v. destruct (find english availableVoices) as [w|] eqn:F.
    + intros E. inversion E; subst. now apply find_some in F.
    + destruct availableVoices as [|a l]; cbn; [discriminate|].
      intros E. inversion E. now left.
  - intros H. destruct (find english availableVoices) as [w|] eqn:F.
    + exists w. apply find_some in F. tauto.
    + apply existsb_exists in H as (v & Hv & Ev).
      now rewrite (find_none _ _ F v Hv) in Ev.
  - intros H. destruct (find english availableVoices) as [w|] eqn:F;
      [|reflexivity].
    apply find_some in F as (Hw & Ew).
    assert (X : existsb english availableVoices = true)
      by (apply existsb_exists; now exists w).
    congruence.
Qed.

Lemma loadVoices_selection_witness :
  snd (loadVoices [{| voiceName := "Amelie"; voiceLang := "fr-FR" |};
                   {| voiceName := "Samantha"; voiceLang := "en-US" |}])
  = Some {| voiceName := "Samantha"; voiceLang := "en-US" |}.
Proof.
  destruct (proj1 (proj2 (proj2 (proj2 (loadVoices_selection
              [{| voiceName := "Amelie"; voiceLang := "fr-FR" |};
               {| voiceName := "Samantha"; voiceLang := "en-US" |}]))))
              eq_refl) as (v & E & _ & F).
  rewrite F. reflexivity.
Defined.

(** ** Colours *)

(** X4. For every status string, known or not, the colour of the status
    indicator and the colour of the circular waveform are the same colour,
    the first written in hexadecimal and the second in decimal. *)
Theorem indicator_and_waveform_colours_agree (status : string) :
  exists rgb,
    parseHexColor (infoColor (getStatusInfo status)) = Some rgb /\
    parseRgbList (waveformColor status) = Some rgb.
Proof.
  unfold getStatusInfo, waveformColor.
  destruct (status =? "idle")%js eqn:E0.
  - apply string_eqb_eq in E0. subst status. cbn. eexists. split; reflexivity.
  - destruct (status =? "listening")%js;
      [|destruct (status =? "processing")%js;
        [|destruct (status =? "speaking")%js;
          [|destruct (status =? "error")%js]]];
      eexists; split; reflexivity.
Qed.

(** ** More on handlers and commits *)

(** No handler touches the recorded dependencies. *)
Lemma handle_deps (e : Event) (s : State) : deps (handle e s) = deps s.
Proof. destruct e; handler_cases; reflexivity. Qed.

Lemma flush_browser (n : nat) (h : State) : sameBrowser (flush n h) h.
Proof.
  apply (flush_preserves (fun y => sameBrowser y h));
    [|apply sameBrowser_refl].
  intros y Hy. eapply sameBrowser_trans; [apply render_browser | exact Hy].
Qed.

(** Commits with both adapters inactive and nothing new for the silence
    and final-transcript effects only record the dependencies. *)
Lemma flush_idle (n : nat) (h : State) :
  isListening h = false -> isSpeaking h = false ->
  silenceDepsSame h = true -> finalDepsSame h = true ->
  exists d, flush n h = set_deps d h.
Proof.
  intros Hl Hs D1 D2.
  assert (Er : render h = set_deps (depsOf h) h).
  { unfold render, afterStatus, afterFinal, afterSilence.
    rewrite D1, D2. unfold statusEffect. rewrite Hs, Hl.
    now destruct (statusDepsSame h), (processingRef h). }
  destruct n as [|n]; [exists (deps h); cbn; now rewrite set_deps_eta|].
  rewrite flush_S. destruct (dirty h).
  - rewrite Er. exists (depsOf h). apply flush_settled_id.
    apply settled_iff. reflexivity.
  - exists (deps h). now rewrite set_deps_eta.
Qed.

Lemma settled_handle (e : Event) (s : State) :
  settled s -> depsOf (handle e s) = depsOf s -> settled (handle e s).
Proof.
  intros Hs E. apply settled_iff. rewrite handle_deps, E.
  now apply settled_iff.
Qed.

(** ** Posted messages *)

Lemma trim_headWs (s : string) : headWs (trim s) = false.
Proof.
  unfold trim. destruct (trimStart_shape s) as [E | (c & r & E & W)];
    rewrite E; [reflexivity|].
  rewrite (trimEnd_keep c r W). exact W.
Qed.

Lemma trimEnd_lastWs (s : string) : lastWs (trimEnd s) = false.
Proof.
  induction s as [|c r IH]; [reflexivity|].
  cbn [trimEnd]. destruct (trimEnd r) as [|c' r'] eqn:E.
  - destruct (is_ws c) eqn:W; [reflexivity | cbn; exact W].
  - exact IH.
Qed.

Lemma trim_lastWs (s : string) : lastWs (trim s) = false.
Proof. apply trimEnd_lastWs. Qed.

Lemma handle_transcript (e : Event) (s : State) :
  transcript (handle e s) = transcript s \/
  transcript (handle e s) = ""%js \/
  exists f, transcript (handle e s) = trim f.
Proof. destruct e; handler_cases; eauto. Qed.

Lemma trimInv_handle (x : State) (e : Event) : trimInv x -> trimInv (handle e x).
Proof.
  unfold trimInv. intros (Ht & Hs). rewrite handle_sent. split; [|exact Hs].
  destruct (handle_transcript e x) as [-> | [-> | (f & ->)]];
    [exact Ht | reflexivity | apply trim_idem].
Qed.

Lemma trimInv_render (x : State) : trimInv x -> trimInv (render x).
Proof.
  unfold trimInv. intros (Ht & Hs). destruct (willDispatch x) eqn:W.
  - destruct (render_dispatch x W) as (-> & _ & _ & _ & _ & _ & -> & _).
    destruct (willDispatch_facts x W) as (Hne & _).
    split; [reflexivity|]. apply Forall_app. split; [exact Hs|].
    constructor; [now split | constructor].
  - destruct (render_no_dispatch x W) as (-> & _ & _ & _ & -> & _).
    now split.
Qed.

(** X5. After any sequence of events, every message posted to the backend
    is non-empty and has no white space at either end (it is its own
    trim); the transcript the hook holds, which may be empty, is its own
    trim as well. *)
Theorem posted_messages_trimmed (rs ss : bool) (es : list Event) :
  let s := run (init rs ss) es in
  Forall (fun m => m <> ""%js /\ trim m = m /\
                   headWs m = false /\ lastWs m = false) (sent s) /\
  trim (transcript s) = transcript s.
Proof.
  intros s.
  assert (T : trimInv s).
  { apply (run_preserves trimInv trimInv_render
             (fun x e _ => trimInv_handle x e)).
    - apply init_settled.
    - split; [reflexivity | constructor]. }
  destruct T as (Ht & Hs). split; [|exact Ht].
  eapply Forall_impl; [|exact Hs]. cbn. intros m (Hm & Hn).
  repeat split; try assumption.
  - rewrite <- Hm. apply trim_headWs.
  - rewrite <- Hm. apply trim_lastWs.
Qed.

(** ** Before the start *)

Lemma handle_started (e : Event) (s : State) :
  needsPermission s = false ->
  needsPermission (handle e s) = false /\
  hasStarted (handle e s) = hasStarted s.
Proof.
  intros H. destruct e; handler_cases; split; congruence.
Qed.

Lemma startInv_handle (x : State) (e : Event) : startInv x -> startInv (handle e x).
Proof.
  intros (H1 & H2). destruct (needsPermission x) eqn:N.
  - specialize (H2 eq_refl).
    unfold startInv. destruct x. cbn in *.
    destruct H2 as (-> & -> & -> & -> & -> & -> & -> & -> & -> & -> & ->
                    & -> & ->).
    subst. destruct hasStarted0; [discriminate|].
    destruct e; cbn; unfold find_timer, find_pending; cbn;
      unfold handleStart, handleInterrupt, speak; cbn;
      repeat match goal with
             | |- context [if ?c then _ else _] => destruct c
             end; cbn;
      (split; [reflexivity | intros N; try discriminate N; repeat split]).
  - destruct (handle_started e x N) as (E1 & E2).
    unfold startInv. rewrite E1, E2. split; [exact H1 | discriminate].
Qed.

Lemma startInv_render (x : State) : startInv x -> startInv (render x).
Proof.
  intros (H1 & H2). unfold startInv.
  destruct (render_browser x)
    as (Esp & -> & -> & Eu & _ & _ & Ers & _ & Elr & _).
  split; [exact H1|]. intros N.
  destruct (H2 N) as (a1 & a2 & a3 & a4 & a5 & a6 & a7 & a8 & a9 & a10
                      & a11 & a12 & a13).
  assert (WD : willDispatch x = false).
  { unfold willDispatch. rewrite a10. cbn. now rewrite andb_false_r. }
  assert (WA : willArm x = false).
  { unfold willArm. rewrite a2. cbn. now rewrite !andb_false_r. }
  destruct (render_no_dispatch x WD) as (-> & -> & _ & -> & -> & ->).
  destruct (render_no_arm x WA) as (-> & _).
  rewrite (render_quiet_text x WA WD), Esp, Eu, Ers, Elr.
  pose proof (render_status x WD) as St. rewrite a4, a3, a2 in St.
  rewrite orb_false_r in St.
  assert (St' : (status (render x), isListening (render x)) = (status x, false))
    by (now destruct (statusDepsSame x)).
  apply pair_equal_spec in St' as [-> ->]. repeat split; assumption.
Qed.

Lemma startInv_reachable (s : State) : reachable s -> startInv s.
Proof.
  apply reachable_preserves.
  - intros rs ss. split; [reflexivity|]. intros _. repeat split.
  - apply startInv_render.
  - intros x e _. apply startInv_handle.
Qed.

(** X6. Until the start button is pressed nothing happens: in every
    reachable state [needsPermission] is the negation of [hasStarted], and
    while it holds the state is Idle, no adapter is active, the flag is
    clear, no timer is pending, nothing has been posted and the screen
    shows "Ready to start" and "Click below to begin". *)
Theorem nothing_before_start (s : State) :
  reachable s ->
  needsPermission s = negb (hasStarted s) /\
  (needsPermission s = true ->
   status s = Idle /\ isListening s = false /\ isSpeaking s = false /\
   processingRef s = false /\ timers s = [] /\ pending s = [] /\
   sent s = [] /\
   getStatusText s = "Ready to start"%js /\
   getHintText s = "Click below to begin"%js).
Proof.
  intros R. destruct (startInv_reachable s R) as (H1 & H2).
  split; [exact H1|]. intros N.
  destruct (H2 N) as (a1 & a2 & a3 & a4 & a5 & a6 & a7 & a8 & _).
  unfold getStatusText, getHintText. rewrite N. repeat split; assumption.
Qed.

Lemma nothing_before_start_witness :
  let s := run (init true true)
             [EvClickContainer; EvAdvance 700; EvUttEnd; EvTimer 1] in
  needsPermission s = true /\ status s = Idle /\ sent s = [].
Proof.
  assert (R : reachable (run (init true true)
                 [EvClickContainer; EvAdvance 700; EvUttEnd; EvTimer 1]))
    by (now eexists true, true, _).
  destruct (nothing_before_start _ R) as (_ & H).
  destruct (H eq_refl) as (a & _ & _ & _ & _ & _ & b & _).
  exact (conj eq_refl (conj a b)).
Defined.

(** ** Recognition unsupported *)

Lemma startListening_unsupported (s : State) :
  recIsSupported s = false -> startListening s = s.
Proof. intros H. unfold startListening. now rewrite H. Qed.

Lemma deafInv_handle (x : State) (e : Event) : deafInv x -> deafInv (handle e x).
Proof.
  unfold deafInv. intros (H1 & H2 & H3 & H4 & H5 & H6 & H7 & H8).
  assert (Fp : forall i, find_pending i x = None)
    by (intros i; unfold find_pending; now rewrite H6).
  destruct e; cbn [handle]; rewrite ?H3, ?Fp; try (repeat split; assumption);
    unfold handleStart, handleCancel, handleInterrupt, runOnEnd, runTimer,
      onSpeechComplete, speak, stopSpeaking, stopListening, setTimeout,
      clearTimeout;
    repeat match goal with
           | |- context [if ?c then _ else _] => destruct c eqn:?
           | |- context [match ?c with _ => _ end] => destruct c eqn:?
           end;
    rewrite ?startListening_unsupported by (cbn; exact H1);
    cbn; repeat split; assumption.
Qed.

Lemma deafInv_render (x : State) : deafInv x -> deafInv (render x).
Proof.
  intros (H1 & H2 & H3 & H4 & H5 & H6 & H7 & H8). unfold deafInv.
  assert (WD : willDispatch x = false).
  { unfold willDispatch. rewrite H4. cbn. now rewrite andb_false_r. }
  destruct (render_browser x)
    as (_ & _ & _ & _ & _ & -> & -> & _ & _ & ->).
  destruct (render_no_dispatch x WD) as (-> & -> & _ & _ & -> & ->).
  rewrite (render_not_listening x WD H2). repeat split; assumption.
Qed.

(** X7. Where speech recognition is unsupported, [startListening] does
    nothing: after any sequence of events the input adapter has not been
    started and is not listening, nothing has been posted to the backend,
    and the hook still reports that recognition is not supported. *)
Theorem unsupported_recognition_never_posts (ss : bool) (es : list Event) :
  let s := run (init false ss) es in
  isListening s = false /\ recStarted s = false /\
  sent s = [] /\ pending s = [] /\
  recError s =
  Some "Speech recognition is not supported in this browser. Please use Chrome or Edge."%js.
Proof.
  intros s.
  assert (D : deafInv s).
  { apply (run_preserves deafInv deafInv_render
             (fun x e _ => deafInv_handle x e)).
    - apply init_settled.
    - repeat split. }
  destruct D as (_ & H2 & H3 & _ & _ & H6 & H7 & H8).
  repeat split; assumption.
Qed.

(** ** The pause timer *)

Lemma NoDup_map_filter (A B : Type) (g : A -> B) (f : A -> bool) (l : list A) :
  NoDup (map g l) -> NoDup (map g (filter f l)).
Proof.
  induction l as [|a l IH]; cbn; [trivial|].
  intros H. inversion H as [|? ? Hn Hd]; subst.
  destruct (f a); [|now apply IH]. cbn. constructor; [|now apply IH].
  intros Hin. apply Hn. apply in_map_iff in Hin as (b & E & Hb).
  apply filter_In in Hb as [Hb _]. apply in_map_iff. now exists b.
Qed.

Lemma timerIdsOk_add (l : list Timer) (n : nat) (d : Z) (a : TimerAction) :
  timerIdsOk l n ->
  timerIdsOk (l ++ [{| tid := n; due := d; act := a |}]) (S n).
Proof.
  intros (Hd & Hf). split.
  - rewrite map_app. cbn. apply NoDup_app; [exact Hd | | ].
    + constructor; [intros [] | constructor].
    + intros k Hk [<- | []]. apply in_map_iff in Hk as (t & E & Ht).
      pose proof (proj1 (Forall_forall _ _) Hf t Ht) as Hlt. cbn in Hlt. lia.
  - apply Forall_app. split.
    + eapply Forall_impl; [|exact Hf]. cbn. intros t Ht. lia.
    + constructor; [cbn; lia | constructor].
Qed.

Lemma timerIdsOk_filter (l : list Timer) (n : nat) (f : Timer -> bool) :
  timerIdsOk l n -> timerIdsOk (filter f l) n.
Proof.
  intros (Hd & Hf). split; [now apply NoDup_map_filter|].
  apply Forall_forall. intros t Ht. apply filter_In in Ht as [Ht _].
  now apply (proj1 (Forall_forall _ _) Hf).
Qed.

Lemma armed_add (l : list Timer) (t : Timer) :
  Forall armedWhileListening l -> armedWhileListening t ->
  Forall armedWhileListening (l ++ [t]).
Proof. intros H Ht. apply Forall_app. split; [exact H | now constructor]. Qed.

Lemma armed_filter (l : list Timer) (f : Timer -> bool) :
  Forall armedWhileListening l -> Forall armedWhileListening (filter f l).
Proof.
  intros H. apply Forall_forall. intros t Ht. apply filter_In in Ht as [Ht _].
  now apply (proj1 (Forall_forall _ _) H).
Qed.

Lemma pauseInv_handle (x : State) (e : Event) : pauseInv x -> pauseInv (handle e x).
Proof.
  unfold pauseInv. intros (H1 & H2).
  destruct e; handler_cases; split;
    repeat first [ assumption | apply timerIdsOk_add | apply timerIdsOk_filter
                 | apply armed_filter | apply armed_add | exact I ].
Qed.

Lemma pauseInv_render (x : State) : pauseInv x -> pauseInv (render x).
Proof.
  unfold pauseInv. intros (H1 & H2). destruct (willArm x) eqn:W.
  - destruct (render_arm x W) as (-> & _ & ->).
    assert (Hi : interimTranscript x <> ""%js).
    { unfold willArm in W. apply andb_prop in W as [_ W].
      apply andb_prop in W as [W _]. apply andb_prop in W as [W _].
      now apply truthy_true. }
    split.
    + apply timerIdsOk_add.
      destruct (silenceTimerRef x) as [[|k]|];
        [assumption | now apply timerIdsOk_filter | assumption].
    + apply armed_add; [|now split].
      destruct (silenceTimerRef x) as [[|k]|];
        [assumption | now apply armed_filter | assumption].
  - now destruct (render_no_arm x W) as (-> & _ & ->).
Qed.

Lemma pauseInv_reachable (s : State) : reachable s -> pauseInv s.
Proof.
  apply reachable_preserves.
  - intros rs ss. repeat split; constructor.
  - apply pauseInv_render.
  - intros x e _. apply pauseInv_handle.
Qed.

Lemma filter_at_most_one (l : list Timer) (P : Timer -> bool) (k : nat) :
  NoDup (map tid l) ->
  (forall t, In t l -> P t = true -> tid t = k) ->
  (length (filter P l) <= 1)%nat.
Proof.
  induction l as [|t l IH]; cbn; [lia|].
  intros Hd Hk. inversion Hd as [|? ? Hn Hd']; subst.
  destruct (P t) eqn:Pt.
  - assert (E : filter P l = []).
    { apply filter_none. apply Forall_forall. intros u Hu.
      destruct (P u) eqn:Pu; [exfalso | reflexivity].
      apply Hn. apply in_map_iff. exists u. split; [|exact Hu].
      rewrite (Hk u (or_intror Hu) Pu). symmetry. apply Hk; auto. }
    rewrite E. cbn. lia.
  - apply IH; [exact Hd' | intros u Hu; apply Hk; now right].
Qed.

(** X8. In every reachable state the pending timers have pairwise
    distinct identifiers and at most one of them is a pause timer: the one
    the timer ref names.  It was armed while listening on a non-empty
    interim text, so of the three checks its callback makes only the one
    on the flag can fail. *)
Theorem at_most_one_pause_timer (s : State) :
  reachable s ->
  NoDup (map tid (timers s)) /\
  (length (filter (fun t => isSilence (act t)) (timers s)) <= 1)%nat /\
  (forall t, In t (timers s) -> isSilence (act t) = true ->
             silenceTimerRef s = Some (tid t) /\
             exists text, act t = TSilence true text /\ text <> ""%js /\
                          runTimer (act t) s
                          = if processingRef s then s else stopListening s).
Proof.
  intros R.
  destruct (pauseInv_reachable s R) as ((Hd & _) & Ha).
  destruct (timerInv_reachable s R) as (_ & _ & Ht).
  assert (Href : forall t, In t (timers s) -> isSilence (act t) = true ->
                           silenceTimerRef s = Some (tid t)).
  { intros t Hin Hs. now apply (proj1 (Forall_forall _ _) Ht t Hin). }
  split; [exact Hd|]. split.
  - destruct (silenceTimerRef s) as [k|] eqn:E.
    + apply (filter_at_most_one _ _ k Hd). intros t Hin Hs.
      specialize (Href t Hin Hs). congruence.
    + rewrite filter_none; [cbn; lia|]. apply Forall_forall. intros t Hin.
      destruct (isSilence (act t)) eqn:Hs; [|reflexivity].
      specialize (Href t Hin Hs). congruence.
  - intros t Hin Hs. split; [now apply Href|].
    pose proof (proj1 (Forall_forall _ _) Ha t Hin) as A.
    unfold armedWhileListening in A.
    destruct (act t) as [b text| | | | |] eqn:E; try discriminate.
    destruct A as (-> & Hne). exists text. repeat split; [exact Hne|].
    cbn. rewrite (proj2 (truthy_true _) Hne). cbn.
    now destruct (processingRef s).
Qed.

Lemma at_most_one_pause_timer_witness :
  let s := run (init true true) heardFinal in
  NoDup (map tid (timers s)) /\
  (length (filter (fun t => isSilence (act t)) (timers s)) <= 1)%nat.
Proof.
  assert (R : reachable (run (init true true) heardFinal))
    by (now eexists true, true, _).
  destruct (at_most_one_pause_timer _ R) as (A & B & _).
  exact (conj A B).
Defined.

(** ** The hint and the interrupt *)

(** X9. The hint "Tap anywhere to interrupt" is on the screen exactly when
    the output adapter reports speaking, and that is exactly when a tap
    does something: it then stops the output adapter and empties its
    queue, and otherwise leaves the state as it is. *)
Theorem hint_matches_interrupt (s : State) :
  reachable s ->
  (getHintText s = "Tap anywhere to interrupt"%js <-> isSpeaking s = true)
  /\
  (isSpeaking s = true ->
   isSpeaking (step s EvClickContainer) = false /\
   utterance (step s EvClickContainer) = None) /\
  (isSpeaking s = false -> step s EvClickContainer = s).
Proof.
  intros R.
  pose proof (reachable_settled s R) as Hs.
  destruct (startInv_reachable s R) as (_ & St).
  destruct (adapterInv_reachable s R) as (_ & Hsup & _).
  split; [|split].
  - unfold getHintText. destruct (needsPermission s) eqn:N.
    + destruct (St eq_refl) as (_ & _ & -> & _). split; discriminate.
    + destruct (isSpeaking s); [tauto|].
      destruct (isListening s && truthy (currentTranscript s));
        split; discriminate.
  - intros Hsp.
    destruct (flush_browser commits (handle EvClickContainer s))
      as (E1 & _ & _ & E2 & _).
    unfold step. rewrite E1, E2. cbn [handle].
    unfold handleInterrupt, stopSpeaking. rewrite Hsp, (Hsup Hsp). now cbn.
  - intros Hsp. rewrite step_no_commit; cbn [handle]; unfold handleInterrupt;
      rewrite Hsp; [reflexivity | exact Hs].
Qed.

Lemma hint_matches_interrupt_witness :
  let s := run (init true true) replySpeaking in
  getHintText s = "Tap anywhere to interrupt"%js /\
  isSpeaking (step s EvClickContainer) = false.
Proof.
  assert (R : reachable (run (init true true) replySpeaking))
    by (now eexists true, true, _).
  destruct (hint_matches_interrupt _ R) as (A & B & _).
  exact (conj (proj2 A eq_refl) (proj1 (B eq_refl))).
Defined.

(** ** While a turn is in flight *)

(** X10. While the flag is set, no sequence of events other than the end
    of an utterance, a backend failure, an interrupt or a cancel clears it
    or posts anything: no second turn begins, whatever the recogniser
    reports and whichever timers fire. *)
Theorem in_flight_turn_blocks_dispatch (s : State) (es : list Event) :
  processingRef s = true -> nonClearing es ->
  processingRef (run s es) = true /\ sent (run s es) = sent s /\
  lastTranscriptRef (run s es) = lastTranscriptRef s.
Proof.
  revert s. induction es as [|e es IH]; intros s Hp Hn; [now repeat split|].
  inversion Hn as [|? ? He Hes]; subst. rewrite run_cons.
  assert (Hh : processingRef (handle e s) = true)
    by now rewrite handle_flag_kept.
  destruct (flush_flag_set commits _ Hh) as (d & E).
  assert (F : processingRef (step s e) = true /\ sent (step s e) = sent s /\
              lastTranscriptRef (step s e) = lastTranscriptRef s).
  { unfold step. rewrite E. cbn.
    now rewrite handle_sent, handle_lastTranscriptRef. }
  destruct F as (F1 & F2 & F3).
  destruct (IH (step s e) F1 Hes) as (G1 & G2 & G3).
  repeat split; congruence.
Qed.

Lemma in_flight_turn_blocks_dispatch_witness :
  let s := run (init true true) dispatched in
  sent (run s [EvAdvance 100; EvResult [("and tomorrow"%js, true)];
               EvReply 0 "it's three o'clock"; EvAdvance 200; EvTimer 2;
               EvUttStart; EvUttError;
               EvResult [("hello"%js, true)]])
  = sent s.
Proof.
  intros s.
  refine (proj1 (proj2 (in_flight_turn_blocks_dispatch s _ _ _)));
    [reflexivity | repeat constructor].
Defined.

(** ** The pause signal *)

Lemma trimInv_reachable (s : State) : reachable s -> trimInv s.
Proof.
  apply reachable_preserves.
  - intros rs ss. split; [reflexivity | constructor].
  - apply trimInv_render.
  - intros x e _. apply trimInv_handle.
Qed.

Lemma flush_not_listening (n : nat) (h : State) :
  isListening h = false -> isListening (flush n h) = false.
Proof.
  apply (flush_preserves (fun y => isListening y = false)).
  intros y Hy. destruct (isListening (render y)) eqn:E; [|reflexivity].
  apply render_listening_mono in E. congruence.
Qed.

Lemma find_timer_some (id : nat) (s : State) (t : Timer) :
  find_timer id s = Some t -> In t (timers s) /\ tid t = id.
Proof.
  unfold find_timer. intros H. apply find_some in H as (Hin & E).
  split; [exact Hin | now apply Nat.eqb_eq].
Qed.

(** X11. When the pause timer fires while listening with the flag clear,
    the input adapter is stopped.  If a final transcript is held that
    differs from the last dispatched one, it is posted in the same step,
    the flag is set and the state is Processing.  If nothing is held (and
    the output adapter is silent) nothing is posted, the state is left as
    it was, and no pause timer is pending any more. *)
Theorem pause_signal_stops_and_dispatches (s : State) (id : nat) (t : Timer) :
  reachable s ->
  find_timer id s = Some t -> isSilence (act t) = true ->
  due t <= clock s ->
  processingRef s = false -> isListening s = true ->
  let s' := step s (EvTimer id) in
  isListening s' = false /\
  (transcript s <> ""%js -> transcript s <> lastTranscriptRef s ->
   sent s' = (sent s ++ [transcript s])%list /\ status s' = Processing /\
   processingRef s' = true /\ lastTranscriptRef s' = transcript s) /\
  (transcript s = ""%js -> isSpeaking s = false ->
   sent s' = sent s /\ status s' = status s /\ processingRef s' = false /\
   filter (fun u => isSilence (act u)) (timers s') = []).
Proof.
  intros R Ft Hsil Hdue Hp Hl s'.
  pose proof (reachable_settled s R) as Hs.
  destruct (find_timer_some id s t Ft) as (Hin & Hid).
  destruct (pauseInv_reachable s R) as (_ & Ha).
  pose proof (proj1 (Forall_forall _ _) Ha t Hin) as A.
  unfold armedWhileListening in A.
  destruct (act t) as [b text| | | | |] eqn:Ea; try discriminate.
  destruct A as (-> & Hne).
  set (h := stopListening (clearTimeout id s)).
  assert (Eh : handle (EvTimer id) s = h).
  { cbn [handle]. rewrite Ft, (proj2 (Z.leb_le _ _) Hdue), Ea.
    unfold runTimer. cbn. now rewrite Hp, (proj2 (truthy_true _) Hne). }
  destruct (settled_depsSame s Hs) as (D1 & D2 & D3).
  assert (Df : finalDepsSame h = false).
  { unfold finalDepsSame in *. cbn.
    apply andb_prop in D2 as [D2 _]. apply andb_prop in D2 as [_ D2].
    apply Bool.eqb_prop in D2. rewrite D2, Hl. cbn.
    now rewrite andb_false_r. }
  assert (Hst : hasStarted s = true).
  { destruct (startInv_reachable s R) as (N & St).
    destruct (hasStarted s); [reflexivity|]. cbn in N.
    destruct (St N) as (_ & F & _). congruence. }
  split; [|split].
  - subst s'. unfold step. rewrite Eh. now apply flush_not_listening.
  - intros Hne' Hnl.
    assert (W : willDispatch h = true).
    { apply willDispatch_intro; try assumption; try reflexivity.
      change (transcript h) with (transcript s).
      destruct (trimInv_reachable s R) as (-> & _). exact Hne'. }
    destruct (flush_dispatch h W) as (d & E).
    destruct (render_dispatch h W) as (F1 & _ & F3 & F4 & F5 & _).
    subst s'. unfold step. rewrite Eh, E. cbn.
    rewrite F1, F3, F4, F5. repeat split.
  - intros Ht Hsp.
    assert (WD : willDispatch h = false).
    { unfold willDispatch. cbn. rewrite Ht. cbn. now rewrite andb_false_r. }
    assert (WA : willArm h = false).
    { unfold willArm. cbn. now rewrite !andb_false_r. }
    assert (St : (status (render h), isListening (render h))
                 = (status s, false)).
    { rewrite (render_status h WD). cbn. rewrite Hp, Hsp.
      now destruct (statusDepsSame h). }
    apply pair_equal_spec in St as [St1 St2].
    assert (E : step s (EvTimer id) = render h).
    { unfold step. rewrite Eh. apply flush_one.
      - unfold dirty. now rewrite Df, andb_false_r.
      - apply (render_keeps_listening_settled h WD). now rewrite St2. }
    subst s'. rewrite E, St1.
    destruct (render_no_dispatch h WD) as (-> & _ & _ & -> & _).
    destruct (render_no_arm h WA) as (-> & _).
    repeat split; try assumption.
    apply filter_none. apply Forall_forall. intros u Hu.
    cbn in Hu. apply filter_In in Hu as (Hu & Hneq).
    destruct (isSilence (act u)) eqn:Su; [exfalso | reflexivity].
    destruct (timerInv_reachable s R) as (_ & _ & Hti).
    pose proof (proj1 (Forall_forall _ _) Hti u Hu) as (_ & Ru).
    pose proof (proj1 (Forall_forall _ _) Hti t Hin) as (_ & Rt).
    apply Ru in Su. rewrite Ea in Rt. cbn in Rt.
    pose proof (proj1 Rt eq_refl) as Rt'. rewrite Su in Rt'.
    inversion Rt' as [K]. rewrite K, Hid, Nat.eqb_refl in Hneq. discriminate.
Qed.

Lemma pause_signal_stops_and_dispatches_witness :
  let s := run (init true true) (heardFinal ++ [EvAdvance 900])%list in
  let s' := step s (EvTimer 1) in
  isListening s' = false /\ sent s' = ["what time is it"%js] /\
  status s' = Processing.
Proof.
  assert (R : reachable (run (init true true) (heardFinal ++ [EvAdvance 900])))
    by (now eexists true, true, _).
  assert (Ft : find_timer 1 (run (init true true) (heardFinal ++ [EvAdvance 900]))
               = Some {| tid := 1; due := 4050;
                         act := TSilence true "what time is it" |})
    by (vm_compute; reflexivity).
  destruct (pause_signal_stops_and_dispatches _ 1%nat _ R Ft eq_refl)
    as (A & B & _); [vm_compute; discriminate | reflexivity | reflexivity |].
  destruct B as (b1 & b2 & _); [vm_compute; discriminate ..|].
  exact (conj A (conj b1 b2)).
Defined.

(** ** Quiet commits *)

(** Commits with both adapters inactive and no transcript held change
    none of the fields below. *)
Lemma flush_quiet (n : nat) (h : State) :
  isListening h = false -> isSpeaking h = false ->
  transcript h = ""%js ->
  status (flush n h) = status h /\ isListening (flush n h) = false /\
  sent (flush n h) = sent h /\ processingRef (flush n h) = processingRef h /\
  timers (flush n h) = timers h /\ pending (flush n h) = pending h /\
  currentTranscript (flush n h) = currentTranscript h.
Proof.
  intros Hl Hs Ht.
  enough (H : (status (flush n h) = status h /\
               isListening (flush n h) = false /\
               sent (flush n h) = sent h /\
               processingRef (flush n h) = processingRef h /\
               timers (flush n h) = timers h /\
               pending (flush n h) = pending h /\
               currentTranscript (flush n h) = currentTranscript h) /\
              isSpeaking (flush n h) = false /\
              transcript (flush n h) = ""%js) by tauto.
  apply (flush_preserves
           (fun y => (status y = status h /\ isListening y = false /\
                      sent y = sent h /\ processingRef y = processingRef h /\
                      timers y = timers h /\ pending y = pending h /\
                      currentTranscript y = currentTranscript h) /\
                     isSpeaking y = false /\ transcript y = ""%js));
    [|repeat split; assumption].
  intros y ((H1 & H2 & H3 & H4 & H5 & H6 & H7) & H8 & H9).
  assert (WD : willDispatch y = false).
  { unfold willDispatch. rewrite H9. cbn. now rewrite andb_false_r. }
  assert (WA : willArm y = false).
  { unfold willArm. rewrite H2. cbn. now rewrite !andb_false_r. }
  destruct (render_no_dispatch y WD) as (-> & -> & _ & -> & -> & _).
  destruct (render_no_arm y WA) as (-> & _).
  rewrite (render_quiet_text y WA WD).
  destruct (render_browser y) as (-> & _).
  pose proof (render_status y WD) as St. rewrite H8, H2 in St.
  assert (St' : (status (render y), isListening (render y)) = (status y, false))
    by (now destruct (statusDepsSame y || processingRef y)).
  apply pair_equal_spec in St' as [-> ->]. repeat split; assumption.
Qed.

(** Commits after the recogniser was started while the output adapter
    went silent: the status effect shows Listening. *)
Lemma flush_resume_dirty (n : nat) (h : State) :
  isListening h = true -> isSpeaking h = false ->
  processingRef h = false -> interimTranscript h = ""%js ->
  statusDepsSame h = false ->
  status (flush (S n) h) = Listening /\ isListening (flush (S n) h) = true /\
  sent (flush (S n) h) = sent h /\ processingRef (flush (S n) h) = false /\
  timers (flush (S n) h) = timers h.
Proof.
  intros Hl Hs Hp Hi Hd. rewrite flush_S.
  assert (D : dirty h = true) by (unfold dirty; now rewrite Hd, andb_false_r).
  rewrite D.
  assert (WD : willDispatch h = false).
  { unfold willDispatch. rewrite Hl. cbn. now rewrite !andb_false_r. }
  assert (WA : willArm h = false).
  { unfold willArm. rewrite Hi. cbn. now rewrite andb_false_r. }
  pose proof (render_status h WD) as St. rewrite Hd, Hp, Hs, Hl in St.
  cbn in St. apply pair_equal_spec in St as [St1 St2].
  destruct (render_no_dispatch h WD) as (Es & _ & _ & Ep & _ & Ei).
  destruct (render_no_arm h WA) as (Et & _).
  destruct (render_browser h) as (Esp & _).
  destruct (flush_resume n (render h)) as (-> & -> & -> & -> & _ & -> & _);
    try congruence.
  repeat split; assumption.
Qed.

(** The dependency tests read the recorded dependencies and five state
    variables only. *)
Lemma depsSame_ext (a b : State) :
  deps a = deps b -> depsOf a = depsOf b ->
  silenceDepsSame a = silenceDepsSame b /\
  finalDepsSame a = finalDepsSame b /\
  statusDepsSame a = statusDepsSame b.
Proof.
  unfold silenceDepsSame, finalDepsSame, statusDepsSame, depsOf.
  intros -> E. inversion E as [[E1 E2 E3 E4 E5]].
  now rewrite E1, E2, E3, E4, E5.
Qed.

(** ** The reply *)

Lemma find_pending_fst (i : nat) (s : State) (p : nat * bool) :
  find_pending i s = Some p -> fst p = i.
Proof.
  unfold find_pending. intros H. apply find_some in H as (_ & E).
  now apply Nat.eqb_eq.
Qed.

Lemma handle_synthIsSupported (e : Event) (s : State) :
  synthIsSupported (handle e s) = synthIsSupported s.
Proof. destruct e; handler_cases; congruence. Qed.

(** A call is in flight only where synthesis is supported: without it the
    greeting never ends and the recogniser is never started. *)
Lemma pending_needs_synthesis (s : State) :
  reachable s -> pending s <> [] -> synthIsSupported s = true.
Proof.
  intros (rs & [|] & es & ->) Hp.
  - apply (run_preserves (fun y => synthIsSupported y = true)).
    + intros x Hx. destruct (render_browser x)
        as (_ & _ & _ & _ & _ & _ & _ & -> & _). exact Hx.
    + intros x e _ Hx. now rewrite handle_synthIsSupported.
    + apply init_settled.
    + reflexivity.
  - assert (M : muteInv (run (init rs false) es)).
    { apply (run_preserves muteInv muteInv_render
               (fun x e _ => muteInv_handle x e)).
      - apply init_settled.
      - repeat split. }
    destruct M as (_ & _ & _ & _ & _ & _ & M & _). contradiction.
Qed.

(** X12. When the backend answers a call, the reply is recorded and,
    200 units later, the state is Speaking and the reply is handed to the
    synthesiser with the completion callback of the turn.  Neither step
    looks at the flag or at the state: the reply of a turn that was
    cancelled in the meantime is spoken all the same.  (Synthesis is
    supported wherever a call is in flight.) *)
Theorem reply_is_spoken (s : State) (i : nat) (c : bool) (r : string) :
  reachable s -> find_pending i s = Some (i, c) ->
  let id := nextTimerId s in
  let s1 := step s (EvReply i r) in
  let s2 := step (step s1 (EvAdvance 200)) (EvTimer id) in
  synthIsSupported s = true /\
  (lastResponse s1 = r /\ status s1 = status s /\
   processingRef s1 = processingRef s /\ utterance s1 = utterance s /\
   timers s1 = (timers s ++ [{| tid := id; due := clock s + 200;
                                act := TSettle r c |}])%list) /\
  (status s2 = Speaking /\ lastResponse s2 = r /\
   processingRef s2 = processingRef s /\ sent s2 = sent s /\
   isListening s2 = isListening s /\
   utterance s2 = Some {| uText := r; uOnEnd := OnReply c;
                          uStarted := false |} /\
   (needsPermission s = false -> getStatusText s2 = r)).
Proof.
  intros R F id s1 s2.
  pose proof (reachable_settled s R) as Hs.
  pose proof (timerInv_fresh s (timerInv_reachable s R)) as Fr.
  assert (Hsup : synthIsSupported s = true).
  { apply (pending_needs_synthesis s R). unfold find_pending in F.
    intros E. rewrite E in F. discriminate. }
  split; [exact Hsup|].
  set (h1 := onReply c r (remove_pending i s)).
  assert (E1 : s1 = h1).
  { subst s1. rewrite step_no_commit; cbn [handle]; rewrite F;
      [reflexivity | exact Hs]. }
  assert (S1 : settled s1) by apply step_settled.
  assert (T1 : timers s1 = (timers s ++ [{| tid := id; due := clock s + 200;
                                           act := TSettle r c |}])%list)
    by now rewrite E1.
  split; [rewrite E1; cbn; repeat split|].
  assert (Ex : step s1 (EvAdvance 200) = set_clock (clock s1 + 200) s1)
    by (apply step_advance; [exact S1 | lia]).
  set (x := set_clock (clock s1 + 200) s1) in *.
  assert (Hh : handle (EvTimer id) x
               = speak r (OnReply c) (set_status Speaking (clearTimeout id x))).
  { rewrite (fire_fresh (timers s) id (clock s + 200) (TSettle r c));
      [|exact Fr | exact T1].
    replace (clock s + 200 <=? clock x) with true; [reflexivity|].
    symmetry. apply Z.leb_le. subst x. rewrite E1. cbn. lia. }
  assert (E2 : s2 = speak r (OnReply c)
                      (set_status Speaking (clearTimeout id x))).
  { subst s2. rewrite Ex. rewrite step_no_commit; rewrite Hh; [reflexivity|].
    unfold speak. destruct (negb (synthIsSupported _)); exact S1. }
  rewrite E2. unfold speak, getStatusText. subst x. rewrite E1. cbn.
  rewrite Hsup. cbn. repeat split; intros ->; reflexivity.
Qed.

Lemma reply_is_spoken_witness :
  let s := run (init true true) (dispatched ++ [EvAdvance 400])%list in
  let s2 := step (step (step s (EvReply 0 "it's three o'clock"))
                    (EvAdvance 200)) (EvTimer 2) in
  status s2 = Speaking /\ getStatusText s2 = "it's three o'clock"%js.
Proof.
  assert (R : reachable (run (init true true) (dispatched ++ [EvAdvance 400])))
    by (now eexists true, true, _).
  destruct (proj2 (proj2 (reply_is_spoken _ 0%nat false "it's three o'clock"
                            R eq_refl))) as (A & _ & _ & _ & _ & _ & B).
  exact (conj A (B eq_refl)).
Defined.

(** ** The end of an utterance *)

(** X13. When the synthesiser finishes a reply (input adapter stopped),
    the flag is cleared, the texts are emptied, the state is Idle and a
    timer is set 800 units ahead.  What that timer does was fixed when the
    turn was dispatched: if the output adapter was silent then, it shows
    Listening and starts the input adapter; if it was speaking then, the
    timer does nothing and the controller stays Idle with the input
    adapter stopped. *)
Theorem speech_completion (s : State) (text : string) (c : bool) :
  reachable s ->
  utterance s = Some {| uText := text; uOnEnd := OnReply c; uStarted := true |} ->
  isListening s = false ->
  let id := nextTimerId s in
  let s1 := step s EvUttEnd in
  let s2 := step (step s1 (EvAdvance 800)) (EvTimer id) in
  (isSpeaking s1 = false /\ utterance s1 = None /\ processingRef s1 = false /\
   status s1 = Idle /\ currentTranscript s1 = ""%js /\
   lastResponse s1 = ""%js /\ sent s1 = sent s /\
   timers s1 = (timers s ++ [{| tid := id; due := clock s + 800;
                                act := TResume c |}])%list) /\
  (c = false -> recIsSupported s = true ->
   isListening s2 = true /\ status s2 = Listening /\
   processingRef s2 = false /\ sent s2 = sent s) /\
  (c = true ->
   isListening s2 = false /\ status s2 = Idle /\ sent s2 = sent s /\
   timers s2 = filter (fun t => negb (tid t =? id)%nat) (timers s1)).
Proof.
  intros R U Hl id s1 s2.
  pose proof (reachable_settled s R) as Hs.
  pose proof (timerInv_fresh s (timerInv_reachable s R)) as Fr.
  destruct (settled_depsSame s Hs) as (D1 & D2 & _).
  set (h := onSpeechComplete c (set_isSpeaking false (set_utterance None s))).
  assert (Eh : handle EvUttEnd s = h) by (cbn [handle]; now rewrite U).
  destruct (flush_idle commits h Hl eq_refl D1 D2) as (d & E).
  assert (E1 : s1 = set_deps d h) by (subst s1; unfold step; now rewrite Eh).
  assert (S1 : settled s1) by apply step_settled.
  subst s2. clearbody s1. subst s1. clear E Eh.
  set (s1 := set_deps d h) in *.
  assert (T1 : timers s1 = (timers s ++ [{| tid := id; due := clock s + 800;
                                           act := TResume c |}])%list)
    by reflexivity.
  split; [repeat split|].
  assert (Ex : step s1 (EvAdvance 800) = set_clock (clock s1 + 800) s1)
    by (apply step_advance; [exact S1 | lia]).
  rewrite Ex. clear Ex.
  set (x := set_clock (clock s1 + 800) s1).
  assert (Tx : timers x = (timers s ++ [{| tid := id; due := clock s + 800;
                                          act := TResume c |}])%list)
    by (cbn; reflexivity).
  assert (Cx : (clock s + 800 <=? clock x) = true)
    by (apply Z.leb_le; cbn; lia).
  assert (Hh : handle (EvTimer id) x = runTimer (TResume c) (clearTimeout id x)).
  { rewrite (fire_fresh (timers s) id (clock s + 800) (TResume c) x Fr Tx).
    now rewrite Cx. }
  unfold step. rewrite Hh. clear Hh.
  destruct (settled_depsSame s1 S1) as (d1 & d2 & _).
  split.
  - intros -> Hrec.
    set (y := set_recStarted true
                (set_isListening true
                   (set_interimTranscript ""
                      (set_transcript ""
                         (set_recError None
                            (set_status Listening (clearTimeout id x))))))).
    assert (G : runTimer (TResume false) (clearTimeout id x) = y).
    { unfold runTimer, startListening.
      replace (recIsSupported (set_status Listening (clearTimeout id x)))
        with true by (cbn; now rewrite Hrec).
      reflexivity. }
    rewrite G.
    assert (g1 : isListening y = true) by (cbn; reflexivity).
    assert (g2 : isSpeaking y = false) by (cbn; reflexivity).
    assert (g3 : processingRef y = false) by (cbn; reflexivity).
    assert (g4 : status y = Listening) by (cbn; reflexivity).
    assert (g5 : interimTranscript y = ""%js) by (cbn; reflexivity).
    assert (g6 : sent y = sent s) by (cbn; reflexivity).
    clearbody y.
    destruct (flush_resume commits y g1 g2 g3 g4 g5)
      as (-> & -> & -> & -> & _).
    repeat split. exact g6.
  - intros ->.
    assert (G : runTimer (TResume true) (clearTimeout id x) = clearTimeout id x)
      by reflexivity.
    rewrite G. clear G.
    set (y := clearTimeout id x).
    assert (g1 : isListening y = false) by (cbn; exact Hl).
    assert (g2 : isSpeaking y = false) by (cbn; reflexivity).
    assert (Ed : deps y = deps s1) by (cbn; reflexivity).
    assert (Eo : depsOf y = depsOf s1) by (unfold depsOf; cbn; reflexivity).
    destruct (depsSame_ext y s1 Ed Eo) as (g3 & g4 & _).
    rewrite d1 in g3. rewrite d2 in g4.
    assert (g5 : status y = Idle) by (cbn; reflexivity).
    assert (g6 : sent y = sent s) by (cbn; reflexivity).
    assert (g7 : timers y = filter (fun t => negb (tid t =? id)%nat) (timers s1))
      by (cbn; reflexivity).
    clearbody y.
    destruct (flush_idle commits y g1 g2 g3 g4) as (d' & ->).
    cbn. repeat split; assumption.
Qed.

Lemma speech_completion_witness :
  let s := run (init true true) replySpeaking in
  let s2 := step (step (step s EvUttEnd) (EvAdvance 800)) (EvTimer 3) in
  isListening s2 = true /\ status s2 = Listening /\
  processingRef s2 = false /\ sent s2 = ["what time is it"%js].
Proof.
  assert (R : reachable (run (init true true) replySpeaking))
    by (now eexists true, true, _).
  exact (proj1 (proj2 (speech_completion _ "it's three o'clock" false R
                         eq_refl eq_refl)) eq_refl eq_refl).
Defined.

(** Commits on empty transcripts leave them empty. *)
Lemma flush_empty_texts (n : nat) (h : State) :
  transcript h = ""%js -> interimTranscript h = ""%js ->
  transcript (flush n h) = ""%js /\ interimTranscript (flush n h) = ""%js.
Proof.
  intros Ht Hi.
  apply (flush_preserves
           (fun y => transcript y = ""%js /\ interimTranscript y = ""%js));
    [|now split].
  intros y (Hy & Hy').
  assert (W : willDispatch y = false).
  { destruct (willDispatch y) eqn:W; [|reflexivity].
    now destruct (willDispatch_facts y W) as (Hne & _). }
  destruct (render_no_dispatch y W) as (_ & _ & _ & _ & -> & ->).
  now split.
Qed.

(** X14. When the synthesiser finishes the greeting (flag clear,
    recognition supported), the input adapter is started with an empty
    transcript, an empty interim text and no error, and the state is
    Listening; nothing is posted and no timer is set. *)
Theorem greeting_end_starts_listening (s : State) (text : string) :
  reachable s ->
  utterance s = Some {| uText := text; uOnEnd := OnGreeting; uStarted := true |} ->
  isSpeaking s = true -> processingRef s = false ->
  recIsSupported s = true ->
  let s1 := step s EvUttEnd in
  isListening s1 = true /\ status s1 = Listening /\ isSpeaking s1 = false /\
  recStarted s1 = true /\ utterance s1 = None /\ processingRef s1 = false /\
  sent s1 = sent s /\ timers s1 = timers s /\
  transcript s1 = ""%js /\ interimTranscript s1 = ""%js /\
  recError s1 = None.
Proof.
  intros R U Hsp Hp Hrec s1.
  pose proof (reachable_settled s R) as Hs.
  destruct (settled_depsSame s Hs) as (_ & _ & D3).
  set (h := startListening (set_isSpeaking false (set_utterance None s))).
  assert (Eh : handle EvUttEnd s = h) by (cbn [handle]; now rewrite U).
  assert (G : isListening h = true /\ isSpeaking h = false /\
              processingRef h = false /\ interimTranscript h = ""%js /\
              statusDepsSame h = false /\ sent h = sent s /\
              timers h = timers s /\ recStarted h = true /\
              utterance h = None /\ transcript h = ""%js /\
              recError h = None).
  { subst h. unfold startListening. cbn. rewrite Hrec. cbn.
    repeat split; try assumption.
    unfold statusDepsSame in *. cbn. rewrite Hsp in D3.
    apply andb_prop in D3 as [_ D3]. apply Bool.eqb_prop in D3.
    rewrite D3. now rewrite andb_false_r. }
  destruct G as (g1 & g2 & g3 & g4 & g5 & g6 & g7 & g8 & g9 & g10 & g11).
  destruct (flush_browser commits h)
    as (b1 & _ & _ & b2 & _ & _ & b3 & _ & _ & b4).
  destruct (flush_empty_texts commits h g10 g4) as (e1 & e2).
  subst s1. unfold step. rewrite Eh.
  rewrite e1, e2, b4.
  unfold commits in *.
  destruct (flush_resume_dirty 2 h g1 g2 g3 g4 g5) as (-> & -> & -> & -> & ->).
  rewrite b1, b2, b3. repeat split; assumption.
Qed.

Lemma greeting_end_starts_listening_witness :
  let s := run (init true true)
             [EvClickStart; EvAdvance 50; EvUttStart; EvAdvance 1500] in
  isListening (step s EvUttEnd) = true /\ status (step s EvUttEnd) = Listening.
Proof.
  assert (R : reachable (run (init true true)
                 [EvClickStart; EvAdvance 50; EvUttStart; EvAdvance 1500]))
    by (now eexists true, true, _).
  destruct (greeting_end_starts_listening _ greeting R eq_refl eq_refl
              eq_refl eq_refl) as (A & B & _).
  exact (conj A B).
Defined.

(** ** Recognition errors *)

(** X15. A "no-speech" error of the recogniser is ignored: the state is
    unchanged.  Any other error stops the input adapter and records a
    message in the hook.  The controller itself takes no notice: with no
    transcript held and the output adapter silent, its state, flag and
    timers are as before, so it shows what it showed and nothing restarts
    the input adapter. *)
Theorem recognition_error_handling (s : State) (code : string) :
  settled s -> recStarted s = true ->
  (code = "no-speech"%js -> step s (EvRecError code) = s) /\
  (code <> "no-speech"%js ->
   let s' := step s (EvRecError code) in
   isListening s' = false /\
   recError s' =
   Some (if (code =? "not-allowed")%js
         then "Microphone access denied. Please allow microphone access."
         else "Speech recognition error: " ++ code)%js /\
   (transcript s = ""%js -> isSpeaking s = false ->
    status s' = status s /\ processingRef s' = processingRef s /\
    timers s' = timers s /\ sent s' = sent s)).
Proof.
  intros Hs Hr. split.
  - intros ->. rewrite step_no_commit; cbn [handle]; rewrite Hr;
      [reflexivity | exact Hs].
  - intros Hc s'.
    set (h := set_isListening false
                (set_recError
                   (Some (if (code =? "not-allowed")%js
                          then "Microphone access denied. Please allow microphone access."
                          else "Speech recognition error: " ++ code)%js)
                   s)).
    assert (Eh : handle (EvRecError code) s = h).
    { cbn [handle]. rewrite Hr. unfold onerror.
      destruct (code =? "not-allowed")%js; [reflexivity|].
      now rewrite (proj2 (string_eqb_neq _ _) Hc). }
    subst s'. unfold step. rewrite Eh.
    split; [now apply flush_not_listening|]. split.
    + destruct (flush_browser commits h)
        as (_ & _ & _ & _ & _ & _ & _ & _ & _ & ->). reflexivity.
    + intros Ht Hsp.
      destruct (flush_quiet commits h eq_refl Hsp Ht)
        as (-> & _ & -> & -> & -> & _).
      repeat split.
Qed.

Lemma recognition_error_handling_witness :
  let s := run (init true true) toListening in
  step s (EvRecError "no-speech") = s /\
  isListening (step s (EvRecError "network")) = false /\
  status (step s (EvRecError "network")) = Listening.
Proof.
  assert (S : settled (run (init true true) toListening))
    by (apply run_settled, init_settled).
  destruct (recognition_error_handling _ "no-speech" S eq_refl) as (A & _).
  destruct (recognition_error_handling _ "network" S eq_refl) as (_ & B).
  destruct B as (b1 & _ & b2); [discriminate|].
  destruct (b2 eq_refl eq_refl) as (b3 & _).
  exact (conj (A eq_refl) (conj b1 b3)).
Defined.

(** ** Cancel, continued *)



(** X17. A cancel with no final transcript held posts nothing, and when
    its timer fires 500 units later (recognition supported) the state is
    Listening with the input adapter started and the flag clear. *)
Theorem cancel_resumes_listening (s : State) :
  reachable s -> synthIsSupported s = true -> recIsSupported s = true ->
  needsPermission s = false -> isSpeaking s = false ->
  transcript s = ""%js ->
  let s1 := step s EvClickCancel in
  let s2 := step (step s1 (EvAdvance 500)) (EvTimer (nextTimerId s)) in
  sent s1 = sent s /\ isListening s1 = false /\
  isListening s2 = true /\ status s2 = Listening /\
  processingRef s2 = false /\ sent s2 = sent s.
Proof.
  intros R Hsup Hrec Hn Hsp Ht. cbn zeta.
  pose proof (reachable_settled s R) as Hs.
  pose proof (timerInv_fresh s (timerInv_reachable s R)) as Fr.
  pose proof (step_settled s EvClickCancel) as S1.
  pose proof (step_cancel s Hs Hsup Hn Hsp Ht) as E1.
  rewrite (handleCancel_supported s Hsup) in E1.
  rewrite E1 in S1 |- *. clear E1.
  match goal with
  | S1 : settled ?o |- _ => set (s1 := o) in *
  end.
  assert (Ex : step s1 (EvAdvance 500) = set_clock (clock s1 + 500) s1)
    by (apply step_advance; [exact S1 | lia]).
  rewrite Ex. clear Ex.
  set (x := set_clock (clock s1 + 500) s1).
  assert (Tx : timers x = (timers s ++ [{| tid := nextTimerId s;
                                          due := clock s + 500;
                                          act := TCancelResume |}])%list)
    by (cbn; reflexivity).
  assert (Cx : (clock s + 500 <=? clock x) = true)
    by (apply Z.leb_le; cbn; lia).
  assert (Hh : handle (EvTimer (nextTimerId s)) x
               = runTimer TCancelResume (clearTimeout (nextTimerId s) x)).
  { rewrite (fire_fresh (timers s) (nextTimerId s) (clock s + 500)
               TCancelResume x Fr Tx).
    now rewrite Cx. }
  split; [cbn; reflexivity|]. split; [cbn; reflexivity|].
  unfold step. rewrite Hh. clear Hh.
  set (y := set_recStarted true
              (set_isListening true
                 (set_interimTranscript ""
                    (set_transcript ""
                       (set_recError None
                          (set_status Listening
                             (clearTimeout (nextTimerId s) x))))))).
  assert (G : runTimer TCancelResume (clearTimeout (nextTimerId s) x) = y).
  { unfold runTimer, startListening.
    replace (recIsSupported
               (set_status Listening (clearTimeout (nextTimerId s) x)))
      with true by (cbn; now rewrite Hrec).
    reflexivity. }
  rewrite G.
  assert (g1 : isListening y = true) by (cbn; reflexivity).
  assert (g2 : isSpeaking y = false) by (cbn; reflexivity).
  assert (g3 : processingRef y = false) by (cbn; reflexivity).
  assert (g4 : status y = Listening) by (cbn; reflexivity).
  assert (g5 : interimTranscript y = ""%js) by (cbn; reflexivity).
  assert (g6 : sent y = sent s) by (cbn; reflexivity).
  clearbody y.
  destruct (flush_resume commits y g1 g2 g3 g4 g5) as (-> & -> & -> & -> & _).
  repeat split. exact g6.
Qed.

Lemma cancel_resumes_listening_witness :
  let s := run (init true true) (dispatched ++ [EvAdvance 300])%list in
  let s2 := step (step (step s EvClickCancel) (EvAdvance 500)) (EvTimer 2) in
  isListening s2 = true /\ status s2 = Listening /\ processingRef s2 = false.
Proof.
  assert (R : reachable (run (init true true) (dispatched ++ [EvAdvance 300])))
    by (now eexists true, true, _).
  destruct (cancel_resumes_listening _ R eq_refl eq_refl eq_refl eq_refl
              eq_refl) as (_ & _ & A & B & C & _).
  exact (conj A (conj B C)).
Defined.

(** ** Where the posted messages come from *)

Lemma heard_snoc (es : list Event) (e : Event) :
  heard (es ++ [e]) = (heard es ++ heard [e])%list.
Proof. unfold heard. apply flat_map_app. Qed.

Lemma handle_transcript_source (e : Event) (s : State) :
  transcript (handle e s) = transcript s \/
  transcript (handle e s) = ""%js \/
  exists results, e = EvResult results /\ truthy (finalOf results) = true /\
                  transcript (handle e s) = trim (finalOf results).
Proof.
  destruct e; handler_cases; auto.
  right. right. eexists. repeat split. assumption.
Qed.

Lemma heldCount_le (s : State) : (heldCount s <= 1)%nat.
Proof. unfold heldCount. destruct (truthy (transcript s)); lia. Qed.

Lemma sourceInv_handle (es : list Event) (e : Event) (x : State) :
  sourceInv (heard es) x -> sourceInv (heard (es ++ [e])) (handle e x).
Proof.
  unfold sourceInv. intros (Ht & Hs & Hc).
  rewrite handle_sent, heard_snoc, length_app.
  split; [|split].
  - destruct (handle_transcript_source e x) as [-> | [-> | (r & -> & T & ->)]].
    + destruct Ht as [Ht | Ht]; [now left | right].
      apply in_or_app. now left.
    + now left.
    + right. apply in_or_app. right. cbn. rewrite T. now left.
  - intros m Hm. apply in_or_app. left. now apply Hs.
  - destruct (handle_transcript_source e x) as [E | [E | (r & -> & T & E)]].
    + unfold heldCount in *. rewrite E. lia.
    + unfold heldCount at 1. rewrite E. cbn. lia.
    + cbn [heard flat_map]. rewrite T. cbn [length app].
      pose proof (heldCount_le (handle (EvResult r) x)). lia.
Qed.

Lemma sourceInv_render (hs : list string) (x : State) :
  sourceInv hs x -> sourceInv hs (render x).
Proof.
  unfold sourceInv. intros (Ht & Hs & Hc). destruct (willDispatch x) eqn:W.
  - destruct (render_dispatch x W) as (-> & _ & _ & _ & _ & _ & E & _).
    destruct (willDispatch_facts x W) as (Hne & _).
    unfold heldCount in *. rewrite E.
    destruct Ht as [Ht | Ht]; [contradiction|].
    replace (truthy (transcript x)) with true in Hc
      by (symmetry; apply truthy_true; exact Hne).
    split; [now left|]. split.
    + intros m Hm. apply in_app_or in Hm as [Hm | [<- | []]]; auto.
    + rewrite length_app. cbn. lia.
  - destruct (render_no_dispatch x W) as (-> & _ & _ & _ & E & _).
    unfold heldCount in *. rewrite E. auto.
Qed.

Lemma sourceInv_run (rs ss : bool) (es : list Event) :
  sourceInv (heard es) (run (init rs ss) es).
Proof.
  induction es as [|e es IH] using rev_ind.
  - split; [now left|]. split; [intros m []|]. cbn. lia.
  - rewrite run_snoc. unfold step.
    apply (flush_preserves (sourceInv (heard (es ++ [e])))).
    + apply sourceInv_render.
    + now apply sourceInv_handle.
Qed.

(** X18. The controller posts only what the recogniser reported: after any
    sequence of events every posted message is the trimmed final text of
    a recognition result in that sequence, and no more messages are posted
    than there were results carrying a final text. *)
Theorem posts_come_from_results (rs ss : bool) (es : list Event) :
  let s := run (init rs ss) es in
  (forall m, In m (sent s) ->
     exists results, In (EvResult results) es /\
                     truthy (finalOf results) = true /\
                     m = trim (finalOf results)) /\
  (length (sent s) <= length (heard es))%nat.
Proof.
  intros s. destruct (sourceInv_run rs ss es) as (_ & Hs & Hc).
  fold s in Hs, Hc. split; [|lia].
  intros m Hm. apply Hs in Hm. unfold heard in Hm.
  apply in_flat_map in Hm as (e & He & Hm).
  destruct e; try contradiction.
  destruct (truthy (finalOf results)) eqn:T; [|contradiction].
  destruct Hm as [<- | []]. now exists results.
Qed.
